(** * Codebase Navigator: a shallow embedding of the analysis pipeline

  The development follows the TypeScript sources of the codebase
  navigator server:

  - [utils/codeAnalyzer.ts]   (module [CodeAnalyzer]),
  - [utils/fileSystem.ts]     (module [FileSystem]),
  - [utils/reportGenerator.ts] (module [ReportGenerator]),
  - [server.ts]               (module [Server]),
  - [index.ts]                (module [Dispatcher]).

  JavaScript strings are modelled as Rocq byte strings.  Character
  predicates ([\s], [\w], [.], case folding) are the ASCII ones, so the
  model agrees with the source on ASCII text; on other text lengths and
  slices count bytes where the source counts UTF-16 code units.

  Regular expressions are kept as syntax trees and run by a backtracking
  matcher with the priorities of the ECMAScript one (leftmost
  alternative first, greedy and lazy repetition, an iteration that
  consumes nothing is refused). *)

From Stdlib Require Import String Ascii List Bool Arith ZArith Lia.
From Stdlib Require Import DecimalString Permutation Sorted.
Import ListNotations.

Open Scope string_scope.
Open Scope bool_scope.

(* ================================================================== *)
(** ** JavaScript string primitives *)
(* ================================================================== *)

Module JsString.

(** The characters that cannot be written inside a string literal. *)
Definition nl : string := String "010"%char EmptyString.
Definition dq : string := String "034"%char EmptyString.
Definition bq : string := String "096"%char EmptyString.

Definition char_in (lo hi : nat) (c : ascii) : bool :=
  ((lo <=? nat_of_ascii c) && (nat_of_ascii c <=? hi))%nat.

Definition is_upper (c : ascii) : bool := char_in 65 90 c.
Definition is_lower (c : ascii) : bool := char_in 97 122 c.
Definition is_digit (c : ascii) : bool := char_in 48 57 c.

(** [\w] *)
Definition is_word (c : ascii) : bool :=
  is_upper c || is_lower c || is_digit c || Ascii.eqb c "_"%char.

(** Line terminators: LF and CR. *)
Definition is_line_terminator (c : ascii) : bool :=
  Ascii.eqb c "010"%char || Ascii.eqb c "013"%char.

(** [\s], and what [trim] removes: TAB, LF, VT, FF, CR, SPACE. *)
Definition is_space (c : ascii) : bool :=
  char_in 9 13 c || Ascii.eqb c " "%char.

Definition lower_char (c : ascii) : ascii :=
  if is_upper c then ascii_of_nat (nat_of_ascii c + 32) else c.

Definition upper_char (c : ascii) : ascii :=
  if is_lower c then ascii_of_nat (nat_of_ascii c - 32) else c.

Fixpoint map_chars (f : ascii -> ascii) (s : string) : string :=
  match s with
  | EmptyString => EmptyString
  | String c s' => String (f c) (map_chars f s')
  end.

Definition toLowerCase : string -> string := map_chars lower_char.
Definition toUpperCase : string -> string := map_chars upper_char.

(** [s.startsWith(p)] *)
Definition startsWith (s p : string) : bool := String.prefix p s.

(** [s.includes(sub)] *)
Fixpoint includes (s sub : string) : bool :=
  if String.prefix sub s then true
  else match s with
       | EmptyString => false
       | String _ s' => includes s' sub
       end.

(** [s.endsWith(suf)] *)
Definition endsWith (s suf : string) : bool :=
  let n := String.length s in
  let m := String.length suf in
  (m <=? n)%nat && String.eqb (substring (n - m) m s) suf.

(** [s.slice(0, n)] for [0 <= n]. *)
Definition slice_to (n : nat) (s : string) : string :=
  substring 0 (Nat.min n (String.length s)) s.

(** [s.slice(n)] for [0 <= n]. *)
Fixpoint slice_from (n : nat) (s : string) : string :=
  match n, s with
  | O, _ => s
  | S _, EmptyString => EmptyString
  | S n', String _ s' => slice_from n' s'
  end.

Fixpoint rev_onto (s acc : string) : string :=
  match s with
  | EmptyString => acc
  | String c s' => rev_onto s' (String c acc)
  end.

Definition rev_string (s : string) : string := rev_onto s EmptyString.

Fixpoint trimStart (s : string) : string :=
  match s with
  | EmptyString => EmptyString
  | String c s' => if is_space c then trimStart s' else s
  end.

Definition trimEnd (s : string) : string :=
  rev_string (trimStart (rev_string s)).

(** [s.trim()] *)
Definition trim (s : string) : string := trimEnd (trimStart s).

(** [s.split(sep)] for a one-character separator: never empty. *)
Fixpoint split_on (sep : ascii) (s : string) : list string :=
  match s with
  | EmptyString => [EmptyString]
  | String c s' =>
      if Ascii.eqb c sep then EmptyString :: split_on sep s'
      else match split_on sep s' with
           | [] => [String c EmptyString]
           | w :: ws => String c w :: ws
           end
  end.

Definition split_lines : string -> list string := split_on "010"%char.

(** [s.replace(/c/g, '')]: every occurrence of one character removed. *)
Fixpoint remove_char (x : ascii) (s : string) : string :=
  match s with
  | EmptyString => EmptyString
  | String c s' =>
      if Ascii.eqb c x then remove_char x s' else String c (remove_char x s')
  end.

(** [s.replace(/[()]/g, '')] *)
Fixpoint remove_chars (p : ascii -> bool) (s : string) : string :=
  match s with
  | EmptyString => EmptyString
  | String c s' =>
      if p c then remove_chars p s' else String c (remove_chars p s')
  end.

(** [xs.join(sep)] *)
Definition join (sep : string) (xs : list string) : string :=
  String.concat sep xs.

(** Template rendering of a non-negative integer. *)
Definition of_nat (n : nat) : string :=
  NilEmpty.string_of_uint (Nat.to_uint n).

(** Template rendering of an integer. *)
Definition of_Z (z : Z) : string :=
  NilEmpty.string_of_int (Z.to_int z).

(** [s.charAt(0).toUpperCase() + s.slice(1)] *)
Definition capitalize (s : string) : string :=
  match s with
  | EmptyString => EmptyString
  | String c s' => String (upper_char c) s'
  end.

(** [arr.slice(0, n)] *)
Definition take {A} (n : nat) (l : list A) : list A := firstn n l.

(** [arr.slice(-n)] *)
Definition take_last {A} (n : nat) (l : list A) : list A :=
  skipn (List.length l - n) l.

(** [[...new Set(arr)]]: first occurrences, in order of appearance. *)
Fixpoint dedup_from (seen : list string) (l : list string) : list string :=
  match l with
  | [] => []
  | x :: l' =>
      if existsb (String.eqb x) seen then dedup_from seen l'
      else x :: dedup_from (x :: seen) l'
  end.

Definition dedup (l : list string) : list string := dedup_from [] l.

End JsString.

(* ================================================================== *)
(** ** Regular expressions *)
(* ================================================================== *)

Module Regex.
Import JsString.

Inductive re : Type :=
| Eps                                  (* the empty pattern *)
| Chr (p : ascii -> bool)              (* one character of a class *)
| Seq (r1 r2 : re)                     (* r1 r2 *)
| Alt (r1 r2 : re)                     (* r1 | r2 *)
| Star (greedy : bool) (r : re)        (* r* and r*? *)
| Group (i : nat) (r : re)             (* capture group number i *)
| Bol (multiline : bool)               (* ^ *)
| Eol (multiline : bool)               (* $ *)
| WordBoundary.                        (* \b *)

(** Captures, most recent first. *)
Definition captures := list (nat * string).

Fixpoint capture (i : nat) (cs : captures) : option string :=
  match cs with
  | [] => None
  | (j, s) :: cs' => if Nat.eqb i j then Some s else capture i cs'
  end.

Definition consumed (s rest : string) : string :=
  substring 0 (String.length s - String.length rest) s.

Definition orelse {A} (x y : option A) : option A :=
  match x with Some _ => x | None => y end.

Definition next_is (p : ascii -> bool) (s : string) : bool :=
  match s with EmptyString => false | String c _ => p c end.

Definition prev_is (p : ascii -> bool) (prev : option ascii) : bool :=
  match prev with None => false | Some c => p c end.

Section Matcher.
Context {A : Type}.

(** [run r prev s cs k]: match [r] at the head of [s], whose
    preceding character is [prev], then continue with [k]; the first
    success in priority order is the answer. *)
Fixpoint run (r : re) (prev : option ascii) (s : string) (cs : captures)
         (k : option ascii -> string -> captures -> option A)
  {struct r} : option A :=
  match r with
  | Eps => k prev s cs
  | Chr p =>
      match s with
      | EmptyString => None
      | String c s' => if p c then k (Some c) s' cs else None
      end
  | Seq r1 r2 =>
      run r1 prev s cs (fun prev' s' cs' => run r2 prev' s' cs' k)
  | Alt r1 r2 =>
      orelse (run r1 prev s cs k) (run r2 prev s cs k)
  | Star greedy r1 =>
      (fix loop (fuel : nat) (prev : option ascii) (s : string)
                (cs : captures) {struct fuel} : option A :=
         match fuel with
         | O => k prev s cs
         | S fuel' =>
             let again :=
               run r1 prev s cs
                   (fun prev' s' cs' =>
                      if (String.length s' <? String.length s)%nat
                      then loop fuel' prev' s' cs'
                      else None) in
             if greedy then orelse again (k prev s cs)
             else orelse (k prev s cs) again
         end) (S (String.length s)) prev s cs
  | Group i r1 =>
      run r1 prev s cs
          (fun prev' s' cs' => k prev' s' ((i, consumed s s') :: cs'))
  | Bol multiline =>
      match prev with
      | None => k prev s cs
      | Some c =>
          if multiline && is_line_terminator c then k prev s cs else None
      end
  | Eol multiline =>
      match s with
      | EmptyString => k prev s cs
      | String c _ =>
          if multiline && is_line_terminator c then k prev s cs else None
      end
  | WordBoundary =>
      if xorb (prev_is is_word prev) (next_is is_word s)
      then k prev s cs else None
  end.
End Matcher.

(** One match: what was matched, the captures, and what follows. *)
Record hit := {
  matched : string;
  groups : captures;
  last_char : option ascii;
  rest : string
}.

(** The match that starts exactly at the head of [s]. *)
Definition match_here (r : re) (prev : option ascii) (s : string)
  : option hit :=
  run r prev s []
      (fun prev' s' cs =>
         Some {| matched := consumed s s'; groups := cs;
                 last_char := prev'; rest := s' |}).

(** The leftmost match in [s]. *)
Fixpoint search (r : re) (prev : option ascii) (s : string) : option hit :=
  match match_here r prev s with
  | Some h => Some h
  | None =>
      match s with
      | EmptyString => None
      | String c s' => search r (Some c) s'
      end
  end.

(** [r.test(s)] *)
Definition test (r : re) (s : string) : bool :=
  match search r None s with Some _ => true | None => false end.

(** [s.match(r)] without the [g] flag: the first match and its groups. *)
Definition exec (r : re) (s : string) : option hit := search r None s.

(** Group [i] of a match: [m[i]], [None] when it took no part. *)
Definition group (i : nat) (h : hit) : option string := capture i (groups h).

(** [s.match(r) || []] with the [g] flag: every match, left to right;
    after an empty match the scan moves on by one character. *)
Fixpoint scan (fuel : nat) (r : re) (prev : option ascii) (s : string)
  : list string :=
  match fuel with
  | O => []
  | S fuel' =>
      match search r prev s with
      | None => []
      | Some h =>
          match matched h with
          | EmptyString =>
              match rest h with
              | EmptyString => [EmptyString]
              | String c s' => EmptyString :: scan fuel' r (Some c) s'
              end
          | _ => matched h :: scan fuel' r (last_char h) (rest h)
          end
      end
  end.

Definition match_all (r : re) (s : string) : list string :=
  scan (S (String.length s)) r None s.

(** *** Pattern notation *)

Definition chr (c : ascii) : re := Chr (Ascii.eqb c).

(** A letter under the [i] flag. *)
Definition chr_i (c : ascii) : re :=
  Chr (fun x => Ascii.eqb (lower_char x) (lower_char c)).

Fixpoint lit (s : string) : re :=
  match s with
  | EmptyString => Eps
  | String c EmptyString => chr c
  | String c s' => Seq (chr c) (lit s')
  end.

Fixpoint lit_i (s : string) : re :=
  match s with
  | EmptyString => Eps
  | String c EmptyString => chr_i c
  | String c s' => Seq (chr_i c) (lit_i s')
  end.

Fixpoint seq (rs : list re) : re :=
  match rs with
  | [] => Eps
  | [r] => r
  | r :: rs' => Seq r (seq rs')
  end.

Fixpoint alt (rs : list re) : re :=
  match rs with
  | [] => Chr (fun _ => false)
  | [r] => r
  | r :: rs' => Alt r (alt rs')
  end.

Definition star (r : re) : re := Star true r.         (* r*  *)
Definition star_lazy (r : re) : re := Star false r.   (* r*? *)
Definition plus (r : re) : re := Seq r (Star true r). (* r+  *)
Definition opt (r : re) : re := Alt r Eps.            (* r?  *)

Definition one_of (s : string) : re :=
  Chr (fun c => includes s (String c EmptyString)).   (* [...]  *)
Definition none_of (s : string) : re :=
  Chr (fun c => negb (includes s (String c EmptyString))). (* [^...] *)

Definition space : re := Chr is_space.                       (* \s *)
Definition non_space : re := Chr (fun c => negb (is_space c)). (* \S *)
Definition word : re := Chr is_word.                         (* \w *)
Definition any : re := Chr (fun c => negb (is_line_terminator c)). (* . *)
Definition anything : re := Chr (fun _ => true).             (* [\s\S] *)

(** [[a-zA-Z_]] and [[a-zA-Z0-9_]] *)
Definition ident_start : re :=
  Chr (fun c => is_lower c || is_upper c || Ascii.eqb c "_"%char).
Definition ident_char : re := Chr is_word.

(** The quote characters of the classes: single, double and backquote
    for the three-quote class, single and double for the other. *)
Definition quotes3 : string := "'" ++ dq ++ bq.
Definition quotes2 : string := "'" ++ dq.

End Regex.


(* ================================================================== *)
(** ** types/index.ts *)
(* ================================================================== *)

Module Types.

Inductive Phase : Type := conceptual | structural | analysis | synthesis.

Definition phase_name (p : Phase) : string :=
  match p with
  | conceptual => "conceptual"
  | structural => "structural"
  | analysis => "analysis"
  | synthesis => "synthesis"
  end.

Record CodebaseAnalysis : Type := {
  projectPath : string;
  phase : Phase;
  findings : string;
  nextPhaseNeeded : bool;
  timestamp : string
}.

Inductive ElementType : Type :=
| class_ | function_ | arrow_function | interface_ | type_.

Record CodeElement : Type := {
  type : ElementType;
  name : string;
  file : string;
  methods : option (list string);
  lineEstimate : option nat;
  isAsync : option bool;
  isExported : option bool
}.

Record FileContent : Type := {
  path : string;
  content : string;
  size : Z;
  lines : Z;
  extension : string
}.

Inductive Complexity : Type := Low | Medium | High | unknown.

Record ExtensionStats : Type := { count : Z; ext_totalLines : Z }.

Record LargestFile : Type := {
  lf_path : string;
  lf_lines : Z;
  lf_size : Z
}.

(** [filesByExtension] keeps its keys in insertion order, which is the
    order [Object.entries] later shows them in (an extension is empty or
    starts with a dot, so no key is an array index or a property that
    the object inherits). *)
Record CodeStructure : Type := {
  totalFiles : nat;
  totalLines : Z;
  totalSize : Z;
  filesByExtension : list (string * ExtensionStats);
  largestFiles : list LargestFile;
  complexity : Complexity
}.

(** [codeStructure] starts as an empty object, [None] here, and is
    filled in only when every file has been analysed. *)
Record CodeAnalysisResult : Type := {
  dependencies : list string;
  entryPoints : list string;
  patterns : list string;
  codeStructure : option CodeStructure;
  functionsAndClasses : list CodeElement;
  fileContents : list FileContent;
  architecture : list string
}.

(** How a call ends: with a value, or with a thrown error (for an
    asynchronous function: a promise that resolves, or one that
    rejects). *)
Inductive Outcome (A : Type) : Type :=
| Returned (a : A)
| Thrown (message : string).
Arguments Returned {A} a.
Arguments Thrown {A} message.

End Types.

(* ================================================================== *)
(** ** utils/codeAnalyzer.ts *)
(* ================================================================== *)

Module CodeAnalyzer.
Import JsString Regex Types.

(** Shorthands for the pieces the patterns below are made of. *)
Definition sp1 : re := plus space.        (* \s+ *)
Definition sp0 : re := star space.        (* \s* *)
Definition w1 : re := plus word.          (* \w+ *)
Definition q3 : re := one_of quotes3.
Definition q2 : re := one_of quotes2.
Definition dquote : re := one_of dq.
Definition backslash : string := String "092"%char EmptyString.

(** An identifier: a letter or underscore, then word characters. *)
Definition ident : re := Seq ident_start (star ident_char).

(** *** extractImports *)

(** Line 13: an import clause up to its quoted module, group 1. *)
Definition es_import_re : re :=
  seq [lit "import"; sp1; star_lazy any; sp1; lit "from"; sp1;
       q3; Group 1 (plus (none_of quotes3)); q3].
(** Line 17: the from part and its quoted module, group 1. *)
Definition es_from_re : re :=
  seq [lit "from"; sp1; q3; Group 1 (plus (none_of quotes3)); q3].
(** Lines 14 and 22: a require call on a quoted module, group 1. *)
Definition es_require_re : re :=
  seq [lit "require("; q3; Group 1 (plus (none_of quotes3)); q3; lit ")"].

(** Lines 28 and 30: from M import (group 1) or import M (group 2). *)
Definition python_import_re : re :=
  Alt (seq [lit "from"; sp1; Group 1 (plus non_space); sp1; lit "import"])
      (seq [lit "import"; sp1; Group 2 (plus non_space)]).

(** Identifiers separated by dots. *)
Definition dotted_name : re := Seq ident (star (Seq (lit ".") ident)).

(** Line 36: import, optional static (group 1), a dotted name with an
    optional trailing wildcard (group 2), optional space, semicolon. *)
Definition java_import_re : re :=
  seq [lit "import"; sp1; opt (Group 1 (Seq (lit "static") sp1));
       Group 2 (Seq dotted_name (opt (lit ".*"))); sp0; lit ";"].
(** Line 38: import, optional static, a dotted name (group 1). *)
Definition java_name_re : re :=
  seq [lit "import"; sp1; opt (Seq (lit "static") sp1); Group 1 dotted_name].

(** Line 44: import followed by a parenthesised block (group 1) or by
    one double-quoted path (group 2). *)
Definition go_import_re : re :=
  seq [lit "import"; sp1;
       Alt (seq [lit "("; sp0; Group 1 (plus (none_of ")")); sp0; lit ")"])
           (seq [dquote; Group 2 (plus (none_of dq)); dquote])].
(** Lines 48 and 55: a double-quoted path, group 1. *)
Definition go_quoted_re : re :=
  seq [dquote; Group 1 (plus (none_of dq)); dquote].

(** Identifiers separated by double colons. *)
Definition rust_path : re := Seq ident (star (Seq (lit "::") ident)).

(** Line 62: use, a path optionally ended by a brace list, a wildcard
    or an identifier (group 1), an optional as clause, semicolon. *)
Definition rust_use_re : re :=
  seq [lit "use"; sp1;
       Group 1 (Seq rust_path
                  (opt (Seq (lit "::")
                          (alt [seq [lit "{"; plus (none_of "}"); lit "}"];
                                lit "*"; ident]))));
       opt (seq [sp1; lit "as"; sp1; ident]); lit ";"].
(** Line 64: use and the path, group 1. *)
Definition rust_name_re : re := seq [lit "use"; sp1; Group 1 rust_path].

(** Lines 73 and 75: an include directive and its target, group 1. *)
Definition c_include_re : re :=
  seq [lit "#include"; sp0; one_of ("<" ++ dq);
       Group 1 (plus (none_of (">" ++ dq))); one_of (">" ++ dq)].

(** Line 83, and the first alternative of line 81: require or include,
    optional _once, optional parenthesis, a quoted path (group 1). *)
Definition php_require_re : re :=
  seq [Alt (lit "require") (lit "include"); opt (lit "_once"); sp0;
       opt (lit "("); q2; Group 1 (plus (none_of quotes2)); q2].
(** Line 84, and the second alternative of line 81, where the group is
    number 2: use and a name of identifier characters and backslashes. *)
Definition php_name (i : nat) : re :=
  Group i (Seq (Alt ident_start (one_of backslash))
               (star (Alt ident_char (one_of backslash)))).
Definition php_use_re (i : nat) : re := seq [lit "use"; sp1; php_name i].
Definition php_import_re : re := Alt php_require_re (php_use_re 2).

(** Line 91: require on a quoted path (group 1) or require_relative on
    a quoted path (group 2). *)
Definition ruby_import_re : re :=
  Alt (seq [lit "require"; sp0; q2; Group 1 (plus (none_of quotes2)); q2])
      (seq [lit "require_relative"; sp0; q2;
            Group 2 (plus (none_of quotes2)); q2]).
(** Line 93: require, optional _relative, a quoted path (group 1). *)
Definition ruby_name_re : re :=
  seq [lit "require"; opt (lit "_relative"); sp0; q2;
       Group 1 (plus (none_of quotes2)); q2].

(** [if (m) imports.push(m[i])]: what one inner match pushes.  A group
    that took no part is [undefined], modelled by [None]. *)
Definition push_group (i : nat) (r : re) (s : string)
  : list (option string) :=
  match exec r s with
  | Some h => [group i h]
  | None => []
  end.

(** [a || b] on values that are strings or undefined. *)
Definition js_or (a b : option string) : option string :=
  match a with
  | Some EmptyString | None => b
  | Some _ => a
  end.

Definition ext_is (extension : string) (exts : list string) : bool :=
  existsb (String.eqb extension) exts.

(** The final [imports.filter(imp => imp && !imp.startsWith('.'))]. *)
Definition keep_import (imp : option string) : option string :=
  match imp with
  | Some s =>
      if negb (String.eqb s EmptyString) && negb (startsWith s ".") then Some s
      else None
  | None => None
  end.

Fixpoint filter_imports (imports : list (option string)) : list string :=
  match imports with
  | [] => []
  | imp :: rest =>
      match keep_import imp with
      | Some s => s :: filter_imports rest
      | None => filter_imports rest
      end
  end.

(** The body of the [switch]: everything pushed before the filter. *)
Definition collect_imports (content extension : string)
  : list (option string) :=
  if ext_is extension [".js"; ".ts"; ".tsx"; ".jsx"] then
    let importMatches := match_all es_import_re content in
    let requireMatches := match_all es_require_re content in
    (flat_map (push_group 1 es_from_re) importMatches
     ++ flat_map (push_group 1 es_require_re) requireMatches)%list
  else if ext_is extension [".py"] then
    flat_map (fun m => match exec python_import_re m with
                       | Some h => [js_or (group 1 h) (group 2 h)]
                       | None => []
                       end)
             (match_all python_import_re content)
  else if ext_is extension [".java"] then
    flat_map (push_group 1 java_name_re) (match_all java_import_re content)
  else if ext_is extension [".go"] then
    flat_map (fun m =>
                if includes m "(" then
                  flat_map (fun imp =>
                              let cleaned := remove_char "034"%char imp in
                              if String.eqb cleaned EmptyString then []
                              else [Some cleaned])
                           (match_all go_quoted_re m)
                else push_group 1 go_quoted_re m)
             (match_all go_import_re content)
  else if ext_is extension [".rs"] then
    flat_map (push_group 1 rust_name_re) (match_all rust_use_re content)
  else if ext_is extension [".cpp"; ".c"; ".h"; ".hpp"] then
    flat_map (push_group 1 c_include_re) (match_all c_include_re content)
  else if ext_is extension [".php"] then
    flat_map (fun m => (push_group 1 php_require_re m
                        ++ push_group 1 (php_use_re 1) m)%list)
             (match_all php_import_re content)
  else if ext_is extension [".rb"] then
    flat_map (push_group 1 ruby_name_re) (match_all ruby_import_re content)
  else [].

Definition extractImports (content extension : string) : list string :=
  filter_imports (collect_imports content extension).


(** *** isEntryPoint *)

(** Lines 103 to 135, in order. *)
Definition entryPatterns : list re :=
  [ seq [lit "main"; sp0; lit "("];
    lit "express()";
    lit "createApp(";
    lit "ReactDOM.render";
    seq [lit "new"; sp1; lit "Server("];
    seq [lit "if"; sp1; lit "__name__"; sp0; lit "=="; sp0;
         q2; lit "__main__"; q2];
    seq [lit "public"; sp1; lit "static"; sp1; lit "void"; sp1;
         lit "main"; sp0; lit "("];
    seq [lit "int"; sp1; lit "main"; sp0; lit "("];
    seq [lit "void"; sp1; lit "main"; sp0; lit "("];
    seq [lit "func"; sp1; lit "main"; sp0; lit "("; sp0; lit ")"];
    seq [lit "fn"; sp1; lit "main"; sp0; lit "("; sp0; lit ")"];
    seq [lit "static"; sp1; lit "void"; sp1; lit "Main"; sp0; lit "("];
    Alt (Seq (lit "namespace") sp1) (lit "<?php");
    seq [lit "if"; sp1; lit "__FILE__"; sp0; lit "=="; sp0; lit "$0"] ].

Definition isEntryPoint (content filePath : string) : bool :=
  let isMainFile :=
    existsb (fun name => includes (toLowerCase filePath) name)
            ["index"; "main"; "app"; "server"; "program"] in
  let hasEntryPattern := existsb (fun pattern => test pattern content)
                                 entryPatterns in
  isMainFile || hasEntryPattern.

(** *** detectPatterns *)

(** Alternatives that are plain words under the [i] flag. *)
Definition words_i (ws : list string) : re := alt (map lit_i ws).
Definition words (ws : list string) : re := alt (map lit ws).

(** One [if (re.test(subject)) patterns.push(tag)]. *)
Definition tag_if (r : re) (subject tag : string) : list string :=
  if test r subject then [tag] else [].

(** Lines 150 to 190: the tests on the content, in order, with their
    tags; the last test of the function is on the file path. *)
Definition content_idioms : list (re * string) :=
  [ (alt [seq [lit_i "class"; sp1; w1]; seq [lit_i "struct"; sp1; w1];
          seq [lit_i "interface"; sp1; w1]], "OOP/Classes");
    (alt [seq [lit_i "function"; sp1; w1]; seq [lit_i "def"; sp1; w1];
          seq [lit_i "fn"; sp1; w1]; seq [lit_i "func"; sp1; w1];
          seq [lit_i "const"; sp1; w1; sp0; lit "="; star any; lit "=>"];
          seq [w1; sp0; lit "("]], "Functions");
    (alt [lit_i ".then("; Seq (lit_i "async") sp1; Seq (lit_i "await") sp1;
          lit_i "Promise"; lit_i "Future"; lit_i "Task"], "Async/Promises");
    (alt [seq [lit "try"; sp0; lit "{"];
          seq [WordBoundary; lit "try:"; sp0; Eol true];
          seq [lit "catch"; sp0; lit "("];
          seq [lit "except"; sp0; lit ":"]], "Error Handling");
    (alt [seq [lit_i "test"; sp0; lit "("];
          seq [lit_i "describe"; sp0; lit "("];
          seq [lit_i "it"; sp0; lit "("];
          lit_i "@Test"; lit_i "unittest"; lit_i "pytest"], "Testing");
    (alt [seq [lit_i "export"; sp1; opt (Group 1 (Seq (lit_i "default") sp1))];
          lit_i "module.exports"], "ES6 Modules");
    (words_i ["React."; "useState"; "useEffect"; "Component"], "React");
    (words_i ["express()"; "app.get"; "app.post"; "router."],
     "Express.js/Web Server");
    (words_i ["SELECT"; "INSERT"; "UPDATE"; "DELETE"; "CREATE TABLE";
              "ALTER TABLE"], "SQL/Database");
    (words_i ["mongoose."; "sequelize."; "prisma."; "TypeORM"; "Hibernate"],
     "ORM");
    (alt [lit_i "__init__.py";
          seq [lit_i "if"; sp1; lit_i "__name__"; sp0; lit "=="];
          seq [lit_i "import"; sp1; w1]; seq [lit_i "from"; sp1; w1]],
     "Python Modules");
    (words_i ["django"; "flask"; "fastapi"; "@app."; "@router."],
     "Python Web Framework");
    (words_i ["numpy"; "pandas"; "matplotlib"; "sklearn"; "tensorflow";
              "pytorch"], "Data Science/ML");
    (alt [seq [lit_i "package"; sp1; w1];
          seq [lit_i "import"; sp1; lit_i "java."];
          lit_i "@Override"; lit_i "@Component"], "Java/JVM");
    (words_i ["Spring"; "@Autowired"; "@Service"; "@Repository";
              "@Controller"], "Spring Framework");
    (words_i ["JUnit"; "@Test"; "Mockito"], "Java Testing");
    (alt [seq [lit_i "package"; sp1; w1]; seq [lit_i "import"; sp1; lit "("];
          seq [lit_i "func"; sp1; w1]; seq [lit_i "go"; sp1; lit_i "func"];
          Seq (lit_i "chan") sp1], "Go Language");
    (words_i ["gorilla/mux"; "gin."; "echo."; "http.Handle"],
     "Go Web Server");
    (alt [seq [lit_i "use"; sp1; w1]; seq [lit_i "mod"; sp1; w1];
          seq [lit_i "impl"; sp1; w1]; lit_i "#[derive"; lit_i "cargo"],
     "Rust Language");
    (words_i ["actix"; "warp"; "rocket"; "axum"], "Rust Web Framework");
    (words_i ["#include"; "#define"; "#ifndef"; "std::"; "using namespace"],
     "C/C++");
    (words_i ["iostream"; "vector"; "string"; "map"; "set"; "algorithm"],
     "C++ STL");
    (words_i ["docker"; "dockerfile"; "kubernetes"; "helm"; "terraform"],
     "DevOps/Infrastructure") ].

Definition path_idiom : re * string :=
  (words_i [".yml"; ".yaml"; "ansible"; "pipeline"], "Configuration as Code").

Definition detectPatterns (content filePath : string) : list string :=
  (flat_map (fun rt => tag_if (fst rt) content (snd rt)) content_idioms
   ++ tag_if (fst path_idiom) (toLowerCase filePath) (snd path_idiom))%list.

(** *** analyzeArchitecture *)

(** [class\s+\w+.*Name|Name.*{] *)
Definition role_re (name : string) : re :=
  Alt (seq [lit "class"; sp1; w1; star any; lit name])
      (seq [lit name; star any; lit "{"]).

(** Lines 283 to 318, in order. *)
Definition architecture_tests : list (re * string) :=
  [ (alt [seq [lit "server"; sp0; lit "="; sp0; lit "new"; sp1; lit "Server"];
          lit "createServer"; lit "express()"], "Server Architecture");
    (words ["router."; "Router("; "app.use"], "Routing Pattern");
    (words ["middleware"; "app.use("], "Middleware Pattern");
    (role_re "Controller", "Controller Pattern");
    (role_re "Service", "Service Layer Pattern");
    (role_re "Repository", "Repository Pattern");
    (words ["Observable"; "Subject"; "pipe("], "Reactive Programming");
    (words ["useState"; "useEffect"; "useContext"], "React Hooks Pattern");
    (seq [lit "try"; sp0; lit "{"; star anything; lit "catch"; sp0; lit "("],
     "Error Handling");
    (words ["logger."; "console."; "log("], "Logging");
    (words ["process.env"; "config."; "Config"], "Configuration Management");
    (words ["Tool[]"; "tools:"; "setRequestHandler"], "MCP Server Pattern") ].

Definition analyzeArchitecture (content filePath : string) : list string :=
  flat_map (fun rt => tag_if (fst rt) content (snd rt)) architecture_tests.

(** *** extractCodeElements *)


(** Line 199, flags g and m: class, a name (group 1), lazily anything up
    to an opening brace, lazily anything (group 2) up to a closing brace
    that starts a line. *)
Definition class_re : re :=
  seq [lit "class"; sp1; Group 1 w1; star_lazy anything; lit "{";
       Group 2 (star_lazy anything); Bol true; lit "}"].
(** Line 201. *)
Definition class_name_re : re := seq [lit "class"; sp1; Group 1 w1].
(** Line 204, flags g and m: at a line start, optional space, an optional
    access modifier (group 1), a name (group 2), an opening parenthesis. *)
Definition method_re : re :=
  seq [Bol true; sp0;
       opt (Group 1 (words ["public"; "private"; "protected"]));
       sp0; Group 2 w1; sp0; lit "("].
(** Line 218 and line 220. *)
Definition function_re : re :=
  seq [opt (Seq (lit "export") sp1); opt (Seq (lit "async") sp1);
       lit "function"; sp1; Group 1 w1].
Definition function_name_re : re := seq [lit "function"; sp1; Group 1 w1].
(** Line 233 and line 235. *)
Definition arrow_re : re :=
  seq [opt (Seq (lit "export") sp1); lit "const"; sp1; Group 1 w1; sp0;
       lit "="; sp0; opt (Seq (lit "async") sp1);
       lit "("; star (none_of ")"); lit ")"; sp0; lit "=>"].
Definition const_name_re : re := seq [lit "const"; sp1; Group 1 w1].
(** Lines 249, 251, 262 and 264. *)
Definition interface_re : re :=
  seq [opt (Seq (lit "export") sp1); lit "interface"; sp1; Group 1 w1].
Definition interface_name_re : re := seq [lit "interface"; sp1; Group 1 w1].
Definition type_re : re :=
  seq [opt (Seq (lit "export") sp1); lit "type"; sp1; Group 1 w1].
Definition type_name_re : re := seq [lit "type"; sp1; Group 1 w1].

(** [nameMatch[1]]; group 1 takes part in every match of the name
    patterns above. *)
Definition group1 (h : hit) : string :=
  match group 1 h with Some s => s | None => EmptyString end.

Definition is_paren (c : ascii) : bool :=
  Ascii.eqb c "("%char || Ascii.eqb c ")"%char.

(** [xs.forEach((x, index) => ...)] collecting what each call pushes. *)
Fixpoint flat_mapi {A B} (f : nat -> A -> list B) (i : nat) (l : list A)
  : list B :=
  match l with
  | [] => []
  | x :: l' => (f i x ++ flat_mapi f (S i) l')%list
  end.

Definition class_elements (content filePath : string) : list CodeElement :=
  flat_mapi
    (fun index m =>
       match exec class_name_re m with
       | Some nameMatch =>
           [{| type := class_; name := group1 nameMatch; file := filePath;
               methods := Some (map (fun x => remove_chars is_paren (trim x))
                                    (match_all method_re m));
               lineEstimate := Some (index * 50);
               isAsync := None; isExported := None |}]
       | None => []
       end)
    0 (match_all class_re content).

Definition function_elements (content filePath : string)
  : list CodeElement :=
  flat_map
    (fun m =>
       match exec function_name_re m with
       | Some nameMatch =>
           [{| type := function_; name := group1 nameMatch; file := filePath;
               methods := None; lineEstimate := None;
               isAsync := Some (includes m "async");
               isExported := Some (includes m "export") |}]
       | None => []
       end)
    (match_all function_re content).

Definition arrow_elements (content filePath : string) : list CodeElement :=
  flat_map
    (fun m =>
       match exec const_name_re m with
       | Some nameMatch =>
           [{| type := arrow_function; name := group1 nameMatch;
               file := filePath; methods := None; lineEstimate := None;
               isAsync := Some (includes m "async");
               isExported := Some (includes m "export") |}]
       | None => []
       end)
    (match_all arrow_re content).

Definition declared_elements (kind : ElementType) (scan_re name_re : re)
           (content filePath : string) : list CodeElement :=
  flat_map
    (fun m =>
       match exec name_re m with
       | Some nameMatch =>
           [{| type := kind; name := group1 nameMatch; file := filePath;
               methods := None; lineEstimate := None; isAsync := None;
               isExported := Some (includes m "export") |}]
       | None => []
       end)
    (match_all scan_re content).

Definition extractCodeElements (content filePath : string)
  : list CodeElement :=
  (class_elements content filePath
   ++ function_elements content filePath
   ++ arrow_elements content filePath
   ++ (if endsWith filePath ".ts" || endsWith filePath ".tsx" then
         declared_elements interface_ interface_re interface_name_re
                           content filePath
         ++ declared_elements type_ type_re type_name_re content filePath
       else []))%list.

(** *** buildCodeStructureMap *)

(** One round of the grouping loop, lines 335 to 340. *)
Fixpoint count_file (ext : string) (n : Z)
         (m : list (string * ExtensionStats))
  : list (string * ExtensionStats) :=
  match m with
  | [] => [(ext, {| count := 0 + 1; ext_totalLines := 0 + n |})]
  | (k, v) :: m' =>
      if String.eqb k ext
      then (k, {| count := count v + 1;
                  ext_totalLines := ext_totalLines v + n |}) :: m'
      else (k, v) :: count_file ext n m'
  end.

Definition group_by_extension (fileContents : list FileContent)
  : list (string * ExtensionStats) :=
  fold_left
    (fun acc f =>
       let ext := if String.eqb (extension f) EmptyString then "no-extension"
                  else extension f in
       count_file ext (lines f) acc)
    fileContents [].

(** [arr.sort((a, b) => b.lines - a.lines)]: the sort is stable, so the
    result is the one of a stable insertion sort, larger files first. *)
Fixpoint insert_by_lines (x : FileContent) (l : list FileContent)
  : list FileContent :=
  match l with
  | [] => [x]
  | y :: l' =>
      if (lines y - lines x <=? 0)%Z then x :: y :: l'
      else y :: insert_by_lines x l'
  end.

Fixpoint sort_by_lines (l : list FileContent) : list FileContent :=
  match l with
  | [] => []
  | x :: l' => insert_by_lines x (sort_by_lines l')
  end.

Definition classify (totalLines : Z) : Complexity :=
  if (totalLines >? 5000)%Z then High
  else if (totalLines >? 1000)%Z then Medium
  else Low.

(** The function returns the summary; [sort] works in place, so the
    caller's array is left in sorted order.  The second component is that
    array as it is after the call. *)
Definition buildCodeStructureMap (fileContents : list FileContent)
  : CodeStructure * list FileContent :=
  let total_lines :=
    fold_left (fun sum f => (sum + lines f)%Z) fileContents 0%Z in
  let total_size :=
    fold_left (fun sum f => (sum + size f)%Z) fileContents 0%Z in
  let by_ext := group_by_extension fileContents in
  let sorted := sort_by_lines fileContents in
  let largest :=
    map (fun f => {| lf_path := path f; lf_lines := lines f;
                     lf_size := size f |})
        (take 5 sorted) in
  ({| totalFiles := List.length fileContents;
      totalLines := total_lines;
      totalSize := total_size;
      filesByExtension := by_ext;
      largestFiles := largest;
      complexity := classify total_lines |},
   sorted).

End CodeAnalyzer.

(* ================================================================== *)
(** ** utils/fileSystem.ts *)
(* ================================================================== *)

Module FileSystem.
Import JsString Regex.

(** An absolute, normalised POSIX path is the list of its segments, the
    root first; the filesystem root is the empty list.  [path.join(dir,
    item)] is then [dir ++ [item]] and [path.dirname] drops the last
    segment. *)
Definition Path : Type := list string.

Definition path_string (p : Path) : string := "/" ++ String.concat "/" p.

(** [path.resolve(p)] from the working directory [cwd]. *)
Definition resolve_step (acc : list string) (seg : string) : list string :=
  if String.eqb seg EmptyString || String.eqb seg "." then acc
  else if String.eqb seg ".." then tl acc
  else seg :: acc.

Definition resolve (cwd : Path) (p : string) : Path :=
  rev (fold_left resolve_step (split_on "/"%char p)
                 (if startsWith p "/" then [] else rev cwd)).

(** [path.basename] and [path.extname] of a name without separators. *)
Fixpoint last_dot (s : string) : option nat :=
  match s with
  | EmptyString => None
  | String c s' =>
      match last_dot s' with
      | Some i => Some (S i)
      | None => if Ascii.eqb c "."%char then Some 0 else None
      end
  end.

Definition extname_of (base : string) : string :=
  if String.eqb base ".." then EmptyString
  else match last_dot base with
       | Some (S i) => slice_from (S i) base
       | _ => EmptyString
       end.

Definition basename (p : Path) : string := last p EmptyString.
Definition extname (p : Path) : string := extname_of (basename p).

(** [path.relative(root, p)] for [p] below [root]. *)
Definition relative (root p : Path) : string :=
  String.concat "/" (skipn (List.length root) p).

(** [path.basename] of a path given as a string. *)
Definition basename_string (p : string) : string :=
  last (filter (fun seg => negb (String.eqb seg EmptyString))
               (split_on "/"%char p))
       EmptyString.

(** What the [fs] module answers.  [None] stands for a thrown error. *)
Inductive Stats : Type := IsFile | IsDirectory | IsOther.

Definition isFile (s : Stats) : bool :=
  match s with IsFile => true | _ => false end.
Definition isDirectory (s : Stats) : bool :=
  match s with IsDirectory => true | _ => false end.

Record Fs : Type := {
  existsSync : Path -> bool;
  readdirSync : Path -> option (list string);
  statSync : Path -> option Stats;
  readFileSync : Path -> option string
}.

(** *** findKeyDocs *)

Definition exactly_i (name : string) : re :=
  seq [Bol false; lit_i name; Eol false].
Definition ending_i (name : string) : re := seq [lit_i name; Eol false].

Definition keyPatterns : list re :=
  [ exactly_i "readme.md";
    exactly_i "architecture.md";
    exactly_i "planning.md";
    exactly_i "design.md";
    exactly_i "prd.md";
    exactly_i "contributing.md";
    exactly_i "agents.md";
    exactly_i "tasks.md";
    ending_i "copilot-instructions.md";
    ending_i "claude.md" ].

(** The test a regular file has to pass, lines 35 and 36. *)
Definition is_key_doc (item : string) : bool :=
  endsWith item ".md" && existsb (fun pattern => test pattern item) keyPatterns.

Definition skipped_doc_dirs : list string :=
  ["node_modules"; ".git"; "dist"; "build"].

Definition maxDepth : nat := 10.

(** The [for] loop of [scanDir] over the items of [dir]; [scanSub] is the
    recursive call one level down.  The result is [keyDocs] after the
    loop and whether it ended normally ([true]) or by a thrown error
    ([false]). *)
Fixpoint scan_items (scanSub : Path -> list Path -> list Path * bool)
         (fs : Fs) (dir : Path) (items : list string) (keyDocs : list Path)
  : list Path * bool :=
  match items with
  | [] => (keyDocs, true)
  | item :: more =>
      let itemPath := (dir ++ [item])%list in
      match statSync fs itemPath with
      | None => (keyDocs, false)
      | Some stat =>
          if isDirectory stat
             && negb (existsb (String.eqb item) skipped_doc_dirs)
          then
            let (keyDocs', returned) := scanSub itemPath keyDocs in
            if returned then scan_items scanSub fs dir more keyDocs'
            else (keyDocs', false)
          else if isFile stat && endsWith item ".md" then
            if existsb (fun pattern => test pattern item) keyPatterns
            then scan_items scanSub fs dir more (keyDocs ++ [itemPath])%list
            else scan_items scanSub fs dir more keyDocs
          else scan_items scanSub fs dir more keyDocs
      end
  end.

(** [scanDir(dir, depth)] with [budget = maxDepth + 1 - depth], so that
    [depth > 10] is [budget = 0]. *)
Fixpoint scanDir (fs : Fs) (budget : nat) (dir : Path)
         (keyDocs : list Path) {struct budget} : list Path * bool :=
  match budget with
  | O => (keyDocs, true)
  | S budget' =>
      match readdirSync fs dir with
      | None => (keyDocs, false)
      | Some items => scan_items (scanDir fs budget') fs dir items keyDocs
      end
  end.

(** The error, if any, is dropped; what was collected is returned. *)
Definition findKeyDocs (fs : Fs) (projectPath : Path) : list Path :=
  fst (scanDir fs (S maxDepth) projectPath []).

(** *** findRepositoryRoot *)

Definition repositoryMarkers : list string :=
  [".git"; "package.json"; "pyproject.toml"; "Cargo.toml"; "pom.xml";
   "build.gradle"; "go.mod"; "composer.json"; "Gemfile"; ".gitignore";
   "README.md"].

(** The [for] loop over the markers at one directory. *)
Definition has_marker (fs : Fs) (currentPath : Path) : bool :=
  existsb (fun marker => existsSync fs (currentPath ++ [marker])%list)
          repositoryMarkers.

(** The [while] loop, on the reversed segments of [currentPath]: the
    loop is left without a result when [currentPath] is the filesystem
    root, and the parent of any other directory differs from it. *)
Fixpoint ascend (fs : Fs) (reversed : list string) : option Path :=
  match reversed with
  | [] => None
  | _ :: parent =>
      if has_marker fs (rev reversed) then Some (rev reversed)
      else ascend fs parent
  end.

Definition findRepositoryRoot (fs : Fs) (cwd : Path) (startPath : string)
  : string :=
  let currentPath := resolve cwd startPath in
  match ascend fs (rev currentPath) with
  | Some found => path_string found
  | None => startPath
  end.

(** *** getProjectStructure *)

(** The listing comes from a shell command; [None] is its failure. *)
Definition getProjectStructure (listing : string -> option string)
           (projectPath : string) : string :=
  match listing projectPath with
  | Some stdout => stdout
  | None => "Unable to generate project structure"
  end.

(** *** findCodeFiles *)

Definition extensions : list string :=
  [".ts"; ".js"; ".tsx"; ".jsx"; ".vue"; ".svelte";
   ".py"; ".java"; ".go"; ".rs"; ".cpp"; ".c"; ".cs"; ".php"; ".rb";
   ".swift"; ".kt"; ".dart";
   ".hs"; ".elm"; ".clj"; ".ml"; ".fs";
   ".sql"; ".json"; ".yaml"; ".yml"; ".toml"; ".xml";
   ".sh"; ".bash"; ".ps1"; ".bat";
   ".h"; ".hpp"; ".hxx"].

Definition skipped_code_dirs : list string :=
  ["node_modules"; ".git"; "dist"; "build"; "__pycache__";
   "target"; "bin"; "obj"; ".vscode"; ".idea";
   "vendor"; ".gradle"; ".maven"; "cmake-build-debug"].

(** The [for] loop of [walkDir]; an error thrown by [statSync] is caught
    by the [catch] of the enclosing call, which ends this loop only. *)
Fixpoint walk_items (walkSub : Path -> list Path -> list Path)
         (fs : Fs) (dir : Path) (items : list string) (codeFiles : list Path)
  : list Path :=
  match items with
  | [] => codeFiles
  | item :: more =>
      let itemPath := (dir ++ [item])%list in
      match statSync fs itemPath with
      | None => codeFiles
      | Some stat =>
          if isDirectory stat
             && negb (existsb (String.eqb item) skipped_code_dirs)
          then walk_items walkSub fs dir more (walkSub itemPath codeFiles)
          else if isFile stat
                  && existsb (fun ext => endsWith item ext) extensions
          then walk_items walkSub fs dir more (codeFiles ++ [itemPath])%list
          else walk_items walkSub fs dir more codeFiles
      end
  end.

(** [walkDir(dir, depth)], [budget] as in [scanDir]. *)
Fixpoint walkDir (fs : Fs) (budget : nat) (dir : Path)
         (codeFiles : list Path) {struct budget} : list Path :=
  match budget with
  | O => codeFiles
  | S budget' =>
      match readdirSync fs dir with
      | None => codeFiles
      | Some items => walk_items (walkDir fs budget') fs dir items codeFiles
      end
  end.

Definition findCodeFiles (fs : Fs) (projectPath : Path) : list Path :=
  walkDir fs (S maxDepth) projectPath [].

End FileSystem.


(* ================================================================== *)
(** ** utils/reportGenerator.ts *)
(* ================================================================== *)

Module ReportGenerator.
Import JsString Regex Types FileSystem.

(** [formatAnalysis] only builds the text that is logged; it has no part
    in the findings and is left out. *)

Definition summarizeDocument (content filename : string) : string :=
  let lines := take 10 (split_lines content) in
  let firstParagraph :=
    match find (fun line => (20 <? String.length (trim line))%nat) lines with
    | Some line => line
    | None => hd EmptyString lines
    end in
  slice_to 100 (trim firstParagraph)
  ++ (if (100 <? String.length firstParagraph)%nat then "..." else EmptyString).

(** One round of the loop over the first five documents. *)
Definition document_line (fs : Fs) (docPath : Path) : string :=
  let docName := basename docPath in
  match readFileSync fs docPath with
  | Some content =>
      "- **" ++ docName ++ "**: " ++ summarizeDocument content docName ++ nl
  | None => "- **" ++ docName ++ "**: Could not read file" ++ nl
  end.

Definition processPhase1 (fs : Fs) (projectPath : string)
           (keyDocs : list Path) : string :=
  "## Phase 1: Conceptual Understanding" ++ nl ++ nl
  ++ "**Key Documents Found:** " ++ of_nat (List.length keyDocs) ++ nl
  ++ (if (0 <? List.length keyDocs)%nat then
        nl ++ "**Document Analysis:**" ++ nl
        ++ String.concat EmptyString (map (document_line fs) (take 5 keyDocs))
        ++ nl ++ "**Project Understanding:**" ++ nl
        ++ "- Project appears to have structured documentation" ++ nl
        ++ "- Key architectural decisions likely documented" ++ nl
        ++ "- Development guidelines and processes defined" ++ nl
      else
        nl ++ "**Note:** No key documentation files found. Project may lack comprehensive documentation." ++ nl).

(** [if (c) analysis += text] *)
Definition when (c : bool) (text : string) : string :=
  if c then text else EmptyString.

Definition processPhase2 (projectPath structure : string) : string :=
  "## Phase 2: Structural Scaffolding" ++ nl ++ nl
  ++ "**Project Structure:**" ++ nl
  ++ "```" ++ nl
  ++ structure
  ++ nl ++ "```" ++ nl ++ nl
  ++ "**Structural Insights:**" ++ nl
  ++ when (includes structure "src/")
          ("- Standard source code organization with `src/` directory" ++ nl)
  ++ when (includes structure "package.json")
          ("- Node.js/JavaScript project with npm package management" ++ nl)
  ++ when (includes structure "requirements.txt" || includes structure ".py")
          ("- Python project detected" ++ nl)
  ++ when (includes structure "Cargo.toml")
          ("- Rust project detected" ++ nl)
  ++ when (includes structure "pom.xml" || includes structure "build.gradle")
          ("- Java project with build system" ++ nl).

(** *** processPhase3 *)

(** [(size / 1024).toFixed(1)] for a size that is not negative: the
    quotient rounded to the nearest tenth, a tie going up. *)
Definition kilobytes (size : Z) : string :=
  let tenths := ((size * 10 + 512) / 1024)%Z in
  of_Z (tenths / 10) ++ "." ++ of_Z (tenths mod 10).

Definition complexity_name (c : Complexity) : string :=
  match c with
  | Low => "Low"
  | Medium => "Medium"
  | High => "High"
  | unknown => "unknown"
  end.

Definition type_name (t : ElementType) : string :=
  match t with
  | class_ => "class"
  | function_ => "function"
  | arrow_function => "arrow_function"
  | interface_ => "interface"
  | type_ => "type"
  end.

Definition render_each {A} (f : A -> string) (l : list A) : string :=
  String.concat EmptyString (map f l).

Definition bullet (s : string) : string := "- " ++ s ++ nl.

(** Lines 136 to 144. *)
Definition external_section (externalDeps : list string) : string :=
  when (0 <? List.length externalDeps)%nat
       ("*External Dependencies:*" ++ nl
        ++ render_each bullet (take 15 externalDeps)
        ++ when (15 <? List.length externalDeps)%nat
                ("- ... and " ++ of_nat (List.length externalDeps - 15)
                 ++ " more external dependencies" ++ nl)).

(** Lines 146 to 154. *)
Definition internal_section (internalDeps : list string) : string :=
  when (0 <? List.length internalDeps)%nat
       ("*Internal Imports:*" ++ nl
        ++ render_each bullet (take 10 internalDeps)
        ++ when (10 <? List.length internalDeps)%nat
                ("- ... and " ++ of_nat (List.length internalDeps - 10)
                 ++ " more internal imports" ++ nl)).

Definition externalDeps_of (deps : list string) : list string :=
  filter (fun dep => negb (startsWith dep ".")) deps.
Definition internalDeps_of (deps : list string) : list string :=
  filter (fun dep => startsWith dep ".") deps.

(** Lines 130 to 158. *)
Definition dependencies_section (deps : list string) : string :=
  "**🔗 Dependencies & Imports:**" ++ nl
  ++ (if (0 <? List.length deps)%nat then
        external_section (externalDeps_of deps)
        ++ internal_section (internalDeps_of deps)
      else "- No external dependencies detected" ++ nl)
  ++ nl.

Definition entry_points_section (entries : list string) : string :=
  "**🚪 Entry Points:**" ++ nl
  ++ (if (0 <? List.length entries)%nat then
        render_each (fun entry => "- **" ++ entry ++ "**" ++ nl) entries
      else "- No clear entry points identified" ++ nl)
  ++ nl.

(** The [reduce] of lines 174 to 178: elements grouped by type, the
    groups in the order in which their types first occur. *)
Fixpoint add_to_group (e : CodeElement)
         (acc : list (ElementType * list CodeElement))
  : list (ElementType * list CodeElement) :=
  match acc with
  | [] => [(type e, [e])]
  | (t, es) :: acc' =>
      if String.eqb (type_name t) (type_name (type e))
      then (t, (es ++ [e])%list) :: acc'
      else (t, es) :: add_to_group e acc'
  end.

Definition elementsByType (elements : list CodeElement)
  : list (ElementType * list CodeElement) :=
  fold_left (fun acc e => add_to_group e acc) elements [].

Definition is_true (b : option bool) : bool :=
  match b with Some true => true | _ => false end.

Definition element_line (element : CodeElement) : string :=
  "- **" ++ name element ++ "**"
  ++ when (negb (String.eqb (file element) EmptyString))
          (" (" ++ file element ++ ")")
  ++ when (is_true (isAsync element)) " [async]"
  ++ when (is_true (isExported element)) " [exported]"
  ++ match methods element with
     | Some ms =>
         when (0 <? List.length ms)%nat
              (" - Methods: " ++ join ", " (take 3 ms)
               ++ when (3 <? List.length ms)%nat
                       (", +" ++ of_nat (List.length ms - 3) ++ " more"))
     | None => EmptyString
     end
  ++ nl.

Definition element_group (g : ElementType * list CodeElement) : string :=
  let (t, elements) := g in
  "*" ++ capitalize (type_name t) ++ "s ("
  ++ of_nat (List.length elements) ++ "):*" ++ nl
  ++ render_each element_line (take 10 elements)
  ++ when (10 <? List.length elements)%nat
          ("- ... and " ++ of_nat (List.length elements - 10) ++ " more "
           ++ type_name t ++ "s" ++ nl)
  ++ nl.

Definition elements_section (elements : list CodeElement) : string :=
  "**⚙️ Code Elements Detected:**" ++ nl
  ++ (if (0 <? List.length elements)%nat then
        render_each element_group (elementsByType elements)
      else "- No code elements detected" ++ nl ++ nl).

Definition tags_section (title none : string) (tags : list string)
  : string :=
  title ++ nl
  ++ (if (0 <? List.length tags)%nat then render_each bullet (dedup tags)
      else none ++ nl)
  ++ nl.

Definition is_meaningful (line : string) : bool :=
  negb (String.eqb (trim line) EmptyString)
  && negb (startsWith (trim line) "//")
  && negb (startsWith (trim line) "*").

Definition file_detail (f : FileContent) : string :=
  when (lines f >? 50)%Z
       ("*" ++ path f ++ "* (" ++ of_Z (lines f) ++ " lines):" ++ nl
        ++ match take 5 (filter is_meaningful (split_lines (content f))) with
           | [] => EmptyString
           | [l0] => "  Preview: " ++ trim l0 ++ nl
           | l0 :: l1 :: _ =>
               "  Preview: " ++ trim l0 ++ nl
               ++ "           " ++ trim l1 ++ nl
           end
        ++ nl).

Definition files_section (files : list FileContent) : string :=
  when (0 <? List.length files)%nat
       ("**📄 Detailed File Analysis:**" ++ nl
       ++ render_each file_detail files).

Definition structure_section (toLocaleString : Z -> string)
           (cs : CodeStructure) : string :=
  "**📊 Code Structure Overview:**" ++ nl
  ++ "- **Total Files:** " ++ of_nat (totalFiles cs) ++ nl
  ++ "- **Total Lines of Code:** " ++ toLocaleString (totalLines cs) ++ nl
  ++ "- **Total Size:** " ++ kilobytes (totalSize cs) ++ " KB" ++ nl
  ++ "- **Complexity Level:** " ++ complexity_name (complexity cs) ++ nl ++ nl
  ++ "**📁 Files by Type:**" ++ nl
  ++ render_each (fun kv : string * ExtensionStats =>
                    "- **" ++ fst kv ++ "**: " ++ of_Z (count (snd kv))
                    ++ " files, " ++ of_Z (ext_totalLines (snd kv))
                    ++ " lines" ++ nl)
                 (filesByExtension cs)
  ++ nl
  ++ when (0 <? List.length (largestFiles cs))%nat
          ("**📋 Largest Files:**" ++ nl
           ++ render_each (fun f => "- **" ++ lf_path f ++ "**: "
                                    ++ of_Z (lf_lines f) ++ " lines ("
                                    ++ kilobytes (lf_size f) ++ " KB)" ++ nl)
                          (largestFiles cs)
           ++ nl).

(** The number formatting of the host ([toLocaleString]) is a parameter.
    With [codeStructure] still the empty object, reading a method of its
    missing [totalLines] throws. *)
Definition processPhase3 (toLocaleString : Z -> string)
           (projectPath : string) (codeAnalysis : CodeAnalysisResult)
  : Outcome string :=
  match codeStructure codeAnalysis with
  | None =>
      Thrown "Cannot read properties of undefined (reading 'toLocaleString')"
  | Some cs =>
      Returned
        ("## Phase 3: In-Depth Code Analysis" ++ nl ++ nl
         ++ structure_section toLocaleString cs
         ++ dependencies_section (dependencies codeAnalysis)
         ++ entry_points_section (entryPoints codeAnalysis)
         ++ elements_section (functionsAndClasses codeAnalysis)
         ++ tags_section "**🏗️ Architectural Patterns:**"
                         "- No specific architectural patterns detected"
                         (architecture codeAnalysis)
         ++ tags_section "**🎨 Programming Patterns:**"
                         "- No specific programming patterns detected"
                         (patterns codeAnalysis)
         ++ files_section (fileContents codeAnalysis))
  end.

(** *** processPhase4 *)

Definition finding_line (a : CodebaseAnalysis) : string :=
  "- **" ++ capitalize (phase_name (phase a))
  ++ " Phase**: Completed successfully" ++ nl.

Definition recommendations : string :=
  nl ++ "**Recommendations for New Developers:**" ++ nl
  ++ "- Start by reviewing the key documentation files identified" ++ nl
  ++ "- Understand the project structure before diving into code" ++ nl
  ++ "- Focus on entry points to understand application flow" ++ nl
  ++ "- Pay attention to the architectural patterns in use" ++ nl.

Definition next_steps : string :=
  nl ++ "**Next Steps:**" ++ nl
  ++ "- Set up development environment according to project requirements" ++ nl
  ++ "- Run the application and explore its functionality" ++ nl
  ++ "- Identify areas for contribution or improvement" ++ nl.

Definition processPhase4 (projectPath : string)
           (analysisHistory : list CodebaseAnalysis) : string :=
  let recentAnalyses := take_last 3 analysisHistory in
  "## Phase 4: Synthesis and Reporting" ++ nl ++ nl
  ++ "**Project Summary:**" ++ nl
  ++ "- **Project**: " ++ basename_string projectPath ++ nl
  ++ "- **Analysis Phases Completed**: "
  ++ of_nat (List.length analysisHistory) ++ nl
  ++ nl ++ "**Key Findings:**" ++ nl
  ++ render_each finding_line recentAnalyses
  ++ recommendations
  ++ next_steps.

(** *** generateComprehensiveReport *)

(** [analysisHistory.find(a => a.phase === p)?.findings] *)
Definition findings_of (p : Phase) (analysisHistory : list CodebaseAnalysis)
  : option string :=
  match find (fun a => String.eqb (phase_name (phase a)) (phase_name p))
             analysisHistory with
  | Some a => Some (findings a)
  | None => None
  end.

(** [x?.findings.includes(sub)] as a condition: undefined counts as
    false. *)
Definition mentions (f : option string) (sub : string) : bool :=
  match f with
  | Some text => includes text sub
  | None => false
  end.

(** Lines 315 and 316. *)
Definition hasKeyDocs (conceptualAnalysis : option string) : bool :=
  mentions conceptualAnalysis "Key Documents Found:"
  && negb (mentions conceptualAnalysis "Key Documents Found: 0").

(** Lines 320 and 321. *)
Definition hasStructure (structuralAnalysis : option string) : bool :=
  mentions structuralAnalysis "src/"
  || mentions structuralAnalysis "Standard source code organization".

(** Line 325: the number of matches of the dash-space pattern. *)
Definition dependencyCount (codeAnalysis : option string) : nat :=
  match codeAnalysis with
  | Some text => List.length (match_all (lit "- ") text)
  | None => 0
  end.

(** Line 347: the text between the entry-point title and the next bold
    title, group 1. *)
Definition entry_points_re : re :=
  seq [lit "Entry Points:**"; lit nl; Group 1 (star_lazy anything);
       lit nl; lit "**"].

Definition has_entry_points (codeAnalysis : option string) : bool :=
  match codeAnalysis with
  | Some text =>
      match exec entry_points_re text with
      | Some h =>
          match group 1 h with
          | Some g =>
              negb (String.eqb g EmptyString)
              && negb (includes g "No clear entry points")
          | None => false
          end
      | None => false
      end
  | None => false
  end.

Definition documentation_quality (conceptualAnalysis : option string)
  : string :=
  "**Documentation Quality:** "
  ++ (if hasKeyDocs conceptualAnalysis then "Well Documented ✅" ++ nl
      else "Needs Improvement ⚠️" ++ nl).

(** [isoNow] is what [new Date().toISOString()] gives when the report is
    made. *)
Definition generateComprehensiveReport (isoNow : string)
           (projectPath allPhaseFindings : string)
           (analysisHistory : list CodebaseAnalysis) : string :=
  let conceptualAnalysis := findings_of conceptual analysisHistory in
  let structuralAnalysis := findings_of structural analysisHistory in
  let codeAnalysis := findings_of analysis analysisHistory in
  let hasTests := mentions codeAnalysis "Testing" in
  let hasAsync := mentions codeAnalysis "Async/Promises" in
  "# 📊 COMPREHENSIVE CODEBASE ANALYSIS REPORT" ++ nl ++ nl
  ++ "**Project:** " ++ basename_string projectPath ++ nl
  ++ "**Analysis Date:** " ++ hd EmptyString (split_on "T"%char isoNow) ++ nl
  ++ "**Total Phases Completed:** 4" ++ nl ++ nl
  ++ "---" ++ nl ++ nl
  ++ allPhaseFindings
  ++ "## 🎯 EXECUTIVE SUMMARY" ++ nl ++ nl
  ++ "**Project Type:** "
  ++ (if mentions structuralAnalysis "Node.js/JavaScript"
      then "Node.js/TypeScript Application" ++ nl
      else if mentions structuralAnalysis "Python"
      then "Python Application" ++ nl
      else if mentions structuralAnalysis "Java"
      then "Java Application" ++ nl
      else if mentions structuralAnalysis "Rust"
      then "Rust Application" ++ nl
      else "Multi-language or Unknown Type" ++ nl)
  ++ documentation_quality conceptualAnalysis
  ++ "**Code Organization:** "
  ++ (if hasStructure structuralAnalysis then "Well Organized ✅" ++ nl
      else "Could Be Improved ⚠️" ++ nl)
  ++ "**Complexity Level:** "
  ++ (if (15 <? dependencyCount codeAnalysis)%nat
      then "High (Many Dependencies) 🔴" ++ nl
      else if (5 <? dependencyCount codeAnalysis)%nat
      then "Medium (Moderate Dependencies) 🟡" ++ nl
      else "Low (Few Dependencies) 🟢" ++ nl)
  ++ nl ++ "## 🚀 DEVELOPER ONBOARDING GUIDE" ++ nl ++ nl
  ++ "### Quick Start Checklist:" ++ nl
  ++ "- [ ] Clone the repository" ++ nl
  ++ (if mentions structuralAnalysis "package.json"
      then "- [ ] Run `npm install` to install dependencies" ++ nl
           ++ "- [ ] Check `package.json` for available scripts" ++ nl
      else if mentions structuralAnalysis "requirements.txt"
      then "- [ ] Run `pip install -r requirements.txt`" ++ nl
      else if mentions structuralAnalysis "Cargo.toml"
      then "- [ ] Run `cargo build` to compile" ++ nl
      else EmptyString)
  ++ when (has_entry_points codeAnalysis)
          ("- [ ] Start by examining the main entry points identified" ++ nl)
  ++ "- [ ] Read the key documentation files" ++ nl
  ++ "- [ ] Understand the project structure" ++ nl
  ++ "- [ ] Set up your development environment" ++ nl
  ++ nl ++ "## 📈 PROJECT HEALTH INDICATORS" ++ nl ++ nl
  ++ when (hasKeyDocs conceptualAnalysis) ("✅ Good Documentation" ++ nl)
  ++ when (hasStructure structuralAnalysis) ("✅ Organized Structure" ++ nl)
  ++ when hasTests ("✅ Testing Framework" ++ nl)
  ++ when hasAsync ("✅ Modern Async Patterns" ++ nl)
  ++ when (negb (hasKeyDocs conceptualAnalysis))
          ("⚠️ Missing Key Documentation" ++ nl)
  ++ when (negb (hasStructure structuralAnalysis))
          ("⚠️ Unclear Project Organization" ++ nl)
  ++ when (negb hasTests) ("⚠️ No Testing Framework Detected" ++ nl)
  ++ nl ++ "## 🔍 DETAILED FINDINGS SUMMARY" ++ nl ++ nl
  ++ "This comprehensive analysis examined your codebase through four systematic phases:" ++ nl ++ nl
  ++ "1. **Conceptual Understanding** - Analyzed documentation and project goals" ++ nl
  ++ "2. **Structural Scaffolding** - Mapped project organization and file structure" ++ nl
  ++ "3. **In-Depth Code Analysis** - Examined dependencies, patterns, and entry points" ++ nl
  ++ "4. **Synthesis & Reporting** - Compiled insights and recommendations" ++ nl ++ nl
  ++ "**Total Analysis Time:** " ++ of_nat (List.length analysisHistory)
  ++ " phases completed" ++ nl
  ++ "**Recommendation:** This codebase is "
  ++ (if hasKeyDocs conceptualAnalysis && hasStructure structuralAnalysis
      then "ready for development"
      else "suitable for development with some improvements needed")
  ++ nl ++ nl
  ++ "---" ++ nl
  ++ "*Analysis generated by Codebase Navigator v0.1.0*" ++ nl.

End ReportGenerator.

(* ================================================================== *)
(** ** server.ts *)
(* ================================================================== *)

Module Server.
Import JsString Regex Types CodeAnalyzer FileSystem ReportGenerator.

(** What the server asks of its host: the filesystem, the working
    directory, the shell listing of [getProjectStructure], the number
    formatting, and the clock; [isoTime i] is the reading number [i] of
    one invocation. *)
Record Host : Type := {
  fs : Fs;
  cwd : Path;
  listing : string -> option string;
  toLocaleString : Z -> string;
  isoTime : nat -> string
}.

(** The state of a [CodebaseNavigatorServer] is its [analysisHistory];
    logging to the console is not modelled. *)
Definition History : Type := list CodebaseAnalysis.

Definition empty_analysis : CodeAnalysisResult :=
  {| dependencies := []; entryPoints := []; patterns := [];
     codeStructure := None; functionsAndClasses := [];
     fileContents := []; architecture := [] |}.

(** One round of the loop of [analyzeCodeFiles], lines 48 to 83, for a
    file that could be read. *)
Definition analyze_file (root filePath : Path) (content : string)
           (a : CodeAnalysisResult) : CodeAnalysisResult :=
  let relativePath := relative root filePath in
  let fileSize := Z.of_nat (String.length content) in
  let lineCount := Z.of_nat (List.length (split_lines content)) in
  {| fileContents :=
       (fileContents a
        ++ [{| path := relativePath; content := content; size := fileSize;
               lines := lineCount; extension := extname filePath |}])%list;
     dependencies :=
       (dependencies a ++ extractImports content (extname filePath))%list;
     entryPoints :=
       (entryPoints a
        ++ (if isEntryPoint content relativePath then [relativePath]
            else []))%list;
     patterns := (patterns a ++ detectPatterns content relativePath)%list;
     functionsAndClasses :=
       (functionsAndClasses a
        ++ extractCodeElements content relativePath)%list;
     architecture :=
       (architecture a ++ analyzeArchitecture content relativePath)%list;
     codeStructure := codeStructure a |}.

(** The loop; the flag is [false] when reading a file threw. *)
Fixpoint analyze_files (f : Fs) (root : Path) (codeFiles : list Path)
         (a : CodeAnalysisResult) : CodeAnalysisResult * bool :=
  match codeFiles with
  | [] => (a, true)
  | filePath :: more =>
      match readFileSync f filePath with
      | None => (a, false)
      | Some content =>
          analyze_files f root more (analyze_file root filePath content a)
      end
  end.

(** Lines 86 to 93: the structure map, which sorts [fileContents] in
    place, then the four lists without their duplicates. *)
Definition aggregate (a : CodeAnalysisResult) : CodeAnalysisResult :=
  let (structure, sorted) := buildCodeStructureMap (fileContents a) in
  {| codeStructure := Some structure;
     fileContents := sorted;
     dependencies := dedup (dependencies a);
     entryPoints := dedup (entryPoints a);
     patterns := dedup (patterns a);
     architecture := dedup (architecture a);
     functionsAndClasses := functionsAndClasses a |}.

(** When a read throws, the [catch] only logs: what had been collected
    is returned as it is. *)
Definition analyzeCodeFiles (h : Host) (projectPath : string)
  : CodeAnalysisResult :=
  let root := resolve (cwd h) projectPath in
  let codeFiles := findCodeFiles (fs h) root in
  let (a, completed) :=
    analyze_files (fs h) root codeFiles empty_analysis in
  if completed then aggregate a else a.

(** The object that is serialised into the text of the response. *)
Inductive Payload : Type :=
| PhaseResult (phase projectPath : string)
              (repositoryRoot providedPath : option string)
              (findings : string) (nextPhaseNeeded : bool)
              (analysisHistoryLength : nat) (suggestedNextPhase : string)
| Comprehensive (projectPath : string)
                (repositoryRoot providedPath : option string)
                (findings : string) (nextPhaseNeeded : bool)
                (analysisHistoryLength : nat) (completedPhases : list string)
| Failed (error : string) (status : string).

Record Response : Type := { content : Payload; isError : bool }.

Definition failure (message : string) : Response :=
  {| content := Failed message "failed"; isError := true |}.

Definition phaseOrder : list Phase :=
  [conceptual; structural; analysis; synthesis].

Definition parse_phase (s : string) : option Phase :=
  find (fun p => String.eqb (phase_name p) s) phaseOrder.

Definition getSuggestedNextPhase (currentPhase : Phase) : string :=
  match currentPhase with
  | conceptual => "structural"
  | structural => "analysis"
  | analysis => "synthesis"
  | synthesis => "complete"
  end.

(** The [switch] on the phase, the same in [runSinglePhase] and in the
    loop of [processCodebaseAnalysis]. *)
Definition phase_findings (h : Host) (history : History)
           (projectPath : string) (p : Phase) : Outcome string :=
  match p with
  | conceptual =>
      let keyDocs := findKeyDocs (fs h) (resolve (cwd h) projectPath) in
      Returned (processPhase1 (fs h) projectPath keyDocs)
  | structural =>
      let structure := getProjectStructure (listing h) projectPath in
      Returned (processPhase2 projectPath structure)
  | analysis =>
      processPhase3 (toLocaleString h) projectPath
                    (analyzeCodeFiles h projectPath)
  | synthesis => Returned (processPhase4 projectPath history)
  end.

(** An asynchronous method: the outcome is how its promise settles. *)
Definition runSinglePhase (h : Host) (history : History)
           (projectPath phase : string)
           (repositoryRoot providedPath : option string)
  : Outcome Response * History :=
  match parse_phase phase with
  | None => (Thrown ("Invalid phase: " ++ phase), history)
  | Some p =>
      match phase_findings h history projectPath p with
      | Thrown e => (Thrown e, history)
      | Returned findings =>
          let nextPhaseNeeded :=
            match p with synthesis => false | _ => true end in
          let entry :=
            {| Types.projectPath := projectPath; Types.phase := p;
               Types.findings := findings;
               Types.nextPhaseNeeded := nextPhaseNeeded;
               timestamp := isoTime h 0 |} in
          let history' := (history ++ [entry])%list in
          (Returned
             {| content :=
                  PhaseResult phase projectPath repositoryRoot providedPath
                              findings nextPhaseNeeded
                              (List.length history')
                              (getSuggestedNextPhase p);
                isError := false |},
           history')
      end
  end.

(** The loop over the four phases: the text gathered so far and the
    history; a thrown error leaves the loop. *)
Fixpoint run_phases (h : Host) (projectPath : string) (phases : list Phase)
         (tick : nat) (comprehensiveReport : string) (history : History)
  : Outcome string * History :=
  match phases with
  | [] => (Returned comprehensiveReport, history)
  | p :: more =>
      match phase_findings h history projectPath p with
      | Thrown e => (Thrown e, history)
      | Returned phaseFindings =>
          let entry :=
            {| Types.projectPath := projectPath; Types.phase := p;
               Types.findings := phaseFindings;
               Types.nextPhaseNeeded :=
                 match p with synthesis => false | _ => true end;
               timestamp := isoTime h tick |} in
          run_phases h projectPath more (S tick)
                     (comprehensiveReport ++ phaseFindings ++ nl ++ nl)
                     (history ++ [entry])%list
      end
  end.

(** The argument of the tool call: absent, or an object whose two
    properties may be absent. *)
Inductive Input : Type :=
| NoArguments
| Arguments (projectPath : option string) (phase : option string).

(** [x || fallback] for a string that may be absent. *)
Definition or_default (x : option string) (fallback : string) : string :=
  match x with
  | Some EmptyString | None => fallback
  | Some s => s
  end.

(** An error thrown inside the [try] block, or the rejection of a promise
    awaited there, reaches the [catch] clause and becomes a failure
    response.  The promise of [runSinglePhase] is returned without being
    awaited: the function has left the [try] block when that promise
    settles, so the promise of [processCodebaseAnalysis] settles the same
    way. *)
Definition processCodebaseAnalysis (h : Host) (history : History)
           (input : Input) : Outcome Response * History :=
  match input with
  | NoArguments =>
      (Returned
         (failure "Cannot read properties of undefined (reading 'projectPath')"),
       history)
  | Arguments path_arg phase_arg =>
      let providedPath := or_default path_arg EmptyString in
      let requestedPhase := or_default phase_arg "all" in
      if String.eqb providedPath EmptyString
         || negb (existsSync (fs h) (resolve (cwd h) providedPath))
      then (Returned (failure "Invalid or non-existent project path"), history)
      else
        let repositoryRoot := findRepositoryRoot (fs h) (cwd h) providedPath in
        let projectPath := repositoryRoot in
        let moved := negb (String.eqb repositoryRoot providedPath) in
        let shownRoot := if moved then Some repositoryRoot else None in
        let shownPath := if moved then Some providedPath else None in
        if negb (String.eqb requestedPhase "all") then
          runSinglePhase h history projectPath requestedPhase
                         shownRoot shownPath
        else
          match run_phases h projectPath phaseOrder 0 EmptyString history with
          | (Thrown e, history') => (Returned (failure e), history')
          | (Returned comprehensiveReport, history') =>
              let finalReport :=
                generateComprehensiveReport (isoTime h 4) projectPath
                                            comprehensiveReport history' in
              (Returned
                 {| content :=
                      Comprehensive projectPath shownRoot shownPath
                                    finalReport false
                                    (List.length history')
                                    (map phase_name phaseOrder);
                    isError := false |},
               history')
          end
  end.

End Server.

(* ================================================================== *)
(** ** Concrete hosts *)
(* ================================================================== *)

Module Fixtures.
Import JsString Types CodeAnalyzer FileSystem Server.

(** A filesystem given by a table of its entries. *)
Inductive Entry : Type :=
| RegularFile (content : string)
| Folder (items : list string).

Definition same_path (p q : Path) : bool :=
  if list_eq_dec string_dec p q then true else false.

Fixpoint lookup (table : list (Path * Entry)) (p : Path) : option Entry :=
  match table with
  | [] => None
  | (q, e) :: table' => if same_path p q then Some e else lookup table' p
  end.

Definition table_fs (table : list (Path * Entry)) : Fs :=
  {| existsSync := fun p => match lookup table p with
                            | Some _ => true
                            | None => false
                            end;
     readdirSync := fun p => match lookup table p with
                             | Some (Folder items) => Some items
                             | _ => None
                             end;
     statSync := fun p => match lookup table p with
                          | Some (RegularFile _) => Some IsFile
                          | Some (Folder _) => Some IsDirectory
                          | None => None
                          end;
     readFileSync := fun p => match lookup table p with
                              | Some (RegularFile content) => Some content
                              | _ => None
                              end |}.

Definition table_host (table : list (Path * Entry)) : Host :=
  {| fs := table_fs table;
     cwd := [];
     listing := fun _ => None;
     toLocaleString := of_Z;
     isoTime := fun _ => "2025-08-06T00:00:00.000Z" |}.

(** A record of [n] lines, its other fields of no account. *)
Definition file_of_lines (name : string) (n : Z) : FileContent :=
  {| path := name; Types.content := EmptyString; size := 0; lines := n;
     extension := ".js" |}.

Definition thousand_lines : list FileContent := [file_of_lines "a.js" 1000].

Definition small_then_large : list FileContent :=
  [file_of_lines "a.js" 1; file_of_lines "b.js" 2].

(** A project whose only source file declares the same function twice
    and requires the same module twice. *)
Definition twice : list (Path * Entry) :=
  [ ([], Folder ["proj"]);
    (["proj"], Folder ["package.json"; "lib.js"]);
    (["proj"; "package.json"], RegularFile "{}");
    (["proj"; "lib.js"],
     RegularFile ("function f() {}" ++ nl ++ "function f() {}" ++ nl
                  ++ "require('x'); require('x'); require('./y');")) ].

(** A filesystem whose only marker sits in the root directory. *)
Definition marker_at_root : list (Path * Entry) :=
  [ ([], Folder [".git"; "a"]);
    ([".git"], Folder []);
    (["a"], Folder []) ].

(** A repository with a nested source directory. *)
Definition repository : list (Path * Entry) :=
  [ ([], Folder ["proj"]);
    (["proj"], Folder [".git"; "src"]);
    (["proj"; ".git"], Folder []);
    (["proj"; "src"], Folder ["a"]);
    (["proj"; "src"; "a"], Folder []) ].

(** A project without any key document. *)
Definition undocumented : list (Path * Entry) :=
  [ ([], Folder ["proj"]);
    (["proj"], Folder ["package.json"; "notes.txt"]);
    (["proj"; "package.json"], RegularFile "{}");
    (["proj"; "notes.txt"], RegularFile "to do") ].

(** A project with a mixed-case readme next to a source directory. *)
Definition documented : list (Path * Entry) :=
  [ ([], Folder ["proj"]);
    (["proj"], Folder ["src"; "ReadMe.md"]);
    (["proj"; "src"], Folder []);
    (["proj"; "ReadMe.md"], RegularFile "# Title") ].

(** A project whose only document has an upper-case extension. *)
Definition upper_case_extension : list (Path * Entry) :=
  [ ([], Folder ["proj"]);
    (["proj"], Folder ["readme.MD"]);
    (["proj"; "readme.MD"], RegularFile "# Title") ].


End Fixtures.

(* ================================================================== *)
(** ** Vocabulary of the statements *)
(* ================================================================== *)

Module Spec.
Import JsString Types CodeAnalyzer FileSystem ReportGenerator Server.

(** A dependency that is not a relative import. *)
Definition not_relative (dep : string) : Prop := startsWith dep "." = false.

Definition readable (f : Fs) (p : Path) : bool :=
  match readFileSync f p with Some _ => true | None => false end.

(** The code elements of one file, as the loop of the analyzer gets
    them. *)
Definition elements_of (f : Fs) (root filePath : Path) : list CodeElement :=
  match readFileSync f filePath with
  | Some text => extractCodeElements text (relative root filePath)
  | None => []
  end.

(** No directory strictly below [dir] on the way down to [dir ++ rest]
    holds a repository marker. *)
Fixpoint none_marked (f : Fs) (dir : Path) (rest : list string) : bool :=
  match rest with
  | [] => true
  | x :: rest' =>
      negb (has_marker f (dir ++ [x])%list)
      && none_marked f (dir ++ [x])%list rest'
  end.

(** What the literal part of a pattern under the [i] flag takes from the
    head of [s]: the character before the rest, and the rest. *)
Fixpoint eat_i (name : string) (prev : option ascii) (s : string)
  : option (option ascii * string) :=
  match name with
  | EmptyString => Some (prev, s)
  | String c name' =>
      match s with
      | EmptyString => None
      | String x s' =>
          if Ascii.eqb (lower_char x) (lower_char c)
          then eat_i name' (Some x) s'
          else None
      end
  end.

(** The names of the eight anchored patterns and of the two patterns
    anchored at the end only. *)
Definition key_names : list string :=
  ["readme.md"; "architecture.md"; "planning.md"; "design.md"; "prd.md";
   "contributing.md"; "agents.md"; "tasks.md"].
Definition key_suffixes : list string :=
  ["copilot-instructions.md"; "claude.md"].

(** [p] is a key document at most [budget - 1] directories below
    [dir]. *)
Definition collected_below (budget : nat) (dir p : Path) : Prop :=
  exists rel item,
    p = (dir ++ rel ++ [item])%list
    /\ List.length rel < budget
    /\ is_key_doc item = true.

(** The findings carried by a response. *)
Definition findings_text (r : Outcome Response * History) : string :=
  match fst r with
  | Returned {| content := PhaseResult _ _ _ _ text _ _ _ |} => text
  | Returned {| content := Comprehensive _ _ _ text _ _ _ |} => text
  | _ => EmptyString
  end.

End Spec.

(* ================================================================== *)
(** ** index.ts: the tool dispatcher *)
(* ================================================================== *)

Module Dispatcher.
Import JsString Types FileSystem Server.

(** A tool call: the name of the tool and its arguments. *)
Record Request : Type := { tool : string; arguments : Input }.

(** What the handler answers: the response of the analysis, or the plain
    text it gives for a tool it does not know (with the error flag). *)
Inductive Reply : Type :=
| AnalysisReply (response : Response)
| UnknownTool (text : string).

(** The handler of the call-tool request, lines 81 to 93: the promise of
    the analysis is returned as it is. *)
Definition callTool (h : Host) (history : History) (request : Request)
  : Outcome Reply * History :=
  if String.eqb (tool request) "analyze_codebase" then
    match processCodebaseAnalysis h history (arguments request) with
    | (Returned response, history') =>
        (Returned (AnalysisReply response), history')
    | (Thrown e, history') => (Thrown e, history')
    end
  else (Returned (UnknownTool ("Unknown tool: " ++ tool request)), history).

(** The history after a sequence of calls to one server. *)
Fixpoint serve (h : Host) (history : History) (requests : list Request)
  : History :=
  match requests with
  | [] => history
  | request :: more => serve h (snd (callTool h history request)) more
  end.

End Dispatcher.

(* ================================================================== *)
(** ** Further vocabulary *)
(* ================================================================== *)

Module Vocabulary.
Import JsString Regex Types CodeAnalyzer FileSystem ReportGenerator Server.

(** What a literal pattern takes from the head of [s]. *)
Fixpoint eat (w : string) (prev : option ascii) (s : string)
  : option (option ascii * string) :=
  match w with
  | EmptyString => Some (prev, s)
  | String c w' =>
      match s with
      | EmptyString => None
      | String x s' => if Ascii.eqb c x then eat w' (Some x) s' else None
      end
  end.

(** Whether an optional value is there. *)
Definition is_some {A : Type} (o : option A) : bool :=
  match o with Some _ => true | None => false end.

(** Whether a pattern matches somewhere in [s], the character before
    [s] being [prev]. *)
Definition found (r : re) (prev : option ascii) (s : string) : bool :=
  is_some (search r prev s).

(** The key of a file record in [filesByExtension]. *)
Definition extension_key (f : FileContent) : string :=
  if String.eqb (extension f) EmptyString then "no-extension"
  else extension f.



(** The keys of a [filesByExtension] object, in insertion order. *)
Definition group_keys (m : list (string * ExtensionStats)) : list string :=
  map fst m.

(** One round of the grouping loop, for the record [f]. *)
Definition count_step (acc : list (string * ExtensionStats)) (f : FileContent)
  : list (string * ExtensionStats) :=
  count_file (extension_key f) (lines f) acc.




(** The order the sort leaves: no later record has more lines. *)
Definition no_shorter (a b : FileContent) : Prop := (lines b <= lines a)%Z.

(** Whether a record has [n] lines. *)
Definition with_lines (n : Z) (f : FileContent) : bool := (lines f =? n)%Z.

(** The element types that only TypeScript files give. *)
Definition is_declaration (t : ElementType) : bool :=
  match t with interface_ | type_ => true | _ => false end.

(** The number of occurrences of a character. *)
Fixpoint count_char (c : ascii) (s : string) : nat :=
  match s with
  | EmptyString => 0
  | String x s' => (if Ascii.eqb x c then 1 else 0) + count_char c s'
  end.

(** The number of places where a dash is followed by a space. *)
Fixpoint bullets (s : string) : nat :=
  match s with
  | EmptyString => 0
  | String c s' =>
      (if Ascii.eqb c "-"%char && next_is (Ascii.eqb " "%char) s'
       then 1 else 0)
      + bullets s'
  end.

(** A path segment as [path.resolve] leaves it: not empty, not a dot
    name, and without a separator. *)
Definition clean_segment (s : string) : bool :=
  negb (String.eqb s EmptyString || String.eqb s "." || String.eqb s "..")
  && Nat.eqb (count_char "/"%char s) 0.

(** [l1] is [l2] with some elements left out. *)
Inductive subsequence {A : Type} : list A -> list A -> Prop :=
| sub_nil : subsequence [] []
| sub_skip : forall x l1 l2, subsequence l1 l2 -> subsequence l1 (x :: l2)
| sub_keep : forall x l1 l2,
    subsequence l1 l2 -> subsequence (x :: l1) (x :: l2).

(** The tags of the two taggers, in the order of their tests. *)
Definition idiom_tags : list string :=
  (map snd content_idioms ++ [snd path_idiom])%list.
Definition architecture_tags : list string := map snd architecture_tests.

(** [p] is a file with an allowed extension, at most [budget - 1]
    directories below [dir], none of them a skipped one. *)
Definition found_below (f : Fs) (budget : nat) (dir p : Path) : Prop :=
  exists rel item,
    p = (dir ++ rel ++ [item])%list
    /\ List.length rel < budget
    /\ existsb (fun ext => endsWith item ext) extensions = true
    /\ statSync f p = Some IsFile
    /\ Forall (fun d => existsb (String.eqb d) skipped_code_dirs = false) rel.

(** The entries [before] of [dir] can all be examined. *)
Definition examined (f : Fs) (dir : Path) (before : list string) : Prop :=
  Forall (fun b => statSync f (dir ++ [b])%list <> None) before.

(** The loop of [walkDir] over a directory comes to [item]: the
    directory can be listed and every entry before [item] can be
    examined. *)
Definition comes_to (f : Fs) (dir : Path) (item : string) : Prop :=
  exists before after,
    readdirSync f dir = Some (before ++ item :: after)%list
    /\ examined f dir before.

(** What the loop of [walkDir] adds for the entry [item] of [dir], when
    [reached d p] is what a call for the directory [d] adds. *)
Definition walk_adds (f : Fs) (reached : Path -> Path -> Prop) (dir : Path)
           (item : string) (p : Path) : Prop :=
  (statSync f (dir ++ [item])%list = Some IsFile
   /\ existsb (fun ext => endsWith item ext) extensions = true
   /\ p = (dir ++ [item])%list)
  \/ (statSync f (dir ++ [item])%list = Some IsDirectory
      /\ existsb (String.eqb item) skipped_code_dirs = false
      /\ reached (dir ++ [item])%list p).

(** The walk of [findCodeFiles] from [dir] reaches the file [p], with
    [budget] levels left. *)
Inductive walk_reaches (f : Fs) : nat -> Path -> Path -> Prop :=
| reach_file : forall budget dir item,
    comes_to f dir item ->
    statSync f (dir ++ [item])%list = Some IsFile ->
    existsb (fun ext => endsWith item ext) extensions = true ->
    walk_reaches f (S budget) dir (dir ++ [item])%list
| reach_below : forall budget dir item p,
    comes_to f dir item ->
    statSync f (dir ++ [item])%list = Some IsDirectory ->
    existsb (String.eqb item) skipped_code_dirs = false ->
    walk_reaches f budget (dir ++ [item])%list p ->
    walk_reaches f (S budget) dir p.

(** The loop of [scanDir] gets past the entry [b] of [dir], when
    [clean d] says that a call for the directory [d] ends without an
    error. *)
Definition scan_passes (f : Fs) (clean : Path -> Prop) (dir : Path)
           (b : string) : Prop :=
  exists stat,
    statSync f (dir ++ [b])%list = Some stat
    /\ (isDirectory stat && negb (existsb (String.eqb b) skipped_doc_dirs)
        = true ->
        clean (dir ++ [b])%list).

(** What the loop of [scanDir] adds for the entry [item] of [dir]. *)
Definition scan_adds (f : Fs) (reached : Path -> Path -> Prop) (dir : Path)
           (item : string) (p : Path) : Prop :=
  (statSync f (dir ++ [item])%list = Some IsFile
   /\ is_key_doc item = true
   /\ p = (dir ++ [item])%list)
  \/ (statSync f (dir ++ [item])%list = Some IsDirectory
      /\ existsb (String.eqb item) skipped_doc_dirs = false
      /\ reached (dir ++ [item])%list p).

(** The scan of [findKeyDocs] goes through [dir] without an error, with
    [budget] levels left: the directory can be listed, every entry can
    be examined, and so for every directory that is entered. *)
Fixpoint scans_cleanly (f : Fs) (budget : nat) (dir : Path) : Prop :=
  match budget with
  | O => True
  | S budget' =>
      exists items,
        readdirSync f dir = Some items
        /\ Forall (scan_passes f (scans_cleanly f budget') dir) items
  end.

(** The loop of [scanDir] gets past the entry [b] of [dir]. *)
Definition passed (f : Fs) (budget : nat) (dir : Path) (b : string) : Prop :=
  scan_passes f (scans_cleanly f budget) dir b.

(** The scan of [findKeyDocs] from [dir] reaches the document [p]. *)
Inductive scan_reaches (f : Fs) : nat -> Path -> Path -> Prop :=
| reach_document : forall budget dir before item after,
    readdirSync f dir = Some (before ++ item :: after)%list ->
    Forall (passed f budget dir) before ->
    statSync f (dir ++ [item])%list = Some IsFile ->
    is_key_doc item = true ->
    scan_reaches f (S budget) dir (dir ++ [item])%list
| reach_deeper : forall budget dir before item after p,
    readdirSync f dir = Some (before ++ item :: after)%list ->
    Forall (passed f budget dir) before ->
    statSync f (dir ++ [item])%list = Some IsDirectory ->
    existsb (String.eqb item) skipped_doc_dirs = false ->
    scan_reaches f budget (dir ++ [item])%list p ->
    scan_reaches f (S budget) dir p.

(** [p] is a key document that is a regular file, at most [budget - 1]
    directories below [dir], none of them a skipped one. *)
Definition document_below (f : Fs) (budget : nat) (dir p : Path) : Prop :=
  exists rel item,
    p = (dir ++ rel ++ [item])%list
    /\ List.length rel < budget
    /\ is_key_doc item = true
    /\ statSync f p = Some IsFile
    /\ Forall (fun d => existsb (String.eqb d) skipped_doc_dirs = false) rel.

(** The record the analyzer makes of one file. *)
Definition record_of (f : Fs) (root filePath : Path) : list FileContent :=
  match readFileSync f filePath with
  | Some text =>
      [{| path := relative root filePath; Types.content := text;
          size := Z.of_nat (String.length text);
          lines := Z.of_nat (List.length (split_lines text));
          extension := extname filePath |}]
  | None => []
  end.

(** The dependencies of one file, as the loop of the analyzer gets
    them. *)
Definition imports_of (f : Fs) (filePath : Path) : list string :=
  match readFileSync f filePath with
  | Some text => extractImports text (extname filePath)
  | None => []
  end.

(** Whether an element belongs to the group of the type [t]. *)
Definition of_type (t : ElementType) (e : CodeElement) : bool :=
  String.eqb (type_name t) (type_name (type e)).

(** The group of a type in the grouping of the code elements. *)
Fixpoint members_of (t : ElementType)
         (groups : list (ElementType * list CodeElement))
  : list CodeElement :=
  match groups with
  | [] => []
  | (t', es) :: groups' =>
      if String.eqb (type_name t') (type_name t) then es
      else members_of t groups'
  end.

(** An extension as the list of [findCodeFiles] has them: a dot and a
    tail that is not empty and holds no dot. *)
Definition plain_extension (ext : string) : bool :=
  match ext with
  | String c tail =>
      Ascii.eqb c "."%char && negb (is_some (last_dot tail))
      && negb (String.eqb tail EmptyString)
  | EmptyString => false
  end.

(** The entry points, idiom tags and architecture tags of one file, as
    the loop of the analyzer gets them. *)
Definition entry_of (f : Fs) (root filePath : Path) : list string :=
  match readFileSync f filePath with
  | Some text =>
      if isEntryPoint text (relative root filePath)
      then [relative root filePath] else []
  | None => []
  end.

Definition idioms_of (f : Fs) (root filePath : Path) : list string :=
  match readFileSync f filePath with
  | Some text => detectPatterns text (relative root filePath)
  | None => []
  end.

Definition roles_of (f : Fs) (root filePath : Path) : list string :=
  match readFileSync f filePath with
  | Some text => analyzeArchitecture text (relative root filePath)
  | None => []
  end.

(** What one call does to the history, by the way its promise
    settles. *)
Definition grows_by (history : History) (r : Outcome Response * History)
           (added : list CodebaseAnalysis) : Prop :=
  snd r = (history ++ added)%list
  /\ match fst r with
     | Thrown _ => added = []
     | Returned response =>
         match content response with
         | PhaseResult phase _ _ _ text _ n _ =>
             isError response = false
             /\ n = S (List.length history)
             /\ exists entry,
                  added = [entry]
                  /\ phase_name (Types.phase entry) = phase
                  /\ Types.findings entry = text
         | Comprehensive _ _ _ _ _ n _ =>
             isError response = false
             /\ n = 4 + List.length history
             /\ map Types.phase added = phaseOrder
         | Failed _ _ =>
             isError response = true
             /\ (added = []
                 \/ map Types.phase added = [conceptual; structural])
         end
     end.

End Vocabulary.

(* ================================================================== *)
(** ** Further sample inputs *)
(* ================================================================== *)

Module MoreFixtures.
Import JsString Types FileSystem Server Fixtures.

(** The element of an exported interface. *)
Definition shape_interface : CodeElement :=
  {| type := interface_; name := "Shape"; file := "src/shape.ts";
     methods := None; lineEstimate := None; isAsync := None;
     isExported := Some true |}.



(** A project with a dangling link in a subdirectory: [gone] is listed
    but cannot be examined. *)
Definition broken_link : list (Path * Entry) :=
  [ ([], Folder ["proj"]);
    (["proj"], Folder ["sub"; "README.md"; "main.ts"]);
    (["proj"; "sub"], Folder ["AGENTS.md"; "gone"; "late.ts"]);
    (["proj"; "sub"; "AGENTS.md"], RegularFile "# Agents");
    (["proj"; "sub"; "late.ts"], RegularFile "export {}");
    (["proj"; "README.md"], RegularFile "# Title");
    (["proj"; "main.ts"], RegularFile "export {}") ].

(** The host of a table whose files are listed but cannot be read. *)
Definition unreadable (table : list (Path * Entry)) : Host :=
  {| fs := {| existsSync := existsSync (table_fs table);
              readdirSync := readdirSync (table_fs table);
              statSync := statSync (table_fs table);
              readFileSync := fun _ => None |};
     cwd := [];
     listing := fun _ => None;
     toLocaleString := of_Z;
     isoTime := fun _ => "2025-08-06T00:00:00.000Z" |}.

(** The host of a table for which the shell listing works. *)
Definition listed (table : list (Path * Entry)) (stdout : string) : Host :=
  {| fs := table_fs table;
     cwd := [];
     listing := fun _ => Some stdout;
     toLocaleString := of_Z;
     isoTime := fun _ => "2025-08-06T00:00:00.000Z" |}.

(** A history record of no account but its phase and findings. *)
Definition noted (p : Phase) (text : string) : CodebaseAnalysis :=
  {| Types.projectPath := "/proj"; Types.phase := p;
     Types.findings := text; Types.nextPhaseNeeded := true;
     timestamp := "2025-08-06T00:00:00.000Z" |}.

(** The records of an earlier run. *)
Definition first_run : History :=
  [noted conceptual "Key Documents Found: 2";
   noted structural "src/";
   noted analysis "Testing"].

End MoreFixtures.

(* ================================================================== *)
(** * Properties *)
(* ================================================================== *)

(** ** Strings *)

Module StringFacts.
Import JsString.

Lemma append_empty_r (s : string) : s ++ EmptyString = s.
Proof. induction s as [|c s IH]; simpl; [| rewrite IH]; reflexivity. Qed.

End StringFacts.

(** ** The structure aggregator *)

Module AggregatorFacts.
Import JsString Types CodeAnalyzer FileSystem Server Fixtures.

Lemma fold_left_sum_from (f : FileContent -> Z) (l : list FileContent) (a : Z) :
  fold_left (fun sum x => (sum + f x)%Z) l a
  = (a + fold_right Z.add 0%Z (map f l))%Z.
Proof.
  revert a; induction l as [|x l IH]; intros a; simpl.
  - lia.
  - rewrite IH. lia.
Qed.

Lemma totalLines_is_sum (files : list FileContent) :
  totalLines (fst (buildCodeStructureMap files))
  = fold_right Z.add 0%Z (map lines files).
Proof.
  unfold buildCodeStructureMap; simpl.
  rewrite fold_left_sum_from. lia.
Qed.

Lemma classify_low (n : Z) : classify n = Low <-> (n <= 1000)%Z.
Proof.
  unfold classify.
  destruct (Z.gtb_spec n 5000), (Z.gtb_spec n 1000);
    split; intros Hc; try discriminate; try lia; reflexivity.
Qed.

Lemma classify_medium (n : Z) :
  classify n = Medium <-> (1000 < n <= 5000)%Z.
Proof.
  unfold classify.
  destruct (Z.gtb_spec n 5000), (Z.gtb_spec n 1000);
    split; intros Hc; try discriminate; try lia; reflexivity.
Qed.

Lemma classify_high (n : Z) : classify n = High <-> (5000 < n)%Z.
Proof.
  unfold classify.
  destruct (Z.gtb_spec n 5000), (Z.gtb_spec n 1000);
    split; intros Hc; try discriminate; try lia; reflexivity.
Qed.

(** C1, as the code has it: the complexity tier is decided by the sum of
    the line counts; a total of at most 1000 is Low (so 999 and 1000 are
    both Low), a total from 1001 through 5000 is Medium, and a total
    above 5000 is High (so 5001 is High). *)
Theorem complexity_by_total_lines (files : list FileContent) :
  let summary := fst (buildCodeStructureMap files) in
  let total := fold_right Z.add 0%Z (map lines files) in
  totalLines summary = total
  /\ (complexity summary = Low <-> (total <= 1000)%Z)
  /\ (complexity summary = Medium <-> (1000 < total <= 5000)%Z)
  /\ (complexity summary = High <-> (5000 < total)%Z).
Proof.
  intros summary total.
  assert (Htotal : totalLines summary = total) by apply totalLines_is_sum.
  assert (Hc : complexity summary = classify total).
  { unfold summary, total. rewrite <- totalLines_is_sum. reflexivity. }
  rewrite Hc.
  split; [exact Htotal |].
  split; [apply classify_low |].
  split; [apply classify_medium | apply classify_high].
Qed.

(** C1 as stated fails at the boundary: a record set that totals exactly
    1000 lines is classified Low, not Medium. *)
Lemma thousand_lines_not_medium :
  fold_right Z.add 0%Z (map lines thousand_lines) = 1000%Z
  /\ complexity (fst (buildCodeStructureMap thousand_lines)) = Low
  /\ complexity (fst (buildCodeStructureMap thousand_lines)) <> Medium.
Proof.
  repeat split; vm_compute; discriminate.
Qed.

Lemma insert_by_lines_perm (x : FileContent) (l : list FileContent) :
  Permutation (x :: l) (insert_by_lines x l).
Proof.
  induction l as [|y l IH]; simpl.
  - apply Permutation_refl.
  - destruct (lines y - lines x <=? 0)%Z.
    + apply Permutation_refl.
    + eapply perm_trans; [apply perm_swap |].
      apply perm_skip, IH.
Qed.

Lemma sort_by_lines_perm (l : list FileContent) :
  Permutation l (sort_by_lines l).
Proof.
  induction l as [|x l IH]; simpl.
  - apply perm_nil.
  - eapply perm_trans; [apply perm_skip, IH | apply insert_by_lines_perm].
Qed.

(** C7, the code at the failing input: after the call the caller's list
    holds its records in another order, the larger file first; in general
    the list after the call is the sorted list, a permutation of the
    input.  The analyzer passes its own list of file records, which it
    then hands to the renderer in the sorted order instead of the order
    of the traversal. *)
Theorem sort_reorders_the_input :
  snd (buildCodeStructureMap small_then_large) = rev small_then_large
  /\ snd (buildCodeStructureMap small_then_large) <> small_then_large
  /\ (forall files,
        snd (buildCodeStructureMap files) = sort_by_lines files
        /\ Permutation files (snd (buildCodeStructureMap files)))
  /\ map (relative ["proj"]) (findCodeFiles (table_fs twice) ["proj"])
     = ["package.json"; "lib.js"]
  /\ map path (fileContents (analyzeCodeFiles (table_host twice) "/proj"))
     = ["lib.js"; "package.json"].
Proof.
  split; [reflexivity |].
  split; [vm_compute; discriminate |].
  split; [| split; vm_compute; reflexivity].
  intros files; split; [reflexivity |].
  apply sort_by_lines_perm.
Qed.

End AggregatorFacts.

(** ** Dependency extraction *)

Module ImportFacts.
Import JsString Regex Types CodeAnalyzer Fixtures Spec.

Lemma keep_import_not_relative (imp : option string) (s : string) :
  keep_import imp = Some s -> not_relative s /\ s <> EmptyString.
Proof.
  unfold keep_import, not_relative.
  destruct imp as [t|]; [| discriminate].
  destruct (String.eqb_spec t EmptyString); simpl; [discriminate |].
  destruct (startsWith t ".") eqn:E; simpl; [discriminate |].
  intros [= <-]. auto.
Qed.

Lemma filter_imports_not_relative (imports : list (option string)) :
  Forall not_relative (filter_imports imports).
Proof.
  induction imports as [|imp rest IH]; simpl.
  - constructor.
  - destruct (keep_import imp) eqn:E; [| exact IH].
    constructor; [| exact IH].
    apply (keep_import_not_relative imp), E.
Qed.

Lemma extractImports_not_relative (content extension : string) :
  Forall not_relative (extractImports content extension).
Proof. apply filter_imports_not_relative. Qed.





End ImportFacts.

(** ** The analyzer loop and its aggregation *)

Module AnalyzerFacts.
Import JsString Regex Types CodeAnalyzer FileSystem ReportGenerator Server.
Import Fixtures Spec.

Lemma dedup_from_spec (l seen : list string) :
  NoDup (dedup_from seen l)
  /\ forall x, In x (dedup_from seen l) -> In x l /\ ~ In x seen.
Proof.
  revert seen; induction l as [|a l IH]; intros seen; simpl.
  - split; [constructor | intros x []].
  - destruct (existsb (String.eqb a) seen) eqn:E.
    + destruct (IH seen) as [Hnd Hin]. split; [exact Hnd |].
      intros x Hx. destruct (Hin x Hx). auto.
    + destruct (IH (a :: seen)) as [Hnd Hin]. split.
      * constructor; [| exact Hnd].
        intros Ha. destruct (Hin a Ha) as [_ Hns]. apply Hns. left; reflexivity.
      * intros x [<- | Hx].
        -- split; [left; reflexivity |].
           intros Hs.
           assert (existsb (String.eqb a) seen = true) as Ht.
           { apply existsb_exists. exists a. split; [exact Hs |].
             apply String.eqb_refl. }
           congruence.
        -- destruct (Hin x Hx) as [Hl Hs]. split; [right; exact Hl |].
           intros Hs'. apply Hs. right; exact Hs'.
Qed.

Lemma dedup_NoDup (l : list string) : NoDup (dedup l).
Proof. apply dedup_from_spec. Qed.

Lemma dedup_incl (l : list string) (x : string) : In x (dedup l) -> In x l.
Proof. intros H. apply (dedup_from_spec l []) in H. apply H. Qed.

Lemma dedup_Forall (P : string -> Prop) (l : list string) :
  Forall P l -> Forall P (dedup l).
Proof.
  rewrite !Forall_forall. intros H x Hx. apply H, dedup_incl, Hx.
Qed.

Lemma analyze_files_cons (f : Fs) (root p : Path) (more : list Path)
      (a : CodeAnalysisResult) :
  analyze_files f root (p :: more) a
  = match readFileSync f p with
    | None => (a, false)
    | Some text => analyze_files f root more (analyze_file root p text a)
    end.
Proof. reflexivity. Qed.

Lemma analyze_file_dependencies (root p : Path) (text : string)
      (a : CodeAnalysisResult) :
  dependencies (analyze_file root p text a)
  = (dependencies a ++ extractImports text (extname p))%list.
Proof. reflexivity. Qed.

Lemma analyze_file_elements (root p : Path) (text : string)
      (a : CodeAnalysisResult) :
  functionsAndClasses (analyze_file root p text a)
  = (functionsAndClasses a ++ extractCodeElements text (relative root p))%list.
Proof. reflexivity. Qed.

Lemma flat_map_step {A B} (g : A -> list B) (x : A) (l : list A) :
  flat_map g (x :: l) = (g x ++ flat_map g l)%list.
Proof. reflexivity. Qed.

Lemma forallb_step {A} (g : A -> bool) (x : A) (l : list A) :
  forallb g (x :: l) = true -> g x = true /\ forallb g l = true.
Proof. intros H. apply andb_true_iff. exact H. Qed.

Lemma analyze_files_dependencies (f : Fs) (root : Path)
      (codeFiles : list Path) (a : CodeAnalysisResult) :
  Forall not_relative (dependencies a) ->
  Forall not_relative (dependencies (fst (analyze_files f root codeFiles a))).
Proof.
  revert a; induction codeFiles as [|p more IH]; intros a Ha.
  - exact Ha.
  - rewrite analyze_files_cons.
    destruct (readFileSync f p) as [text|]; [| exact Ha].
    apply IH. rewrite analyze_file_dependencies.
    apply Forall_app. split; [exact Ha |].
    apply ImportFacts.extractImports_not_relative.
Qed.

Lemma analyze_files_completes (f : Fs) (root : Path)
      (codeFiles : list Path) (a : CodeAnalysisResult) :
  forallb (readable f) codeFiles = true ->
  snd (analyze_files f root codeFiles a) = true.
Proof.
  revert a; induction codeFiles as [|p more IH]; intros a H.
  - reflexivity.
  - rewrite analyze_files_cons.
    apply forallb_step in H. destruct H as [Hp Hmore].
    unfold readable in Hp.
    destruct (readFileSync f p); [| discriminate].
    apply IH, Hmore.
Qed.

Lemma analyze_files_elements (f : Fs) (root : Path)
      (codeFiles : list Path) (a : CodeAnalysisResult) :
  forallb (readable f) codeFiles = true ->
  functionsAndClasses (fst (analyze_files f root codeFiles a))
  = (functionsAndClasses a ++ flat_map (elements_of f root) codeFiles)%list.
Proof.
  revert a; induction codeFiles as [|p more IH]; intros a H.
  - cbn [analyze_files flat_map fst]. rewrite app_nil_r. reflexivity.
  - rewrite analyze_files_cons, flat_map_step.
    apply forallb_step in H. destruct H as [Hp Hmore].
    unfold readable in Hp. unfold elements_of at 1.
    destruct (readFileSync f p) as [text|]; [| discriminate].
    rewrite IH by exact Hmore.
    rewrite analyze_file_elements, <- app_assoc. reflexivity.
Qed.

Lemma analyzeCodeFiles_unfold (h : Host) (projectPath : string) :
  let root := resolve (cwd h) projectPath in
  let run := analyze_files (fs h) root (findCodeFiles (fs h) root)
                           empty_analysis in
  analyzeCodeFiles h projectPath
  = if snd run then aggregate (fst run) else fst run.
Proof.
  intros root run. unfold analyzeCodeFiles. fold root. fold run.
  destruct run as [a completed]. reflexivity.
Qed.

Lemma analyze_file_structure (root p : Path) (text : string)
      (a : CodeAnalysisResult) :
  codeStructure (analyze_file root p text a) = codeStructure a.
Proof. reflexivity. Qed.

Lemma analyze_files_structure (f : Fs) (root : Path)
      (codeFiles : list Path) (a : CodeAnalysisResult) :
  codeStructure (fst (analyze_files f root codeFiles a)) = codeStructure a.
Proof.
  revert a; induction codeFiles as [|p more IH]; intros a.
  - reflexivity.
  - rewrite analyze_files_cons.
    destruct (readFileSync f p) as [text|]; [| reflexivity].
    rewrite IH. apply analyze_file_structure.
Qed.

Lemma analyze_files_all_read (f : Fs) (root : Path)
      (codeFiles : list Path) (a : CodeAnalysisResult) :
  snd (analyze_files f root codeFiles a) = true ->
  forallb (readable f) codeFiles = true.
Proof.
  revert a; induction codeFiles as [|p more IH]; intros a H.
  - reflexivity.
  - rewrite analyze_files_cons in H. cbn [forallb]. unfold readable at 1.
    destruct (readFileSync f p) as [text|]; [| discriminate].
    apply (IH _ H).
Qed.

(** The structure map is filled in exactly when every listed file was
    read, which is when the aggregation step runs. *)
Lemma aggregation_ran (h : Host) (projectPath : string)
      (structure : CodeStructure) :
  codeStructure (analyzeCodeFiles h projectPath) = Some structure ->
  forallb (readable (fs h))
          (findCodeFiles (fs h) (resolve (cwd h) projectPath)) = true.
Proof.
  rewrite analyzeCodeFiles_unfold.
  set (root := resolve (cwd h) projectPath).
  destruct (snd (analyze_files (fs h) root (findCodeFiles (fs h) root)
                               empty_analysis)) eqn:E.
  - intros _. apply (analyze_files_all_read _ _ _ _ E).
  - rewrite analyze_files_structure. discriminate.
Qed.

(** C6: once the aggregation step has run (the structure map of the
    result is filled in), the dependency, entry-point, pattern and
    architecture lists of the result have no duplicates, while the code
    elements are the plain concatenation of what each file gave, in file
    order; a file that declares the same function twice gives both
    elements. *)
Theorem aggregation_dedups_tags_not_elements (h : Host)
        (projectPath : string) (structure : CodeStructure) :
  let root := resolve (cwd h) projectPath in
  let result := analyzeCodeFiles h projectPath in
  codeStructure result = Some structure ->
  NoDup (dependencies result)
  /\ NoDup (entryPoints result)
  /\ NoDup (patterns result)
  /\ NoDup (architecture result)
  /\ functionsAndClasses result
     = flat_map (elements_of (fs h) root) (findCodeFiles (fs h) root)
  /\ (exists e,
        functionsAndClasses (analyzeCodeFiles (table_host twice) "/proj")
        = [e; e]).
Proof.
  intros root result Hran.
  pose proof (aggregation_ran h projectPath structure Hran) as Hread.
  fold root in Hread. clear Hran.
  unfold result. rewrite analyzeCodeFiles_unfold. fold root.
  rewrite (analyze_files_completes _ _ _ _ Hread).
  unfold aggregate.
  destruct (buildCodeStructureMap _) as [built sorted].
  cbn [dependencies entryPoints patterns architecture functionsAndClasses].
  split; [apply dedup_NoDup |].
  split; [apply dedup_NoDup |].
  split; [apply dedup_NoDup |].
  split; [apply dedup_NoDup |].
  split; [rewrite (analyze_files_elements _ _ _ _ Hread); reflexivity |].
  exists {| type := function_; name := "f"; file := "lib.js";
            methods := None; lineEstimate := None;
            isAsync := Some false; isExported := Some false |}.
  vm_compute. reflexivity.
Qed.

Lemma aggregation_dedups_tags_not_elements_witness :
  (exists structure,
     codeStructure (analyzeCodeFiles (table_host twice) "/proj")
     = Some structure)
  /\ NoDup (dependencies (analyzeCodeFiles (table_host twice) "/proj"))
  /\ dependencies (analyzeCodeFiles (table_host twice) "/proj") = ["x"].
Proof.
  split; [eexists; vm_compute; reflexivity |].
  split; [| vm_compute; reflexivity].
  eapply (aggregation_dedups_tags_not_elements (table_host twice) "/proj").
  vm_compute. reflexivity.
Defined.

Lemma analyzeCodeFiles_not_relative (h : Host) (projectPath : string) :
  Forall not_relative (dependencies (analyzeCodeFiles h projectPath)).
Proof.
  rewrite analyzeCodeFiles_unfold.
  set (root := resolve (cwd h) projectPath).
  pose proof (analyze_files_dependencies (fs h) root
                (findCodeFiles (fs h) root) empty_analysis
                (Forall_nil _)) as H.
  destruct (snd (analyze_files (fs h) root (findCodeFiles (fs h) root)
                               empty_analysis)).
  - unfold aggregate. destruct (buildCodeStructureMap _).
    cbn [dependencies]. apply dedup_Forall, H.
  - exact H.
Qed.

Lemma no_internal_deps (deps : list string) :
  Forall not_relative deps ->
  internalDeps_of deps = [] /\ externalDeps_of deps = deps.
Proof.
  unfold internalDeps_of, externalDeps_of, not_relative.
  induction 1 as [|d deps Hd _ [IHi IHe]]; cbn [filter]; [auto |].
  rewrite Hd. cbn [negb]. rewrite IHi, IHe. auto.
Qed.

(** C10: whatever the run, no dependency handed to the renderer of the
    analysis phase starts with a dot, so the list of internal imports is
    empty, its subsection renders as nothing, and the dependency section
    is its title followed by the external dependencies alone. *)
Theorem internal_imports_never_rendered (h : Host) (projectPath : string) :
  let deps := dependencies (analyzeCodeFiles h projectPath) in
  Forall (fun dep => startsWith dep "." = false) deps
  /\ internalDeps_of deps = []
  /\ internal_section (internalDeps_of deps) = EmptyString
  /\ dependencies_section deps
     = "**🔗 Dependencies & Imports:**" ++ nl
       ++ (if (0 <? List.length deps)%nat then external_section deps
           else "- No external dependencies detected" ++ nl)
       ++ nl
  /\ (forall history,
        phase_findings h history projectPath analysis
        = processPhase3 (toLocaleString h) projectPath
                        (analyzeCodeFiles h projectPath)).
Proof.
  intros deps.
  pose proof (analyzeCodeFiles_not_relative h projectPath) as H.
  fold deps in H.
  destruct (no_internal_deps deps H) as [Hi He].
  split; [exact H |].
  split; [exact Hi |].
  split; [rewrite Hi; reflexivity |].
  split; [| intros history; reflexivity].
  unfold dependencies_section. rewrite Hi, He.
  destruct (0 <? List.length deps)%nat; [| reflexivity].
  change (internal_section []) with EmptyString.
  rewrite StringFacts.append_empty_r. reflexivity.
Qed.

End AnalyzerFacts.

(** ** Repository-root resolution *)

Module RootFacts.
Import JsString Types FileSystem Fixtures Spec.
Local Open Scope list_scope.

Lemma none_marked_app (f : Fs) (dir : Path) (r1 r2 : list string) :
  none_marked f dir (r1 ++ r2)
  = none_marked f dir r1 && none_marked f (dir ++ r1) r2.
Proof.
  revert dir; induction r1 as [|x r1 IH]; intros dir; simpl.
  - rewrite app_nil_r. reflexivity.
  - rewrite IH, <- app_assoc, andb_assoc. reflexivity.
Qed.

Lemma ascend_snoc (f : Fs) (dir : Path) (x : string) :
  ascend f (rev (dir ++ [x]))
  = if has_marker f (dir ++ [x]) then Some (dir ++ [x])
    else ascend f (rev dir).
Proof.
  rewrite rev_unit. cbn [ascend].
  replace (rev (x :: rev dir)) with (dir ++ [x]); [reflexivity |].
  cbn [rev]. rewrite rev_involutive. reflexivity.
Qed.

(** Going up from [dir ++ rest] passes every unmarked directory. *)
Lemma ascend_passes_unmarked (f : Fs) (dir : Path) (rest : list string) :
  none_marked f dir rest = true ->
  ascend f (rev (dir ++ rest)) = ascend f (rev dir).
Proof.
  induction rest as [|x rest IH] using rev_ind; intros H.
  - rewrite app_nil_r. reflexivity.
  - rewrite none_marked_app in H. apply andb_true_iff in H.
    destruct H as [Hrest Hx]. cbn [none_marked] in Hx.
    rewrite andb_true_r in Hx. apply negb_true_iff in Hx.
    rewrite app_assoc, ascend_snoc, Hx.
    apply IH, Hrest.
Qed.

Lemma ascend_stops_at_marked (f : Fs) (dir : Path) :
  dir <> [] -> has_marker f dir = true -> ascend f (rev dir) = Some dir.
Proof.
  intros Hne Hm.
  destruct dir as [|y dir] using rev_ind; [congruence |].
  rewrite ascend_snoc, Hm. reflexivity.
Qed.

(** C2, as the code has it: the walk returns the nearest directory, from
    the resolved start path upwards and short of the filesystem root, that
    holds any of the markers, whatever markers the directories above it
    hold; when no directory from the start up to, but not including, the
    filesystem root holds a marker, the input comes back unchanged.  The
    function is total. *)
Theorem findRepositoryRoot_nearest_marked (f : Fs) (cwd : Path)
        (startPath : string) (dir : Path) (rest : list string) :
  resolve cwd startPath = (dir ++ rest) ->
  none_marked f dir rest = true ->
  (dir <> [] -> has_marker f dir = true ->
   findRepositoryRoot f cwd startPath = path_string dir)
  /\ (dir = [] -> findRepositoryRoot f cwd startPath = startPath)
  /\ (forall marker, In marker repositoryMarkers ->
      existsSync f (dir ++ [marker]) = true -> has_marker f dir = true).
Proof.
  intros Hstart Hbelow.
  unfold findRepositoryRoot. rewrite Hstart.
  rewrite (ascend_passes_unmarked f dir rest Hbelow).
  split; [| split].
  - intros Hne Hm. rewrite (ascend_stops_at_marked f dir Hne Hm). reflexivity.
  - intros ->. reflexivity.
  - intros marker Hin He. unfold has_marker.
    apply existsb_exists. exists marker. split; assumption.
Qed.

Lemma findRepositoryRoot_nearest_marked_witness :
  resolve [] "/proj/src/a" = (["proj"] ++ ["src"; "a"])
  /\ none_marked (table_fs repository) ["proj"] ["src"; "a"] = true
  /\ has_marker (table_fs repository) ["proj"] = true
  /\ findRepositoryRoot (table_fs repository) [] "/proj/src/a" = "/proj".
Proof.
  split; [reflexivity |].
  split; [reflexivity |].
  split; [reflexivity |].
  apply (findRepositoryRoot_nearest_marked
           (table_fs repository) [] "/proj/src/a" ["proj"] ["src"; "a"]);
    [reflexivity | reflexivity | discriminate | reflexivity].
Defined.

(** C2 as stated fails for a marker in the filesystem root: the root
    holds .git, the start directory /a lies below it and holds no marker,
    and the input comes back instead of the root. *)
Lemma marker_in_filesystem_root_is_missed :
  existsSync (table_fs marker_at_root) ([] ++ [".git"]) = true
  /\ resolve [] "/a" = ([] ++ ["a"])
  /\ none_marked (table_fs marker_at_root) [] ["a"] = true
  /\ findRepositoryRoot (table_fs marker_at_root) [] "/a" = "/a"
  /\ findRepositoryRoot (table_fs marker_at_root) [] "/a" <> path_string [].
Proof.
  repeat split; try reflexivity. vm_compute. discriminate.
Qed.

End RootFacts.

(** ** The matcher on the patterns of the document locator *)

Module RegexFacts.
Import JsString Regex Types FileSystem Spec.

Lemma run_lit_i {A : Type} (name : string) :
  forall prev s cs (k : option ascii -> string -> captures -> option A),
    run (lit_i name) prev s cs k
    = match eat_i name prev s with
      | Some (p, rest) => k p rest cs
      | None => None
      end.
Proof.
  induction name as [|c name IH]; intros prev s cs k.
  - reflexivity.
  - destruct name as [|d name].
    + cbn [lit_i chr_i run eat_i].
      destruct s as [|x s]; [reflexivity |].
      destruct (Ascii.eqb (lower_char x) (lower_char c)); reflexivity.
    + change (lit_i (String c (String d name)))
        with (Seq (chr_i c) (lit_i (String d name))).
      cbn [run chr_i]. cbn [eat_i].
      destruct s as [|x s]; [reflexivity |].
      destruct (Ascii.eqb (lower_char x) (lower_char c)); [| reflexivity].
      rewrite IH. reflexivity.
Qed.

Lemma eat_i_all (name : string) :
  forall prev s,
    (exists p, eat_i name prev s = Some (p, EmptyString)) <->
    toLowerCase s = toLowerCase name.
Proof.
  induction name as [|c name IH]; intros prev s; cbn [eat_i].
  - split.
    + intros [p [= _ ->]]. reflexivity.
    + destruct s; [intros _; eexists; reflexivity | discriminate].
  - destruct s as [|x s].
    + split; [intros [p Hp]; discriminate | discriminate].
    + unfold toLowerCase. cbn [map_chars].
      destruct (Ascii.eqb_spec (lower_char x) (lower_char c)) as [E | E].
      * rewrite IH. unfold toLowerCase. rewrite E.
        split; [intros ->; reflexivity | intros [= H]; exact H].
      * split; [intros [p Hp]; discriminate | intros [= H _]; contradiction].
Qed.

Lemma match_here_ending_i (name : string) (prev : option ascii) (s : string) :
  (exists h, match_here (ending_i name) prev s = Some h) <->
  toLowerCase s = toLowerCase name.
Proof.
  unfold match_here, ending_i. cbn [seq run andb]. rewrite run_lit_i.
  rewrite <- (eat_i_all name prev s).
  destruct (eat_i name prev s) as [[p rest]|].
  - destruct rest.
    + split; intros _; eexists; reflexivity.
    + split; [intros [h Hh]; discriminate | intros [q [=]]].
  - split; [intros [h Hh]; discriminate | intros [q Hq]; discriminate].
Qed.

Lemma search_bol_inside (r : re) (s : string) (c : ascii) :
  search (Seq (Bol false) r) (Some c) s = None.
Proof.
  revert c; induction s as [|x s IH]; intros c; cbn [search].
  - reflexivity.
  - unfold match_here at 1. cbn [run andb]. apply IH.
Qed.

(** An anchored pattern under the [i] flag accepts exactly the names
    that differ from its name in the case of letters only. *)
Lemma test_exactly_i (name s : string) :
  test (exactly_i name) s = true <-> toLowerCase s = toLowerCase name.
Proof.
  unfold test, exec, exactly_i. cbn [seq].
  rewrite <- (match_here_ending_i name None s).
  unfold ending_i. cbn [seq].
  assert (Hhere : match_here (Seq (Bol false) (Seq (lit_i name) (Eol false)))
                             None s
                  = match_here (Seq (lit_i name) (Eol false)) None s)
    by reflexivity.
  destruct s as [|x s]; cbn [search]; rewrite Hhere;
    destruct (match_here (Seq (lit_i name) (Eol false)) None _) as [h|].
  - split; [intros _; exists h; reflexivity | reflexivity].
  - split; [discriminate | intros [h Hh]; discriminate].
  - split; [intros _; exists h; reflexivity | reflexivity].
  - rewrite search_bol_inside.
    split; [discriminate | intros [h Hh]; discriminate].
Qed.

(** A pattern anchored at the end only accepts the names with a suffix
    that differs from its name in the case of letters only. *)
Lemma search_ending_i (name : string) :
  forall s prev,
    (exists h, search (ending_i name) prev s = Some h) <->
    (exists pre suf, s = pre ++ suf /\ toLowerCase suf = toLowerCase name).
Proof.
  induction s as [|x s IH]; intros prev; cbn [search].
  - pose proof (match_here_ending_i name prev EmptyString) as Hm.
    destruct (match_here (ending_i name) prev EmptyString) as [h|].
    + split; [| intros _; exists h; reflexivity].
      intros _. exists EmptyString, EmptyString. split; [reflexivity |].
      apply Hm. exists h. reflexivity.
    + split; [intros [h Hh]; discriminate |].
      intros (pre & suf & Hs & Hl).
      destruct pre; [| discriminate]. cbn [append] in Hs. subst suf.
      apply Hm in Hl. exact Hl.
  - pose proof (match_here_ending_i name prev (String x s)) as Hm.
    destruct (match_here (ending_i name) prev (String x s)) as [h|].
    + split; [| intros _; exists h; reflexivity].
      intros _. exists EmptyString, (String x s). split; [reflexivity |].
      apply Hm. exists h. reflexivity.
    + rewrite IH. split.
      * intros (pre & suf & -> & Hl). exists (String x pre), suf.
        split; [reflexivity | exact Hl].
      * intros (pre & suf & Hs & Hl). destruct pre as [|y pre].
        -- cbn [append] in Hs. subst suf. apply Hm in Hl.
           destruct Hl as [h Hh]. discriminate.
        -- cbn [append] in Hs. injection Hs as _ ->.
           exists pre, suf. split; [reflexivity | exact Hl].
Qed.

Lemma test_ending_i (name s : string) :
  test (ending_i name) s = true <->
  (exists pre suf, s = pre ++ suf /\ toLowerCase suf = toLowerCase name).
Proof.
  rewrite <- (search_ending_i name s None). unfold test, exec.
  destruct (search (ending_i name) None s) as [h|].
  - split; [intros _; exists h; reflexivity | reflexivity].
  - split; [discriminate | intros [h Hh]; discriminate].
Qed.

Lemma keyPatterns_by_name :
  keyPatterns = (map exactly_i key_names ++ map ending_i key_suffixes)%list.
Proof. reflexivity. Qed.

(** The names the locator accepts: the extension is compared as it is,
    the rest of the name without regard to the case of letters. *)
Lemma is_key_doc_spec (item : string) :
  is_key_doc item = true <->
  endsWith item ".md" = true
  /\ (In (toLowerCase item) key_names
      \/ exists pre suf,
           item = pre ++ suf /\ In (toLowerCase suf) key_suffixes).
Proof.
  assert (Hlow : forall n, In n key_names \/ In n key_suffixes ->
                           toLowerCase n = n).
  { intros n [H | H]; cbn [key_names key_suffixes In] in H;
      repeat (destruct H as [<- | H]; [reflexivity |]); destruct H. }
  unfold is_key_doc. rewrite andb_true_iff, existsb_exists, keyPatterns_by_name.
  apply and_iff_compat_l. split.
  - intros (pattern & Hin & Htest).
    apply in_app_or in Hin. destruct Hin as [Hin | Hin];
      apply in_map_iff in Hin; destruct Hin as (n & <- & Hn).
    + left. apply test_exactly_i in Htest.
      rewrite Htest, (Hlow n (or_introl Hn)). exact Hn.
    + right. apply test_ending_i in Htest.
      destruct Htest as (pre & suf & Hs & Hl).
      exists pre, suf. split; [exact Hs |].
      rewrite Hl, (Hlow n (or_intror Hn)). exact Hn.
  - intros [Hn | (pre & suf & Hs & Hn)].
    + exists (exactly_i (toLowerCase item)). split.
      * apply in_or_app. left. apply in_map, Hn.
      * apply test_exactly_i. symmetry. apply Hlow. left. exact Hn.
    + exists (ending_i (toLowerCase suf)). split.
      * apply in_or_app. right. apply in_map, Hn.
      * apply test_ending_i. exists pre, suf. split; [exact Hs |].
        symmetry. apply Hlow. right. exact Hn.
Qed.

End RegexFacts.

(** ** The document locator *)

Module KeyDocFacts.
Import JsString Regex Types FileSystem Fixtures Spec.
Local Open Scope list_scope.

Lemma scan_items_cons (scanSub : Path -> list Path -> list Path * bool)
      (f : Fs) (dir : Path) (item : string) (more : list string)
      (keyDocs : list Path) :
  scan_items scanSub f dir (item :: more) keyDocs
  = match statSync f (dir ++ [item]) with
    | None => (keyDocs, false)
    | Some stat =>
        if isDirectory stat
           && negb (existsb (String.eqb item) skipped_doc_dirs)
        then
          let (keyDocs', returned) := scanSub (dir ++ [item]) keyDocs in
          if returned then scan_items scanSub f dir more keyDocs'
          else (keyDocs', false)
        else if is_key_doc item && isFile stat
        then scan_items scanSub f dir more (keyDocs ++ [dir ++ [item]])
        else scan_items scanSub f dir more keyDocs
    end.
Proof.
  cbn [scan_items]. unfold is_key_doc.
  destruct (statSync f (dir ++ [item])) as [stat|]; [| reflexivity].
  destruct (isDirectory stat && _); [reflexivity |].
  destruct (isFile stat), (endsWith item ".md"),
    (existsb (fun pattern => test pattern item) keyPatterns); reflexivity.
Qed.

Lemma collected_below_here (n : nat) (dir : Path) (item : string) :
  is_key_doc item = true -> collected_below (S n) dir (dir ++ [item]).
Proof.
  intros H. exists [], item. repeat split; [| exact H].
  cbn [List.length]. lia.
Qed.

Lemma collected_below_deeper (n : nat) (dir p : Path) (item : string) :
  collected_below n (dir ++ [item]) p -> collected_below (S n) dir p.
Proof.
  intros (rel & x & -> & Hlen & Hkey).
  exists (item :: rel), x. repeat split; [| | exact Hkey].
  - rewrite <- !app_assoc. reflexivity.
  - cbn [List.length]. lia.
Qed.

Section Loop.
Variable f : Fs.
Variable scanSub : Path -> list Path -> list Path * bool.
Variable n : nat.

Hypothesis scanSub_sound :
  forall d acc p, In p (fst (scanSub d acc)) ->
                  In p acc \/ collected_below n d p.
Hypothesis scanSub_keeps :
  forall d acc p, In p acc -> In p (fst (scanSub d acc)).

Lemma scan_items_sound (dir : Path) (items : list string) :
  forall acc p,
    In p (fst (scan_items scanSub f dir items acc)) ->
    In p acc \/ collected_below (S n) dir p.
Proof.
  induction items as [|item more IH]; intros acc p Hp.
  - left. exact Hp.
  - rewrite scan_items_cons in Hp.
    destruct (statSync f (dir ++ [item])) as [stat|]; [| left; exact Hp].
    destruct (isDirectory stat && _).
    + pose proof (scanSub_sound (dir ++ [item]) acc) as Hsub.
      destruct (scanSub (dir ++ [item]) acc) as [kd returned].
      cbn [fst] in Hsub.
      assert (Hkd : In p kd -> In p acc \/ collected_below (S n) dir p).
      { intros Hin. destruct (Hsub p Hin) as [Ha | Hb]; [left; exact Ha |].
        right. apply collected_below_deeper with (item := item). exact Hb. }
      destruct returned; [| apply Hkd, Hp].
      destruct (IH kd p Hp) as [Hin | Hc]; [apply Hkd, Hin | right; exact Hc].
    + destruct (is_key_doc item) eqn:Hkey; cbn [andb] in Hp.
      * destruct (isFile stat); [| apply IH, Hp].
        destruct (IH _ p Hp) as [Hin | Hc]; [| right; exact Hc].
        apply in_app_or in Hin. destruct Hin as [Hin | [<- | []]].
        -- left. exact Hin.
        -- right. apply collected_below_here, Hkey.
      * apply IH, Hp.
Qed.

Lemma scan_items_keeps (dir : Path) (items : list string) :
  forall acc p, In p acc -> In p (fst (scan_items scanSub f dir items acc)).
Proof.
  induction items as [|item more IH]; intros acc p Hp.
  - exact Hp.
  - rewrite scan_items_cons.
    destruct (statSync f (dir ++ [item])) as [stat|]; [| exact Hp].
    destruct (isDirectory stat && _).
    + pose proof (scanSub_keeps (dir ++ [item]) acc p Hp) as Hsub.
      destruct (scanSub (dir ++ [item]) acc) as [kd returned].
      cbn [fst] in Hsub. destruct returned; [apply IH |]; exact Hsub.
    + destruct (is_key_doc item && isFile stat); apply IH; [| exact Hp].
      apply in_or_app. left. exact Hp.
Qed.

(** A regular file with the name of a key document is collected by a
    loop that ends normally. *)
Lemma scan_items_collects (dir : Path) (items : list string)
      (item : string) :
  In item items ->
  statSync f (dir ++ [item]) = Some IsFile ->
  is_key_doc item = true ->
  forall acc,
    snd (scan_items scanSub f dir items acc) = true ->
    In (dir ++ [item]) (fst (scan_items scanSub f dir items acc)).
Proof.
  intros Hin Hstat Hkey.
  induction items as [|item0 more IH]; intros acc Hret; [destruct Hin |].
  rewrite scan_items_cons in Hret |- *.
  destruct Hin as [-> | Hin].
  - rewrite Hstat in Hret |- *. cbn [isDirectory isFile andb] in Hret |- *.
    rewrite Hkey in Hret |- *. cbn [andb] in Hret |- *.
    apply scan_items_keeps. apply in_or_app. right. left. reflexivity.
  - destruct (statSync f (dir ++ [item0])) as [stat|]; [| discriminate].
    destruct (isDirectory stat && _).
    + destruct (scanSub (dir ++ [item0]) acc) as [kd returned].
      destruct returned; [apply (IH Hin), Hret | discriminate].
    + destruct (is_key_doc item0 && isFile stat); apply (IH Hin), Hret.
Qed.

End Loop.

Lemma scanDir_sound (f : Fs) (n : nat) :
  forall dir acc p,
    In p (fst (scanDir f n dir acc)) -> In p acc \/ collected_below n dir p.
Proof.
  induction n as [|n IH]; intros dir acc p Hp.
  - left. exact Hp.
  - cbn [scanDir] in Hp.
    destruct (readdirSync f dir) as [items|]; [| left; exact Hp].
    apply (scan_items_sound f (scanDir f n) n IH dir items acc p Hp).
Qed.

Lemma scanDir_keeps (f : Fs) (n : nat) :
  forall dir acc p, In p acc -> In p (fst (scanDir f n dir acc)).
Proof.
  induction n as [|n IH]; intros dir acc p Hp.
  - exact Hp.
  - cbn [scanDir].
    destruct (readdirSync f dir) as [items|]; [| exact Hp].
    apply (scan_items_keeps f (scanDir f n) IH dir items acc p Hp).
Qed.

Lemma findKeyDocs_sound (f : Fs) (root p : Path) :
  In p (findKeyDocs f root) -> collected_below (S maxDepth) root p.
Proof.
  intros H. apply scanDir_sound in H. destruct H as [[] | H]. exact H.
Qed.

Lemma last_segment (rel : list string) (name item : string) :
  [item] = rel ++ [name] -> rel = [] /\ name = item.
Proof.
  intros H. change [item] with ([] ++ [item]) in H.
  apply app_inj_tail in H. destruct H as [<- <-]. auto.
Qed.

(** C3, as the code has it: in a scan that meets no filesystem error a
    regular file directly below the root is collected exactly when its
    extension is the lower-case .md and the name, letters compared
    without regard to case, is one of the eight fixed names or ends in
    one of the two fixed suffixes (so README.md is a key document and
    readme.MD is not); every collected file lies at most ten directories
    below the root, so a match nested deeper is not collected. *)
Theorem findKeyDocs_names_and_depth (f : Fs) (root : Path)
        (items : list string) (item : string) :
  readdirSync f root = Some items ->
  In item items ->
  statSync f (root ++ [item]) = Some IsFile ->
  snd (scanDir f (S maxDepth) root []) = true ->
  (In (root ++ [item]) (findKeyDocs f root) <->
   endsWith item ".md" = true
   /\ (In (toLowerCase item) key_names
       \/ exists pre suf,
            item = (pre ++ suf)%string /\ In (toLowerCase suf) key_suffixes))
  /\ (item = "README.md" -> In (root ++ [item]) (findKeyDocs f root))
  /\ (item = "readme.MD" -> ~ In (root ++ [item]) (findKeyDocs f root))
  /\ (forall p, In p (findKeyDocs f root) ->
        exists rel name,
          p = root ++ rel ++ [name]
          /\ List.length rel <= maxDepth
          /\ is_key_doc name = true)
  /\ (forall rel name,
        maxDepth < List.length rel ->
        ~ In (root ++ rel ++ [name]) (findKeyDocs f root)).
Proof.
  intros Hdir Hin Hstat Hret.
  assert (Hiff : In (root ++ [item]) (findKeyDocs f root)
                 <-> is_key_doc item = true).
  { split.
    - intros H. apply findKeyDocs_sound in H.
      destruct H as (rel & name & Hp & _ & Hkey).
      apply app_inv_head in Hp. apply last_segment in Hp.
      destruct Hp as [_ ->]. exact Hkey.
    - intros Hkey. unfold findKeyDocs in *. cbn [scanDir] in *.
      rewrite Hdir in *.
      apply (scan_items_collects f (scanDir f maxDepth)
               (scanDir_keeps f maxDepth) root items item Hin Hstat Hkey
               [] Hret). }
  split; [| split; [| split; [| split]]].
  - rewrite <- RegexFacts.is_key_doc_spec. exact Hiff.
  - intros Hname. apply Hiff. rewrite Hname. vm_compute. reflexivity.
  - intros Hname H. apply Hiff in H. rewrite Hname in H.
    vm_compute in H. discriminate.
  - intros p H. apply findKeyDocs_sound in H.
    destruct H as (rel & name & Hp & Hlen & Hkey).
    exists rel, name. repeat split; [exact Hp | lia | exact Hkey].
  - intros rel name Hlen H. apply findKeyDocs_sound in H.
    destruct H as (rel' & name' & Hp & Hlen' & _).
    apply app_inv_head in Hp. apply app_inj_tail in Hp.
    destruct Hp as [-> _]. lia.
Qed.

Lemma findKeyDocs_names_and_depth_witness :
  readdirSync (table_fs documented) ["proj"] = Some ["src"; "ReadMe.md"]
  /\ statSync (table_fs documented) (["proj"] ++ ["ReadMe.md"]) = Some IsFile
  /\ snd (scanDir (table_fs documented) (S maxDepth) ["proj"] []) = true
  /\ (In (["proj"] ++ ["ReadMe.md"])
         (findKeyDocs (table_fs documented) ["proj"])
      <-> endsWith "ReadMe.md" ".md" = true
          /\ (In (toLowerCase "ReadMe.md") key_names
              \/ exists pre suf,
                   "ReadMe.md" = (pre ++ suf)%string
                   /\ In (toLowerCase suf) key_suffixes)).
Proof.
  split; [reflexivity |].
  split; [reflexivity |].
  split; [reflexivity |].
  assert (Hdir : readdirSync (table_fs documented) ["proj"]
                 = Some ["src"; "ReadMe.md"]) by reflexivity.
  assert (Hin : In "ReadMe.md" ["src"; "ReadMe.md"]) by (simpl; auto).
  assert (Hstat : statSync (table_fs documented) (["proj"] ++ ["ReadMe.md"])
                  = Some IsFile) by reflexivity.
  assert (Hret : snd (scanDir (table_fs documented) (S maxDepth) ["proj"] [])
                 = true) by reflexivity.
  exact (proj1 (findKeyDocs_names_and_depth
                  (table_fs documented) ["proj"] ["src"; "ReadMe.md"]
                  "ReadMe.md" Hdir Hin Hstat Hret)).
Defined.

(** C3 as stated fails on the mixed-case extension: a regular file named
    readme.MD directly below the root is not collected, although the scan
    ends without an error. *)
Lemma upper_case_extension_is_not_collected :
  readdirSync (table_fs upper_case_extension) ["proj"] = Some ["readme.MD"]
  /\ statSync (table_fs upper_case_extension) ["proj"; "readme.MD"]
     = Some IsFile
  /\ snd (scanDir (table_fs upper_case_extension) (S maxDepth) ["proj"] [])
     = true
  /\ findKeyDocs (table_fs upper_case_extension) ["proj"] = []
  /\ ~ In ["proj"; "readme.MD"]
          (findKeyDocs (table_fs upper_case_extension) ["proj"]).
Proof.
  repeat split; try reflexivity.
  vm_compute. intros [].
Qed.

End KeyDocFacts.

(** ** The report renderers *)

Module ReportFacts.
Import JsString Regex Types FileSystem ReportGenerator Server Fixtures Spec.

(** C5, the code at the failing input: with no key document the
    conceptual findings show the count after the closing bold marker, so
    the text scanned for is absent from them, the documentation flag is
    set, and the report of a full run on a project without documents says
    well documented. *)
Theorem zero_documents_reported_well_documented (f : Fs)
        (projectPath : string) :
  let text := processPhase1 f projectPath [] in
  text = "## Phase 1: Conceptual Understanding" ++ nl ++ nl
         ++ "**Key Documents Found:** 0" ++ nl ++ nl
         ++ "**Note:** No key documentation files found. Project may lack comprehensive documentation." ++ nl
  /\ includes text "Key Documents Found: 0" = false
  /\ hasKeyDocs (Some text) = true
  /\ documentation_quality (Some text)
     = "**Documentation Quality:** Well Documented ✅" ++ nl
  /\ findKeyDocs (table_fs undocumented) ["proj"] = []
  /\ includes
       (findings_text
          (processCodebaseAnalysis (table_host undocumented) []
                                   (Arguments (Some "/proj") None)))
       "**Documentation Quality:** Well Documented" = true.
Proof.
  intros text.
  assert (Htext : text
                  = "## Phase 1: Conceptual Understanding" ++ nl ++ nl
                    ++ "**Key Documents Found:** 0" ++ nl ++ nl
                    ++ "**Note:** No key documentation files found. Project may lack comprehensive documentation." ++ nl)
    by reflexivity.
  split; [exact Htext |].
  rewrite Htext. clear Htext text.
  split; [vm_compute; reflexivity |].
  split; [vm_compute; reflexivity |].
  split; [vm_compute; reflexivity |].
  split; vm_compute; reflexivity.
Qed.

Lemma take_last_length {A} (n : nat) (l : list A) :
  List.length (take_last n l) = Nat.min n (List.length l).
Proof. unfold take_last. rewrite length_skipn. lia. Qed.

(** C9: on an empty history the synthesis text is the fixed summary,
    recommendation and next-step text around the project name, and the
    comprehensive report starts with its title, so neither is empty; both
    renderers are total.  In general the synthesis text has one finding
    line for each of the last three entries at most, and depends on the
    history only through its length and the phases of those entries. *)
Theorem synthesis_reads_the_last_three (isoNow projectPath allPhaseFindings
                                         : string) :
  processPhase4 projectPath []
  = "## Phase 4: Synthesis and Reporting" ++ nl ++ nl
    ++ "**Project Summary:**" ++ nl
    ++ "- **Project**: " ++ basename_string projectPath ++ nl
    ++ "- **Analysis Phases Completed**: 0" ++ nl
    ++ nl ++ "**Key Findings:**" ++ nl
    ++ recommendations ++ next_steps
  /\ processPhase4 projectPath [] <> EmptyString
  /\ startsWith
       (generateComprehensiveReport isoNow projectPath allPhaseFindings [])
       "# 📊 COMPREHENSIVE CODEBASE ANALYSIS REPORT" = true
  /\ generateComprehensiveReport isoNow projectPath allPhaseFindings []
     <> EmptyString
  /\ (forall history,
        List.length (take_last 3 history) <= 3
        /\ processPhase4 projectPath history
           = "## Phase 4: Synthesis and Reporting" ++ nl ++ nl
             ++ "**Project Summary:**" ++ nl
             ++ "- **Project**: " ++ basename_string projectPath ++ nl
             ++ "- **Analysis Phases Completed**: "
             ++ of_nat (List.length history) ++ nl
             ++ nl ++ "**Key Findings:**" ++ nl
             ++ String.concat EmptyString
                              (map finding_line (take_last 3 history))
             ++ recommendations ++ next_steps)
  /\ (forall h1 h2,
        List.length h1 = List.length h2 ->
        map phase (take_last 3 h1) = map phase (take_last 3 h2) ->
        processPhase4 projectPath h1 = processPhase4 projectPath h2).
Proof.
  split; [reflexivity |].
  split; [discriminate |].
  split; [reflexivity |].
  split; [discriminate |].
  split.
  - intros history. split; [| reflexivity].
    rewrite take_last_length. lia.
  - intros h1 h2 Hlen Hphases.
    assert (Hlines : forall l,
               map finding_line l
               = map (fun p => "- **" ++ capitalize (phase_name p)
                               ++ " Phase**: Completed successfully" ++ nl)
                     (map phase l))
      by (intros l; rewrite map_map; reflexivity).
    unfold processPhase4, render_each.
    rewrite Hlen, (Hlines (take_last 3 h1)), (Hlines (take_last 3 h2)),
      Hphases.
    reflexivity.
Qed.

End ReportFacts.

(** ** The orchestrator *)

Module ServerFacts.
Import JsString Regex Types FileSystem ReportGenerator Server Fixtures Spec.

Lemma or_default_path (s : string) : or_default (Some s) EmptyString = s.
Proof. destruct s; reflexivity. Qed.

Lemma or_default_phase (s : string) :
  String.eqb s EmptyString = false -> or_default (Some s) "all" = s.
Proof. destruct s; [discriminate | reflexivity]. Qed.

(** A missing, empty or nonexistent path gives the failure response and
    leaves the history as it was. *)
Lemma invalid_path_fails_cleanly (h : Host) (history : History)
      (path_arg phase_arg : option string) :
  String.eqb (or_default path_arg EmptyString) EmptyString = true
  \/ existsSync (fs h) (resolve (cwd h) (or_default path_arg EmptyString))
     = false ->
  processCodebaseAnalysis h history (Arguments path_arg phase_arg)
  = (Returned (failure "Invalid or non-existent project path"), history).
Proof.
  intros H. unfold processCodebaseAnalysis.
  destruct H as [-> | ->]; [reflexivity |].
  rewrite orb_true_r. reflexivity.
Qed.

(** C8, the code at the failing input: for an existing path and a phase
    string that is none of the four phases (nor empty, nor all) the
    promise of processCodebaseAnalysis is rejected with the error of
    runSinglePhase instead of resolving to a failure response; the
    history is unchanged.  For a missing or nonexistent path the failure
    response is returned and the history is unchanged. *)
Theorem unrecognized_phase_rejects (h : Host) (history : History)
        (providedPath requestedPhase : string) :
  String.eqb providedPath EmptyString = false ->
  existsSync (fs h) (resolve (cwd h) providedPath) = true ->
  String.eqb requestedPhase EmptyString = false ->
  String.eqb requestedPhase "all" = false ->
  parse_phase requestedPhase = None ->
  processCodebaseAnalysis h history
                          (Arguments (Some providedPath) (Some requestedPhase))
  = (Thrown ("Invalid phase: " ++ requestedPhase), history)
  /\ (forall path_arg phase_arg,
        String.eqb (or_default path_arg EmptyString) EmptyString = true
        \/ existsSync (fs h)
                      (resolve (cwd h) (or_default path_arg EmptyString))
           = false ->
        processCodebaseAnalysis h history (Arguments path_arg phase_arg)
        = (Returned (failure "Invalid or non-existent project path"),
           history)).
Proof.
  intros Hpath Hexists Hphase Hall Hparse. split.
  - unfold processCodebaseAnalysis.
    rewrite or_default_path, (or_default_phase _ Hphase).
    rewrite Hpath, Hexists, Hall. cbn [negb orb].
    unfold runSinglePhase. rewrite Hparse. reflexivity.
  - intros path_arg phase_arg. apply invalid_path_fails_cleanly.
Qed.

Lemma unrecognized_phase_rejects_witness :
  existsSync (fs (table_host repository))
             (resolve (cwd (table_host repository)) "/proj") = true
  /\ parse_phase "bogus" = None
  /\ processCodebaseAnalysis (table_host repository) []
                             (Arguments (Some "/proj") (Some "bogus"))
     = (Thrown "Invalid phase: bogus", []).
Proof.
  split; [reflexivity |].
  split; [reflexivity |].
  apply (unrecognized_phase_rejects (table_host repository) [] "/proj" "bogus");
    reflexivity.
Defined.

End ServerFacts.

(** ** Substrings *)

Module IncludesFacts.
Import JsString Vocabulary.

Lemma append_assoc (a b c : string) : (a ++ b) ++ c = a ++ b ++ c.
Proof.
  induction a as [|x a IH]; cbn [append]; [| rewrite IH]; reflexivity.
Qed.

Lemma prefix_append (w s : string) : String.prefix w (w ++ s) = true.
Proof.
  induction w as [|c w IH]; cbn [append String.prefix].
  - destruct s; reflexivity.
  - destruct (ascii_dec c c) as [_ | Hn]; [exact IH | congruence].
Qed.

Lemma prefix_split (w s : string) :
  String.prefix w s = true -> exists rest, s = w ++ rest.
Proof.
  revert s; induction w as [|c w IH]; intros s H.
  - exists s. reflexivity.
  - destruct s as [|x s]; cbn [String.prefix] in H; [discriminate |].
    destruct (ascii_dec c x) as [<- |]; [| discriminate].
    destruct (IH s H) as [rest ->]. exists rest. reflexivity.
Qed.

Lemma includes_unfold (s w : string) :
  includes s w
  = if String.prefix w s then true
    else match s with
         | EmptyString => false
         | String _ s' => includes s' w
         end.
Proof. destruct s; reflexivity. Qed.

Lemma includes_here (s w : string) :
  String.prefix w s = true -> includes s w = true.
Proof. intros H. rewrite includes_unfold, H. reflexivity. Qed.

Lemma includes_skip (a b w : string) :
  includes b w = true -> includes (a ++ b) w = true.
Proof.
  intros H. induction a as [|c a IH]; [exact H |].
  cbn [append]. rewrite includes_unfold.
  destruct (String.prefix w (String c (a ++ b))); [reflexivity | exact IH].
Qed.

(** [s.includes(w)] holds exactly when [w] occurs somewhere in [s]. *)
Lemma includes_spec (s w : string) :
  includes s w = true <-> exists a b, s = a ++ w ++ b.
Proof.
  split.
  - induction s as [|c s IH]; rewrite includes_unfold.
    + destruct (String.prefix w EmptyString) eqn:E; [| discriminate].
      intros _. apply prefix_split in E. destruct E as [rest E].
      exists EmptyString, rest. exact E.
    + destruct (String.prefix w (String c s)) eqn:E.
      * intros _. apply prefix_split in E. destruct E as [rest E].
        exists EmptyString, rest. exact E.
      * intros H. destruct (IH H) as (a & b & ->).
        exists (String c a), b. reflexivity.
  - intros (a & b & ->). apply includes_skip, includes_here, prefix_append.
Qed.

Lemma includes_prepend (a b w : string) :
  includes a w = true -> includes (a ++ b) w = true.
Proof.
  intros H. apply includes_spec in H. destruct H as (x & y & ->).
  apply includes_spec. exists x, (y ++ b).
  rewrite !append_assoc. reflexivity.
Qed.

Lemma toLowerCase_append (a b : string) :
  toLowerCase (a ++ b) = toLowerCase a ++ toLowerCase b.
Proof.
  unfold toLowerCase.
  induction a as [|c a IH]; cbn [append map_chars]; [| rewrite IH];
    reflexivity.
Qed.

Lemma lower_char_idempotent (c : ascii) :
  lower_char (lower_char c) = lower_char c.
Proof.
  destruct c as [[] [] [] [] [] [] [] []]; vm_compute; reflexivity.
Qed.

End IncludesFacts.

(** ** Literal patterns and alternatives *)

Module MatcherFacts.
Import JsString Regex Types CodeAnalyzer Spec Vocabulary.

Lemma run_lit {A : Type} (w : string) :
  forall prev s cs (k : option ascii -> string -> captures -> option A),
    run (lit w) prev s cs k
    = match eat w prev s with
      | Some (p, rest) => k p rest cs
      | None => None
      end.
Proof.
  induction w as [|c w IH]; intros prev s cs k.
  - reflexivity.
  - destruct w as [|d w].
    + cbn [lit chr run eat].
      destruct s as [|x s]; [reflexivity |].
      destruct (Ascii.eqb c x); reflexivity.
    + change (lit (String c (String d w)))
        with (Seq (chr c) (lit (String d w))).
      cbn [run chr]. cbn [eat].
      destruct s as [|x s]; [reflexivity |].
      destruct (Ascii.eqb c x); [| reflexivity].
      rewrite IH. reflexivity.
Qed.

Lemma eat_prefix (w : string) :
  forall prev s,
    is_some (eat w prev s) = String.prefix w s.
Proof.
  induction w as [|c w IH]; intros prev s.
  - destruct s; reflexivity.
  - destruct s as [|x s]; [reflexivity |].
    cbn [eat String.prefix].
    destruct (Ascii.eqb_spec c x) as [-> | Hne].
    + destruct (ascii_dec x x) as [_ | Hn]; [apply IH | congruence].
    + destruct (ascii_dec c x) as [He | _]; [congruence | reflexivity].
Qed.

Lemma match_here_lit (w : string) (prev : option ascii) (s : string) :
  is_some (match_here (lit w) prev s) = String.prefix w s.
Proof.
  unfold match_here. rewrite run_lit, <- (eat_prefix w prev s).
  destruct (eat w prev s) as [[p rest]|]; reflexivity.
Qed.

Lemma found_unfold (r : re) (prev : option ascii) (s : string) :
  found r prev s
  = if is_some (match_here r prev s) then true
    else match s with
         | EmptyString => false
         | String c s' => found r (Some c) s'
         end.
Proof.
  unfold found. destruct s; cbn [search];
    destruct (match_here r prev _); reflexivity.
Qed.

(** A literal pattern matches somewhere exactly when the text includes
    the literal. *)
Lemma found_lit (w : string) :
  forall s prev, found (lit w) prev s = includes s w.
Proof.
  induction s as [|c s IH]; intros prev;
    rewrite found_unfold, IncludesFacts.includes_unfold, match_here_lit.
  - reflexivity.
  - rewrite IH. reflexivity.
Qed.

Lemma test_lit (w s : string) : test (lit w) s = includes s w.
Proof. apply (found_lit w s None). Qed.

Lemma match_here_alt (r1 r2 : re) (prev : option ascii) (s : string) :
  match_here (Alt r1 r2) prev s
  = orelse (match_here r1 prev s) (match_here r2 prev s).
Proof. reflexivity. Qed.

(** An alternative matches somewhere exactly when one side does. *)
Lemma found_alt (r1 r2 : re) :
  forall s prev,
    found (Alt r1 r2) prev s = found r1 prev s || found r2 prev s.
Proof.
  induction s as [|c s IH]; intros prev;
    rewrite (found_unfold (Alt r1 r2)), (found_unfold r1), (found_unfold r2),
      match_here_alt;
    destruct (match_here r1 prev _), (match_here r2 prev _);
    cbn [orelse orb is_some]; try reflexivity.
  - rewrite orb_true_r. reflexivity.
  - apply IH.
Qed.

Lemma test_alt (r1 r2 : re) (s : string) :
  test (Alt r1 r2) s = test r1 s || test r2 s.
Proof. apply (found_alt r1 r2 s None). Qed.

Lemma eat_i_of_eat (w : string) :
  forall prev s, String.prefix w s = true ->
                 exists r, eat_i w prev s = Some r.
Proof.
  induction w as [|c w IH]; intros prev s H.
  - eexists. reflexivity.
  - destruct s as [|x s]; cbn [String.prefix] in H; [discriminate |].
    destruct (ascii_dec c x) as [<- |]; [| discriminate].
    cbn [eat_i]. rewrite Ascii.eqb_refl. apply IH, H.
Qed.

Lemma match_here_lit_i (w : string) (prev : option ascii) (s : string) :
  String.prefix w s = true ->
  exists h, match_here (lit_i w) prev s = Some h.
Proof.
  intros H. unfold match_here. rewrite RegexFacts.run_lit_i.
  destruct (eat_i_of_eat w prev s H) as [[p rest] ->].
  eexists. reflexivity.
Qed.

(** A literal under the [i] flag matches wherever the literal itself
    occurs. *)
Lemma found_lit_i (w : string) :
  forall s prev, includes s w = true -> found (lit_i w) prev s = true.
Proof.
  induction s as [|c s IH]; intros prev H;
    rewrite found_unfold; rewrite IncludesFacts.includes_unfold in H.
  - destruct (String.prefix w EmptyString) eqn:E; [| discriminate].
    destruct (match_here_lit_i w prev EmptyString E) as [h ->]. reflexivity.
  - destruct (String.prefix w (String c s)) eqn:E.
    + destruct (match_here_lit_i w prev (String c s) E) as [h ->].
      reflexivity.
    + destruct (match_here (lit_i w) prev (String c s)); [reflexivity |].
      apply IH, H.
Qed.

Lemma test_lit_i (w s : string) :
  includes s w = true -> test (lit_i w) s = true.
Proof. apply (found_lit_i w s None). Qed.

Lemma tag_if_in (r : re) (subject tag : string) :
  test r subject = true -> In tag (tag_if r subject tag).
Proof. unfold tag_if. intros ->. left. reflexivity. Qed.

End MatcherFacts.

(** ** Entry points and tags *)

Module TaggerFacts.
Import JsString Regex Types CodeAnalyzer Spec Vocabulary.

(** X1: a file whose path mentions one of the five main-file names, in any
    letter case, is an entry point whatever its content. *)
Theorem entry_point_by_name (content before name after : string) :
  In (toLowerCase name) ["index"; "main"; "app"; "server"; "program"] ->
  isEntryPoint content (before ++ name ++ after) = true.
Proof.
  intros Hname. unfold isEntryPoint. apply orb_true_iff. left.
  apply existsb_exists. exists (toLowerCase name). split; [exact Hname |].
  rewrite !IncludesFacts.toLowerCase_append.
  apply IncludesFacts.includes_spec.
  exists (toLowerCase before), (toLowerCase after). reflexivity.
Qed.

Lemma entry_point_by_name_witness :
  In (toLowerCase "App") ["index"; "main"; "app"; "server"; "program"]
  /\ isEntryPoint "x = 1" ("src/My" ++ "App" ++ "lication.py") = true.
Proof.
  split; [simpl; auto |].
  apply (entry_point_by_name "x = 1" "src/My" "App" "lication.py").
  simpl. auto.
Defined.

(** X2: a file that calls express() is flagged by all three analyzers: it is
    an entry point, it gets the server architecture tag, and it gets the
    web-server idiom tag. *)
Theorem express_call_is_flagged (content filePath : string) :
  includes content "express()" = true ->
  isEntryPoint content filePath = true
  /\ In "Server Architecture" (analyzeArchitecture content filePath)
  /\ In "Express.js/Web Server" (detectPatterns content filePath).
Proof.
  intros H. split; [| split].
  - unfold isEntryPoint. apply orb_true_iff. right.
    apply existsb_exists. exists (lit "express()"). split.
    + unfold entryPatterns. right. left. reflexivity.
    + rewrite MatcherFacts.test_lit. exact H.
  - unfold analyzeArchitecture. apply in_flat_map.
    exists (nth 0 architecture_tests (Eps, EmptyString)). split.
    + apply nth_In. vm_compute. lia.
    + cbn [nth architecture_tests fst snd].
      apply MatcherFacts.tag_if_in.
      cbn [alt]. rewrite !MatcherFacts.test_alt, !MatcherFacts.test_lit, H.
      rewrite !orb_true_r. reflexivity.
  - unfold detectPatterns. apply in_or_app. left. apply in_flat_map.
    exists (nth 7 content_idioms (Eps, EmptyString)). split.
    + apply nth_In. vm_compute. lia.
    + cbn [nth content_idioms fst snd].
      apply MatcherFacts.tag_if_in.
      unfold words_i. cbn [map alt]. rewrite MatcherFacts.test_alt.
      rewrite (MatcherFacts.test_lit_i "express()" content H). reflexivity.
Qed.

Lemma express_call_is_flagged_witness :
  includes "const app = express();" "express()" = true
  /\ isEntryPoint "const app = express();" "lib/web.js" = true.
Proof.
  split; [reflexivity |].
  exact (proj1 (express_call_is_flagged "const app = express();"
                                        "lib/web.js" eq_refl)).
Defined.

End TaggerFacts.

(** ** Tag lists and code elements *)

Module ElementFacts.
Import JsString Regex Types CodeAnalyzer Spec Vocabulary MoreFixtures.
Local Open Scope list_scope.

Lemma subsequence_refl_nil {A} (l : list A) : subsequence [] l.
Proof. induction l; constructor; assumption. Qed.

Lemma subsequence_app {A} (a1 a2 b1 b2 : list A) :
  subsequence a1 a2 -> subsequence b1 b2 ->
  subsequence (a1 ++ b1) (a2 ++ b2).
Proof.
  induction 1; intros Hb; cbn [app]; [exact Hb | |];
    constructor; apply IHsubsequence, Hb.
Qed.

Lemma subsequence_In {A} (l1 l2 : list A) (x : A) :
  subsequence l1 l2 -> In x l1 -> In x l2.
Proof.
  induction 1; intros Hin; [exact Hin | right; auto |].
  destruct Hin as [-> | Hin]; [left; reflexivity | right; auto].
Qed.

Lemma subsequence_NoDup {A} (l1 l2 : list A) :
  subsequence l1 l2 -> NoDup l2 -> NoDup l1.
Proof.
  induction 1; intros Hnd; [exact Hnd | |].
  - inversion Hnd; auto.
  - inversion Hnd as [|y l Hy Hl]; subst. constructor; [| auto].
    intros Hin. apply Hy. eapply subsequence_In; eassumption.
Qed.

Lemma subsequence_length {A} (l1 l2 : list A) :
  subsequence l1 l2 -> List.length l1 <= List.length l2.
Proof. induction 1; cbn [List.length]; lia. Qed.

Lemma tags_subsequence (tests : list (re * string)) (subject : string) :
  subsequence (flat_map (fun rt => tag_if (fst rt) subject (snd rt)) tests)
              (map snd tests).
Proof.
  induction tests as [|[r t] tests IH]; cbn [flat_map map fst snd].
  - constructor.
  - unfold tag_if at 1. destruct (test r subject); cbn [app].
    + apply sub_keep, IH.
    + apply sub_skip, IH.
Qed.

Lemma NoDup_by_dedup (l : list string) : dedup l = l -> NoDup l.
Proof. intros <-. apply AnalyzerFacts.dedup_NoDup. Qed.

(** X3: the tags of one file come from the fixed lists, in the order of the
    tests and each at most once: at most 24 idiom tags and 12
    architecture tags. *)
Theorem tags_are_ordered_and_distinct (content filePath : string) :
  subsequence (detectPatterns content filePath) idiom_tags
  /\ NoDup (detectPatterns content filePath)
  /\ List.length (detectPatterns content filePath) <= 24
  /\ subsequence (analyzeArchitecture content filePath) architecture_tags
  /\ NoDup (analyzeArchitecture content filePath)
  /\ List.length (analyzeArchitecture content filePath) <= 12.
Proof.
  assert (Hi : subsequence (detectPatterns content filePath) idiom_tags).
  { unfold detectPatterns, idiom_tags. apply subsequence_app.
    - apply tags_subsequence.
    - unfold tag_if. destruct (test _ _).
      + apply sub_keep, sub_nil.
      + apply sub_skip, sub_nil. }
  assert (Ha : subsequence (analyzeArchitecture content filePath)
                           architecture_tags).
  { unfold analyzeArchitecture, architecture_tags. apply tags_subsequence. }
  assert (Hni : NoDup idiom_tags)
    by (apply NoDup_by_dedup; vm_compute; reflexivity).
  assert (Hna : NoDup architecture_tags)
    by (apply NoDup_by_dedup; vm_compute; reflexivity).
  split; [exact Hi |].
  split; [exact (subsequence_NoDup _ _ Hi Hni) |].
  split; [exact (subsequence_length _ _ Hi) |].
  split; [exact Ha |].
  split; [exact (subsequence_NoDup _ _ Ha Hna) |].
  exact (subsequence_length _ _ Ha).
Qed.

Lemma in_flat_mapi {A B} (g : nat -> A -> list B) (l : list A) (y : B) :
  forall i, In y (flat_mapi g i l) -> exists j x, In x l /\ In y (g j x).
Proof.
  induction l as [|x l IH]; intros i H; cbn [flat_mapi] in H; [destruct H |].
  apply in_app_or in H. destruct H as [H | H].
  - exists i, x. split; [left; reflexivity | exact H].
  - destruct (IH _ H) as (j & x' & Hx & Hy).
    exists j, x'. split; [right; exact Hx | exact Hy].
Qed.

(** X4: every code element carries the path of its file; interface and type
    elements are made only for paths ending in .ts or .tsx; and exactly
    the class elements carry a method list. *)
Theorem code_elements_shape (content filePath : string) (e : CodeElement) :
  In e (extractCodeElements content filePath) ->
  file e = filePath
  /\ (is_declaration (type e) = true ->
      endsWith filePath ".ts" || endsWith filePath ".tsx" = true)
  /\ (methods e <> None <-> type e = class_).
Proof.
  unfold extractCodeElements. intros H.
  apply in_app_or in H. destruct H as [H | H].
  { unfold class_elements in H. apply in_flat_mapi in H.
    destruct H as (j & m & _ & H).
    destruct (exec class_name_re m); [| destruct H].
    destruct H as [<- | []]. cbn [file type methods is_declaration].
    split; [reflexivity |]. split; [discriminate |].
    split; [reflexivity | discriminate]. }
  apply in_app_or in H. destruct H as [H | H].
  { unfold function_elements in H. apply in_flat_map in H.
    destruct H as (m & _ & H).
    destruct (exec function_name_re m); [| destruct H].
    destruct H as [<- | []]. cbn [file type methods is_declaration].
    split; [reflexivity |]. split; [discriminate |].
    split; [congruence | discriminate]. }
  apply in_app_or in H. destruct H as [H | H].
  { unfold arrow_elements in H. apply in_flat_map in H.
    destruct H as (m & _ & H).
    destruct (exec const_name_re m); [| destruct H].
    destruct H as [<- | []]. cbn [file type methods is_declaration].
    split; [reflexivity |]. split; [discriminate |].
    split; [congruence | discriminate]. }
  destruct (endsWith filePath ".ts" || endsWith filePath ".tsx");
    [| destruct H].
  apply in_app_or in H.
  destruct H as [H | H]; unfold declared_elements in H;
    apply in_flat_map in H; destruct H as (m & _ & H).
  - destruct (exec interface_name_re m); [| destruct H].
    destruct H as [<- | []]. cbn [file type methods is_declaration].
    split; [reflexivity |]. split; [reflexivity |].
    split; [congruence | discriminate].
  - destruct (exec type_name_re m); [| destruct H].
    destruct H as [<- | []]. cbn [file type methods is_declaration].
    split; [reflexivity |]. split; [reflexivity |].
    split; [congruence | discriminate].
Qed.

Lemma code_elements_shape_witness :
  In shape_interface
     (extractCodeElements "export interface Shape { area(): number }"
                          "src/shape.ts")
  /\ file shape_interface = "src/shape.ts".
Proof.
  assert (Hin : In shape_interface
                   (extractCodeElements
                      "export interface Shape { area(): number }"
                      "src/shape.ts"))
    by (vm_compute; left; reflexivity).
  split; [exact Hin |].
  exact (proj1 (code_elements_shape _ _ _ Hin)).
Defined.

End ElementFacts.

(** ** The summary of the files *)

Module SummaryFacts.
Import JsString Types CodeAnalyzer Spec Vocabulary MoreFixtures.
Local Open Scope list_scope.
Local Open Scope Z_scope.

Lemma insert_by_lines_sorted (x : FileContent) (l : list FileContent) :
  StronglySorted no_shorter l ->
  StronglySorted no_shorter (insert_by_lines x l).
Proof.
  induction l as [|y l IH]; intros Hs; cbn [insert_by_lines].
  - constructor; constructor.
  - inversion Hs as [|? ? Hl Hy]; subst.
    destruct (Z.leb_spec (lines y - lines x) 0) as [Hc | Hc].
    + constructor; [exact Hs |].
      constructor; [unfold no_shorter; lia |].
      eapply Forall_impl; [| exact Hy].
      unfold no_shorter; intros; lia.
    + constructor; [apply IH, Hl |].
      eapply Permutation_Forall;
        [apply AggregatorFacts.insert_by_lines_perm |].
      constructor; [unfold no_shorter; lia | exact Hy].
Qed.

Lemma sort_by_lines_sorted (l : list FileContent) :
  StronglySorted no_shorter (sort_by_lines l).
Proof.
  induction l as [|x l IH]; cbn [sort_by_lines].
  - constructor.
  - apply insert_by_lines_sorted, IH.
Qed.

Lemma insert_by_lines_stable (n : Z) (x : FileContent) (l : list FileContent) :
  filter (with_lines n) (insert_by_lines x l) = filter (with_lines n) (x :: l).
Proof.
  induction l as [|y l IH]; cbn [insert_by_lines]; [reflexivity |].
  destruct (Z.leb_spec (lines y - lines x) 0) as [Hc | Hc]; [reflexivity |].
  cbn [filter] in *. rewrite IH. unfold with_lines.
  destruct (Z.eqb_spec (lines x) n), (Z.eqb_spec (lines y) n);
    try reflexivity; lia.
Qed.

Lemma sort_by_lines_stable (n : Z) (l : list FileContent) :
  filter (with_lines n) (sort_by_lines l) = filter (with_lines n) l.
Proof.
  induction l as [|x l IH]; cbn [sort_by_lines]; [reflexivity |].
  rewrite insert_by_lines_stable. cbn [filter]. rewrite IH. reflexivity.
Qed.

(** X5: the array the summary leaves behind is the input in descending order
    of line count, files of equal length keeping their order; the
    largest files are its first five, or all when there are fewer. *)
Theorem largest_files_first (files : list FileContent) :
  let sorted := snd (buildCodeStructureMap files) in
  let summary := fst (buildCodeStructureMap files) in
  StronglySorted no_shorter sorted
  /\ Permutation files sorted
  /\ (forall n, filter (with_lines n) sorted = filter (with_lines n) files)
  /\ map lf_path (largestFiles summary) = map path (firstn 5 sorted)
  /\ map lf_lines (largestFiles summary) = map lines (firstn 5 sorted)
  /\ map lf_size (largestFiles summary) = map size (firstn 5 sorted)
  /\ List.length (largestFiles summary) = Nat.min 5 (List.length files).
Proof.
  unfold buildCodeStructureMap. cbn [fst snd largestFiles].
  split; [apply sort_by_lines_sorted |].
  split; [apply AggregatorFacts.sort_by_lines_perm |].
  split; [intros n; apply sort_by_lines_stable |].
  unfold take. rewrite !map_map. cbn [lf_path lf_lines lf_size].
  split; [reflexivity |]. split; [reflexivity |]. split; [reflexivity |].
  rewrite length_map, length_firstn.
  rewrite <- (Permutation_length (AggregatorFacts.sort_by_lines_perm files)).
  reflexivity.
Qed.

(** *** Grouping by extension *)

Lemma group_by_extension_fold (files : list FileContent) :
  group_by_extension files = fold_left count_step files [].
Proof. reflexivity. Qed.

Lemma count_file_keys (ext : string) (n : Z)
      (m : list (string * ExtensionStats)) :
  group_keys (count_file ext n m)
  = if existsb (String.eqb ext) (group_keys m) then group_keys m
    else group_keys m ++ [ext].
Proof.
  induction m as [|[k v] m IH]; cbn [count_file group_keys map fst existsb app];
    [reflexivity |].
  rewrite (String.eqb_sym ext k).
  destruct (String.eqb k ext); cbn [orb map fst]; [reflexivity |].
  fold (group_keys (count_file ext n m)). rewrite IH. fold (group_keys m).
  destruct (existsb (String.eqb ext) (group_keys m)); reflexivity.
Qed.

Lemma dedup_from_seen (l s1 s2 : list string) :
  (forall x, existsb (String.eqb x) s1 = existsb (String.eqb x) s2) ->
  dedup_from s1 l = dedup_from s2 l.
Proof.
  revert s1 s2; induction l as [|a l IH]; intros s1 s2 H;
    cbn [dedup_from]; [reflexivity |].
  rewrite (H a). destruct (existsb (String.eqb a) s2).
  - apply IH, H.
  - f_equal. apply IH. intros x. cbn [existsb]. rewrite H. reflexivity.
Qed.

Lemma fold_keys (files : list FileContent)
      (m : list (string * ExtensionStats)) :
  group_keys (fold_left count_step files m)
  = group_keys m ++ dedup_from (group_keys m) (map extension_key files).
Proof.
  revert m; induction files as [|f files IH]; intros m;
    cbn [fold_left map dedup_from].
  - rewrite app_nil_r. reflexivity.
  - rewrite IH. unfold count_step. rewrite count_file_keys.
    destruct (existsb (String.eqb (extension_key f)) (group_keys m));
      [reflexivity |].
    rewrite <- app_assoc. cbn [app]. do 2 f_equal.
    apply dedup_from_seen. intros x.
    rewrite existsb_app. cbn [existsb]. rewrite orb_false_r, orb_comm.
    reflexivity.
Qed.








End SummaryFacts.

(** ** The walk of findCodeFiles *)

Module WalkFacts.
Import JsString Regex Types FileSystem Fixtures Spec Vocabulary MoreFixtures.
Local Open Scope list_scope.

Lemma walk_items_cons (walkSub : Path -> list Path -> list Path)
      (f : Fs) (dir : Path) (item : string) (more : list string)
      (codeFiles : list Path) :
  walk_items walkSub f dir (item :: more) codeFiles
  = match statSync f (dir ++ [item]) with
    | None => codeFiles
    | Some stat =>
        if isDirectory stat
           && negb (existsb (String.eqb item) skipped_code_dirs)
        then walk_items walkSub f dir more (walkSub (dir ++ [item]) codeFiles)
        else if isFile stat
                && existsb (fun ext => endsWith item ext) extensions
        then walk_items walkSub f dir more (codeFiles ++ [dir ++ [item]])
        else walk_items walkSub f dir more codeFiles
    end.
Proof. reflexivity. Qed.

Section Loop.
Variable f : Fs.
Variable walkSub : Path -> list Path -> list Path.
Variable reached : Path -> Path -> Prop.
Variable dir : Path.

Hypothesis walkSub_spec :
  forall d acc p, In p (walkSub d acc) <-> In p acc \/ reached d p.

Lemma walk_items_spec (items : list string) :
  forall acc p,
    In p (walk_items walkSub f dir items acc)
    <-> In p acc
        \/ exists before item after,
             items = before ++ item :: after
             /\ examined f dir before /\ walk_adds f reached dir item p.
Proof.
  induction items as [|i more IH]; intros acc p.
  - cbn [walk_items]. split; [auto |].
    intros [H | (before & item & after & H & _)]; [exact H |].
    destruct before; discriminate.
  - rewrite walk_items_cons.
    assert (Hlater : forall before item after,
               more = before ++ item :: after ->
               examined f dir before -> walk_adds f reached dir item p ->
               statSync f (dir ++ [i]) <> None ->
               exists before' item' after',
                 i :: more = before' ++ item' :: after'
                 /\ examined f dir before'
                 /\ walk_adds f reached dir item' p).
    { intros before item after -> Hex Hadd Hi.
      exists (i :: before), item, after.
      split; [reflexivity |].
      split; [apply Forall_cons; assumption | exact Hadd]. }
    assert (Hsplit : forall before item after,
               i :: more = before ++ item :: after ->
               examined f dir before -> walk_adds f reached dir item p ->
               (item = i /\ walk_adds f reached dir i p)
               \/ (statSync f (dir ++ [i]) <> None
                   /\ exists before' item' after',
                        more = before' ++ item' :: after'
                        /\ examined f dir before'
                        /\ walk_adds f reached dir item' p)).
    { intros before item after Heq Hex Hadd.
      destruct before as [|b before]; cbn [app] in Heq;
        inversion Heq; subst.
      - left. auto.
      - right. unfold examined in Hex. inversion Hex; subst.
        split; [assumption |].
        exists before, item, after. auto. }
    destruct (statSync f (dir ++ [i])) as [stat|] eqn:Hstat.
    + destruct (isDirectory stat
                && negb (existsb (String.eqb i) skipped_code_dirs)) eqn:Hd;
        [| destruct (isFile stat
                     && existsb (fun ext => endsWith i ext) extensions)
             eqn:Hf];
        rewrite IH; split.
      * intros [H | (before & item & after & Heq & Hex & Hadd)].
        -- apply walkSub_spec in H. destruct H as [H | H]; [left; exact H |].
           right. exists [], i, more. split; [reflexivity |].
           split; [apply Forall_nil |]. right.
           apply andb_prop in Hd. destruct Hd as [Hd1 Hd2].
           destruct stat; try discriminate.
           rewrite Hstat. apply negb_true_iff in Hd2. auto.
        -- right. apply (Hlater before item after Heq Hex Hadd). congruence.
      * intros [H | (before & item & after & Heq & Hex & Hadd)].
        -- left. apply walkSub_spec. left. exact H.
        -- destruct (Hsplit _ _ _ Heq Hex Hadd) as [[_ Hi] | [_ Hm]];
             [| right; exact Hm].
           left. apply walkSub_spec.
           destruct Hi as [(Hs & _ & _) | (_ & _ & Hr)];
             [| right; exact Hr].
           rewrite Hstat in Hs. inversion Hs; subst. discriminate.
      * intros [H | (before & item & after & Heq & Hex & Hadd)].
        -- apply in_app_or in H. destruct H as [H | [<- | []]];
             [left; exact H |].
           right. exists [], i, more. split; [reflexivity |].
           split; [apply Forall_nil |]. left.
           apply andb_prop in Hf. destruct Hf as [Hf1 Hf2].
           destruct stat; try discriminate. rewrite Hstat. auto.
        -- right. apply (Hlater before item after Heq Hex Hadd). congruence.
      * intros [H | (before & item & after & Heq & Hex & Hadd)].
        -- left. apply in_or_app. left. exact H.
        -- destruct (Hsplit _ _ _ Heq Hex Hadd) as [[_ Hi] | [_ Hm]];
             [| right; exact Hm].
           left. apply in_or_app.
           destruct Hi as [(_ & _ & ->) | (Hs & Hk & _)];
             [right; left; reflexivity |].
           rewrite Hstat in Hs. inversion Hs; subst.
           rewrite Hk in Hd. discriminate.
      * intros [H | (before & item & after & Heq & Hex & Hadd)];
          [left; exact H |].
        right. apply (Hlater before item after Heq Hex Hadd). congruence.
      * intros [H | (before & item & after & Heq & Hex & Hadd)];
          [left; exact H |].
        destruct (Hsplit _ _ _ Heq Hex Hadd) as [[_ Hi] | [_ Hm]];
          [| right; exact Hm].
        exfalso.
        destruct Hi as [(Hs & He & _) | (Hs & Hk & _)];
          rewrite Hstat in Hs; inversion Hs; subst.
        -- rewrite He in Hf. discriminate.
        -- rewrite Hk in Hd. discriminate.
    + split; [auto |].
      intros [H | (before & item & after & Heq & Hex & Hadd)]; [exact H |].
      exfalso.
      destruct (Hsplit _ _ _ Heq Hex Hadd) as [[_ Hi] | [Hn _]];
        [| apply Hn; reflexivity].
      destruct Hi as [(Hs & _) | (Hs & _)]; rewrite Hstat in Hs; discriminate.
Qed.

End Loop.

Lemma walkDir_spec (f : Fs) (budget : nat) :
  forall dir acc p,
    In p (walkDir f budget dir acc) <-> In p acc \/ walk_reaches f budget dir p.
Proof.
  induction budget as [|n IH]; intros dir acc p.
  - cbn [walkDir]. split; [auto |]. intros [H | H]; [exact H | inversion H].
  - cbn [walkDir].
    destruct (readdirSync f dir) as [items|] eqn:Hdir.
    + rewrite (walk_items_spec f (walkDir f n) (walk_reaches f n) dir IH).
      split; (intros [H | H]; [left; exact H | right]).
      * destruct H as (before & item & after & -> & Hex & Hadd).
        assert (Hc : comes_to f dir item) by (exists before, after; auto).
        destruct Hadd as [(Hs & He & ->) | (Hs & Hk & Hr)].
        -- apply reach_file; assumption.
        -- apply reach_below with (item := item); assumption.
      * inversion H as [? ? item (before & after & Hl & Hex) Hs He
                       | ? ? item ? (before & after & Hl & Hex) Hs Hk Hr];
          subst; rewrite Hdir in Hl; inversion Hl; subst;
          exists before, item, after; (split; [reflexivity |]);
          (split; [exact Hex |]); [left | right]; auto.
    + split; [auto |]. intros [H | H]; [exact H |].
      inversion H as [? ? item (before & after & Hl & _) _ _
                     | ? ? item ? (before & after & Hl & _) _ _ _];
        subst; rewrite Hdir in Hl; discriminate.
Qed.

(** X8: the code files that are found are exactly those the walk reaches: a
    regular file with a listed extension in the root or, through
    directories that are not skipped and at most ten levels down, in a
    directory below it, provided that each directory on the way can be
    listed and every entry before the one taken can be examined.  What
    comes after the entry, and what lies in other directories, does not
    matter. *)
Theorem findCodeFiles_exactly (f : Fs) (root p : Path) :
  In p (findCodeFiles f root) <-> walk_reaches f (S maxDepth) root p.
Proof.
  unfold findCodeFiles. rewrite walkDir_spec.
  split; [intros [[] | H]; exact H | auto].
Qed.

Lemma walk_reaches_below (f : Fs) (budget : nat) (dir p : Path) :
  walk_reaches f budget dir p -> found_below f budget dir p.
Proof.
  induction 1 as [n dir item _ Hs He | n dir item p _ Hs Hk _ IH].
  - exists [], item. split; [reflexivity |].
    split; [cbn [List.length]; lia |].
    split; [exact He |]. split; [exact Hs | constructor].
  - destruct IH as (rel & x & -> & Hlen & He & Hst & Hall).
    exists (item :: rel), x.
    split; [rewrite <- !app_assoc; reflexivity |].
    split; [cbn [List.length]; lia |].
    split; [exact He |].
    split; [exact Hst |].
    constructor; assumption.
Qed.

(** X9: every code file that is found is a regular file with one of the
    listed extensions, at most ten directories below the root, and no
    directory on the way to it has a skipped name such as node_modules
    or .git. *)
Theorem findCodeFiles_bounds (f : Fs) (root p : Path) :
  In p (findCodeFiles f root) ->
  exists rel item,
    p = root ++ rel ++ [item]
    /\ List.length rel <= maxDepth
    /\ existsb (fun ext => endsWith item ext) extensions = true
    /\ statSync f p = Some IsFile
    /\ Forall (fun d => ~ In d skipped_code_dirs) rel.
Proof.
  intros H. unfold findCodeFiles in H. apply walkDir_spec in H.
  destruct H as [[] | H]. apply walk_reaches_below in H.
  destruct H as (rel & item & Hp & Hlen & He & Hs & Hall).
  exists rel, item. split; [exact Hp |]. split; [lia |].
  split; [exact He |]. split; [exact Hs |].
  eapply Forall_impl; [| exact Hall].
  cbn beta. intros d Hd Hin.
  assert (existsb (String.eqb d) skipped_code_dirs = true) as Ht.
  { apply existsb_exists. exists d. split; [exact Hin |].
    apply String.eqb_refl. }
  congruence.
Qed.

Lemma findCodeFiles_bounds_witness :
  findCodeFiles (table_fs broken_link) ["proj"] = [["proj"; "main.ts"]]
  /\ exists rel item,
       ["proj"; "main.ts"] = ["proj"] ++ rel ++ [item]
       /\ List.length rel <= maxDepth
       /\ existsb (fun ext => endsWith item ext) extensions = true
       /\ statSync (table_fs broken_link) ["proj"; "main.ts"] = Some IsFile
       /\ Forall (fun d => ~ In d skipped_code_dirs) rel.
Proof.
  split; [vm_compute; reflexivity |].
  apply (findCodeFiles_bounds (table_fs broken_link) ["proj"]).
  vm_compute. left. reflexivity.
Defined.

End WalkFacts.

(** ** The scan of findKeyDocs *)

Module ScanFacts.
Import JsString Regex Types FileSystem Fixtures Spec Vocabulary MoreFixtures.
Local Open Scope list_scope.

Section Loop.
Variable f : Fs.
Variable scanSub : Path -> list Path -> list Path * bool.
Variable reached : Path -> Path -> Prop.
Variable clean : Path -> Prop.
Variable dir : Path.

Hypothesis scanSub_spec :
  forall d acc p, In p (fst (scanSub d acc)) <-> In p acc \/ reached d p.
Hypothesis scanSub_returns :
  forall d acc, snd (scanSub d acc) = true <-> clean d.

Lemma scan_items_returns (items : list string) :
  forall acc,
    snd (scan_items scanSub f dir items acc) = true
    <-> Forall (scan_passes f clean dir) items.
Proof.
  induction items as [|i more IH]; intros acc.
  - cbn [scan_items snd]. split; [constructor | reflexivity].
  - rewrite KeyDocFacts.scan_items_cons.
    destruct (statSync f (dir ++ [i])) as [stat|] eqn:Hstat.
    + destruct (isDirectory stat
                && negb (existsb (String.eqb i) skipped_doc_dirs)) eqn:Hd.
      * pose proof (scanSub_returns (dir ++ [i]) acc) as Hr.
        destruct (scanSub (dir ++ [i]) acc) as [kd [|]]; cbn [snd] in Hr.
        -- rewrite IH. split.
           ++ intros Hm. constructor; [| exact Hm].
              exists stat. split; [exact Hstat |]. intros _. apply Hr.
              reflexivity.
           ++ intros Hall. inversion Hall; assumption.
        -- cbn [snd]. split; [discriminate |].
           intros Hall. inversion Hall as [|? ? Hpi _]; subst.
           destruct Hpi as (st & Hs & Hc).
           rewrite Hstat in Hs. inversion Hs; subst.
           apply Hr, Hc, Hd.
      * assert (Hp : scan_passes f clean dir i)
          by (exists stat; split; [exact Hstat | rewrite Hd; discriminate]).
        destruct (is_key_doc i && isFile stat); rewrite IH;
          (split; [intros Hm; constructor; assumption
                  | intros Hall; inversion Hall; assumption]).
    + cbn [snd]. split; [discriminate |].
      intros Hall. inversion Hall as [|? ? Hpi _]; subst.
      destruct Hpi as (st & Hs & _).
      rewrite Hstat in Hs. discriminate.
Qed.

Lemma scan_items_spec (items : list string) :
  forall acc p,
    In p (fst (scan_items scanSub f dir items acc))
    <-> In p acc
        \/ exists before item after,
             items = before ++ item :: after
             /\ Forall (scan_passes f clean dir) before
             /\ scan_adds f reached dir item p.
Proof.
  induction items as [|i more IH]; intros acc p.
  - cbn [scan_items fst]. split; [auto |].
    intros [H | (before & item & after & H & _)]; [exact H |].
    destruct before; discriminate.
  - rewrite KeyDocFacts.scan_items_cons.
    assert (Hlater : forall before item after,
               more = before ++ item :: after ->
               Forall (scan_passes f clean dir) before ->
               scan_adds f reached dir item p ->
               scan_passes f clean dir i ->
               exists before' item' after',
                 i :: more = before' ++ item' :: after'
                 /\ Forall (scan_passes f clean dir) before'
                 /\ scan_adds f reached dir item' p).
    { intros before item after -> Hex Hadd Hi.
      exists (i :: before), item, after.
      split; [reflexivity |].
      split; [apply Forall_cons; assumption | exact Hadd]. }
    assert (Hsplit : forall before item after,
               i :: more = before ++ item :: after ->
               Forall (scan_passes f clean dir) before ->
               scan_adds f reached dir item p ->
               (item = i /\ scan_adds f reached dir i p)
               \/ (scan_passes f clean dir i
                   /\ exists before' item' after',
                        more = before' ++ item' :: after'
                        /\ Forall (scan_passes f clean dir) before'
                        /\ scan_adds f reached dir item' p)).
    { intros before item after Heq Hex Hadd.
      destruct before as [|b before]; cbn [app] in Heq;
        inversion Heq; subst.
      - left. auto.
      - right. inversion Hex; subst. split; [assumption |].
        exists before, item, after. auto. }
    assert (Hfirst : scan_adds f reached dir i p ->
               exists before item after,
                 i :: more = before ++ item :: after
                 /\ Forall (scan_passes f clean dir) before
                 /\ scan_adds f reached dir item p).
    { intros Hadd. exists [], i, more. split; [reflexivity |].
      split; [apply Forall_nil | exact Hadd]. }
    destruct (statSync f (dir ++ [i])) as [stat|] eqn:Hstat.
    + destruct (isDirectory stat
                && negb (existsb (String.eqb i) skipped_doc_dirs)) eqn:Hd.
      * assert (Hdir : stat = IsDirectory
                       /\ existsb (String.eqb i) skipped_doc_dirs = false).
        { apply andb_prop in Hd. destruct Hd as [Hd1 Hd2].
          apply negb_true_iff in Hd2. destruct stat; try discriminate. auto. }
        destruct Hdir as [-> Hk].
        pose proof (scanSub_spec (dir ++ [i]) acc p) as Hsub.
        pose proof (scanSub_returns (dir ++ [i]) acc) as Hr.
        assert (Hadds : scan_adds f reached dir i p
                        <-> reached (dir ++ [i]) p).
        { split.
          - intros [(Hs & _) | (_ & _ & H)]; [| exact H].
            rewrite Hstat in Hs. discriminate.
          - intros H. right. auto. }
        destruct (scanSub (dir ++ [i]) acc) as [kd [|]];
          cbn [fst snd] in Hsub, Hr.
        -- assert (Hp : scan_passes f clean dir i).
           { exists IsDirectory. split; [exact Hstat |]. intros _.
             apply Hr. reflexivity. }
           rewrite IH. split.
           ++ intros [H | (before & item & after & Heq & Hex & Hadd)].
              ** apply Hsub in H. destruct H as [H | H]; [left; exact H |].
                 right. apply Hfirst, Hadds, H.
              ** right. apply (Hlater before item after Heq Hex Hadd Hp).
           ++ intros [H | (before & item & after & Heq & Hex & Hadd)].
              ** left. apply Hsub. left. exact H.
              ** destruct (Hsplit _ _ _ Heq Hex Hadd) as [[_ Hi] | [_ Hm]];
                   [| right; exact Hm].
                 left. apply Hsub. right. apply Hadds, Hi.
        -- cbn [fst]. rewrite Hsub. split.
           ++ intros [H | H]; [left; exact H |].
              right. apply Hfirst, Hadds, H.
           ++ intros [H | (before & item & after & Heq & Hex & Hadd)];
                [left; exact H |].
              destruct (Hsplit _ _ _ Heq Hex Hadd)
                as [[_ Hi] | [(st & Hs & Hc) _]].
              ** right. apply Hadds, Hi.
              ** rewrite Hstat in Hs. inversion Hs; subst.
                 assert (false = true) by (apply Hr, Hc, Hd). discriminate.
      * assert (Hp : scan_passes f clean dir i)
          by (exists stat; split; [exact Hstat | rewrite Hd; discriminate]).
        destruct (is_key_doc i && isFile stat) eqn:Hf; rewrite IH; split.
        -- intros [H | (before & item & after & Heq & Hex & Hadd)].
           ++ apply in_app_or in H. destruct H as [H | [<- | []]];
                [left; exact H |].
              right. apply Hfirst. left.
              apply andb_prop in Hf. destruct Hf as [Hf1 Hf2].
              destruct stat; try discriminate. auto.
           ++ right. apply (Hlater before item after Heq Hex Hadd Hp).
        -- intros [H | (before & item & after & Heq & Hex & Hadd)].
           ++ left. apply in_or_app. left. exact H.
           ++ destruct (Hsplit _ _ _ Heq Hex Hadd) as [[_ Hi] | [_ Hm]];
                [| right; exact Hm].
              left. apply in_or_app.
              destruct Hi as [(_ & _ & ->) | (Hs & Hk & _)];
                [right; left; reflexivity |].
              rewrite Hstat in Hs. inversion Hs; subst.
              rewrite Hk in Hd. discriminate.
        -- intros [H | (before & item & after & Heq & Hex & Hadd)];
             [left; exact H |].
           right. apply (Hlater before item after Heq Hex Hadd Hp).
        -- intros [H | (before & item & after & Heq & Hex & Hadd)];
             [left; exact H |].
           destruct (Hsplit _ _ _ Heq Hex Hadd) as [[_ Hi] | [_ Hm]];
             [| right; exact Hm].
           exfalso.
           destruct Hi as [(Hs & He & _) | (Hs & Hk & _)];
             rewrite Hstat in Hs; inversion Hs; subst.
           ++ rewrite He in Hf. discriminate.
           ++ rewrite Hk in Hd. discriminate.
    + cbn [fst]. split; [auto |].
      intros [H | (before & item & after & Heq & Hex & Hadd)]; [exact H |].
      exfalso.
      destruct (Hsplit _ _ _ Heq Hex Hadd) as [[_ Hi] | [(st & Hs & _) _]];
        [| rewrite Hstat in Hs; discriminate].
      destruct Hi as [(Hs & _) | (Hs & _)]; rewrite Hstat in Hs; discriminate.
Qed.

End Loop.

Lemma scanDir_returns (f : Fs) (budget : nat) :
  forall dir acc,
    snd (scanDir f budget dir acc) = true <-> scans_cleanly f budget dir.
Proof.
  induction budget as [|n IH]; intros dir acc; cbn [scanDir scans_cleanly].
  - cbn [snd]. split; auto.
  - destruct (readdirSync f dir) as [items|].
    + rewrite (scan_items_returns f (scanDir f n) (scans_cleanly f n) dir IH).
      split.
      * intros H. exists items. split; [reflexivity | exact H].
      * intros (items' & Heq & H). inversion Heq; subst. exact H.
    + cbn [snd]. split; [discriminate |].
      intros (items' & Heq & _). discriminate.
Qed.

Lemma scanDir_spec (f : Fs) (budget : nat) :
  forall dir acc p,
    In p (fst (scanDir f budget dir acc))
    <-> In p acc \/ scan_reaches f budget dir p.
Proof.
  induction budget as [|n IH]; intros dir acc p; cbn [scanDir].
  - cbn [fst]. split; [auto |]. intros [H | H]; [exact H | inversion H].
  - destruct (readdirSync f dir) as [items|] eqn:Hdir.
    + rewrite (scan_items_spec f (scanDir f n) (scan_reaches f n)
                 (scans_cleanly f n) dir IH (scanDir_returns f n)).
      split; (intros [H | H]; [left; exact H | right]).
      * destruct H as (before & item & after & -> & Hex & Hadd).
        destruct Hadd as [(Hs & He & ->) | (Hs & Hk & Hr)].
        -- apply reach_document with (before := before) (after := after);
             assumption.
        -- apply reach_deeper
             with (before := before) (item := item) (after := after);
             assumption.
      * inversion H as [? ? before item after Hl Hex Hs He
                       | ? ? before item after ? Hl Hex Hs Hk Hr];
          subst; rewrite Hdir in Hl; inversion Hl; subst;
          exists before, item, after; (split; [reflexivity |]);
          (split; [exact Hex |]); [left | right]; auto.
    + cbn [fst]. split; [auto |]. intros [H | H]; [exact H |].
      inversion H as [? ? before item after Hl _ _ _
                     | ? ? before item after ? Hl _ _ _ _];
        subst; rewrite Hdir in Hl; discriminate.
Qed.

(** X10: the key documents that are found are exactly those the scan reaches
    before its first error: a regular file with the name of a key
    document, in the root or at most ten directories below it through
    directories that are not skipped, such that every entry listed
    before it, in its directory and in the directories above, could be
    examined and, where it was a directory to enter, scanned to the end
    without an error. *)
Theorem findKeyDocs_exactly (f : Fs) (root p : Path) :
  In p (findKeyDocs f root) <-> scan_reaches f (S maxDepth) root p.
Proof.
  unfold findKeyDocs. rewrite scanDir_spec.
  split; [intros [[] | H]; exact H | auto].
Qed.

Lemma scan_reaches_below (f : Fs) (budget : nat) (dir p : Path) :
  scan_reaches f budget dir p -> document_below f budget dir p.
Proof.
  induction 1 as [n dir before item after _ _ Hs He
                 | n dir before item after p _ _ Hs Hk _ IH].
  - exists [], item. split; [reflexivity |].
    split; [cbn [List.length]; lia |].
    split; [exact He |]. split; [exact Hs | constructor].
  - destruct IH as (rel & x & -> & Hlen & He & Hst & Hall).
    exists (item :: rel), x.
    split; [rewrite <- !app_assoc; reflexivity |].
    split; [cbn [List.length]; lia |].
    split; [exact He |].
    split; [exact Hst |].
    constructor; assumption.
Qed.

Lemma first_failure {A} (P : A -> Prop)
      (before : list A) (bad : A) (after before' : list A) (item : A)
      (after' : list A) :
  before ++ bad :: after = before' ++ item :: after' ->
  Forall P before' -> ~ P bad -> In item before \/ item = bad.
Proof.
  intros Heq Hall Hnot. revert before' Heq Hall.
  induction before as [|b before IH]; intros before' Heq Hall;
    destruct before' as [|b' before']; cbn [app] in Heq;
    inversion Heq; subst.
  - right. reflexivity.
  - inversion Hall; subst. contradiction.
  - left. left. reflexivity.
  - inversion Hall; subst.
    destruct (IH before') as [Hin | ->]; try assumption.
    + left. right. exact Hin.
    + right. reflexivity.
Qed.

(** X11: one error ends the whole scan for documents: when the scan cannot
    get past an entry of the root, because the entry cannot be examined
    or because an error occurs somewhere below it, every document that
    is found lies at or below an entry listed before it, or below that
    entry itself.  Documents listed after it are never found. *)
Theorem findKeyDocs_stops_at_error (f : Fs) (root : Path)
        (before : list string) (bad : string) (after : list string) :
  readdirSync f root = Some (before ++ bad :: after) ->
  ~ passed f maxDepth root bad ->
  forall p, In p (findKeyDocs f root) ->
    (exists b rest, In b before /\ p = root ++ b :: rest)
    \/ (exists rest,
          rest <> [] /\ p = root ++ bad :: rest
          /\ statSync f (root ++ [bad]) = Some IsDirectory).
Proof.
  intros Hdir Hnot p Hp. unfold findKeyDocs in Hp.
  apply scanDir_spec in Hp. destruct Hp as [[] | Hp].
  assert (Hhere : forall before' item after',
             before ++ bad :: after = before' ++ item :: after' ->
             Forall (passed f maxDepth root) before' ->
             In item before \/ item = bad).
  { intros before' item after' Heq Hall.
    apply (first_failure (passed f maxDepth root)
             before bad after before' item after' Heq Hall Hnot). }
  inversion Hp as [? ? before' item after' Hl Hex Hs He
                  | ? ? before' item after' ? Hl Hex Hs Hk Hr]; subst;
    rewrite Hdir in Hl; inversion Hl as [Heq];
    destruct (Hhere before' item after' Heq Hex) as [Hin | ->].
  - left. exists item, []. split; [exact Hin | reflexivity].
  - exfalso. apply Hnot. exists IsFile. split; [exact Hs |].
    cbn [isDirectory andb]. discriminate.
  - apply scan_reaches_below in Hr.
    destruct Hr as (rel & x & -> & _).
    left. exists item, (rel ++ [x]).
    split; [exact Hin | rewrite <- app_assoc; reflexivity].
  - apply scan_reaches_below in Hr.
    destruct Hr as (rel & x & -> & _).
    right. exists (rel ++ [x]).
    split; [destruct rel; discriminate |].
    split; [rewrite <- app_assoc; reflexivity | exact Hs].
Qed.

Lemma findKeyDocs_stops_at_error_witness :
  readdirSync (table_fs broken_link) ["proj"]
  = Some ([] ++ "sub" :: ["README.md"; "main.ts"])
  /\ findKeyDocs (table_fs broken_link) ["proj"]
     = [["proj"; "sub"; "AGENTS.md"]]
  /\ ((exists b rest,
         In b [] /\ ["proj"; "sub"; "AGENTS.md"] = ["proj"] ++ b :: rest)
      \/ (exists rest,
            rest <> []
            /\ ["proj"; "sub"; "AGENTS.md"] = ["proj"] ++ "sub" :: rest
            /\ statSync (table_fs broken_link) (["proj"] ++ ["sub"])
               = Some IsDirectory)).
Proof.
  assert (Hdir : readdirSync (table_fs broken_link) ["proj"]
                 = Some ([] ++ "sub" :: ["README.md"; "main.ts"]))
    by reflexivity.
  assert (Hnot : ~ passed (table_fs broken_link) maxDepth ["proj"] "sub").
  { intros (stat & Hs & Hc). vm_compute in Hs. inversion Hs; subst.
    assert (Hclean : scans_cleanly (table_fs broken_link) maxDepth
                       (["proj"] ++ ["sub"])) by (apply Hc; reflexivity).
    apply (scanDir_returns _ _ _ []) in Hclean.
    vm_compute in Hclean. discriminate. }
  assert (Hin : In ["proj"; "sub"; "AGENTS.md"]
                   (findKeyDocs (table_fs broken_link) ["proj"]))
    by (vm_compute; left; reflexivity).
  split; [exact Hdir |].
  split; [vm_compute; reflexivity |].
  exact (findKeyDocs_stops_at_error (table_fs broken_link) ["proj"]
           [] "sub" ["README.md"; "main.ts"] Hdir Hnot _ Hin).
Defined.

End ScanFacts.

(** ** The repository root *)

Module AscentFacts.
Import JsString Types FileSystem Fixtures Spec Vocabulary MoreFixtures.
Local Open Scope list_scope.

Lemma split_on_cons (sep : ascii) (s : string) :
  exists w ws, split_on sep s = w :: ws.
Proof.
  induction s as [|c s (w & ws & IH)]; cbn [split_on].
  - eauto.
  - destruct (Ascii.eqb c sep); [eauto |]. rewrite IH. eauto.
Qed.

Lemma split_on_free (sep : ascii) (s : string) :
  Forall (fun w => count_char sep w = 0) (split_on sep s).
Proof.
  induction s as [|c s IH]; cbn [split_on].
  - constructor; [reflexivity | constructor].
  - destruct (Ascii.eqb c sep) eqn:Hc.
    + constructor; [reflexivity | exact IH].
    + destruct (split_on sep s) as [|w ws]; [repeat constructor |].
      * cbn [count_char]. rewrite Hc. reflexivity.
      * inversion IH; subst. constructor; [| assumption].
        cbn [count_char]. rewrite Hc. assumption.
Qed.

Lemma split_on_segment (sep : ascii) (w rest : string) :
  count_char sep w = 0 ->
  split_on sep (w ++ String sep rest) = w :: split_on sep rest.
Proof.
  induction w as [|c w IH]; intros Hw; cbn [append split_on].
  - rewrite Ascii.eqb_refl. reflexivity.
  - cbn [count_char] in Hw. destruct (Ascii.eqb c sep); [discriminate |].
    rewrite (IH Hw). reflexivity.
Qed.

Lemma split_on_last (sep : ascii) (w : string) :
  count_char sep w = 0 -> split_on sep w = [w].
Proof.
  induction w as [|c w IH]; intros Hw; cbn [split_on]; [reflexivity |].
  cbn [count_char] in Hw. destruct (Ascii.eqb c sep); [discriminate |].
  rewrite (IH Hw). reflexivity.
Qed.

Lemma clean_segment_free (s : string) :
  clean_segment s = true -> count_char "/"%char s = 0.
Proof.
  unfold clean_segment. intros H. apply andb_prop in H.
  destruct H as [_ H]. apply Nat.eqb_eq, H.
Qed.

Lemma split_on_concat (p : Path) :
  p <> [] -> Forall (fun s => clean_segment s = true) p ->
  split_on "/"%char (String.concat "/" p) = p.
Proof.
  induction p as [|d p IH]; intros Hne Hall; [congruence |].
  inversion Hall as [|? ? Hd Hp]; subst.
  destruct p as [|d' p].
  - cbn [String.concat]. apply split_on_last, clean_segment_free, Hd.
  - change (String.concat "/" (d :: d' :: p))
      with (d ++ String "/"%char (String.concat "/" (d' :: p)))%string.
    rewrite split_on_segment by (apply clean_segment_free, Hd).
    rewrite IH; [reflexivity | discriminate | exact Hp].
Qed.

Lemma resolve_step_clean (acc : list string) (seg : string) :
  clean_segment seg = true -> resolve_step acc seg = seg :: acc.
Proof.
  unfold clean_segment, resolve_step. intros H. apply andb_prop in H.
  destruct H as [H _]. apply negb_true_iff in H.
  destruct (String.eqb seg EmptyString), (String.eqb seg "."),
    (String.eqb seg ".."); try discriminate. reflexivity.
Qed.

Lemma fold_resolve_clean (p : Path) :
  Forall (fun s => clean_segment s = true) p ->
  forall acc, fold_left resolve_step p acc = rev p ++ acc.
Proof.
  induction 1 as [|d p Hd _ IH]; intros acc; cbn [fold_left rev].
  - reflexivity.
  - rewrite (resolve_step_clean acc d Hd), IH, <- app_assoc. reflexivity.
Qed.

(** Resolving the text of an absolute path gives the path back. *)
Lemma resolve_path_string (cwd p : Path) :
  Forall (fun s => clean_segment s = true) p ->
  resolve cwd (path_string p) = p.
Proof.
  intros Hp. unfold resolve, path_string.
  change ("/" ++ String.concat "/" p)%string
    with (String "/"%char (String.concat "/" p)).
  assert (Hs : startsWith (String "/"%char (String.concat "/" p)) "/" = true).
  { unfold startsWith. cbn [String.prefix].
    destruct (ascii_dec "/"%char "/"%char) as [_ | Hne]; [| congruence].
    destruct (String.concat "/" p); reflexivity. }
  rewrite Hs.
  cbn [split_on]. rewrite Ascii.eqb_refl. cbn [fold_left].
  change (resolve_step [] EmptyString) with (@nil string).
  destruct p as [|d p].
  - reflexivity.
  - rewrite split_on_concat by (discriminate || exact Hp).
    rewrite fold_resolve_clean by exact Hp.
    rewrite app_nil_r. apply rev_involutive.
Qed.

Lemma resolve_step_keeps_clean (acc : list string) (seg : string) :
  Forall (fun s => clean_segment s = true) acc ->
  count_char "/"%char seg = 0 ->
  Forall (fun s => clean_segment s = true) (resolve_step acc seg).
Proof.
  intros Hacc Hseg. unfold resolve_step.
  destruct (String.eqb seg EmptyString) eqn:H1; [exact Hacc |].
  destruct (String.eqb seg ".") eqn:H2; [exact Hacc |].
  destruct (String.eqb seg "..") eqn:H3.
  - destruct acc; [constructor | inversion Hacc; assumption].
  - constructor; [| exact Hacc].
    unfold clean_segment. rewrite H1, H2, H3, Hseg. reflexivity.
Qed.

Lemma resolve_clean (cwd : Path) (p : string) :
  Forall (fun s => clean_segment s = true) cwd ->
  Forall (fun s => clean_segment s = true) (resolve cwd p).
Proof.
  intros Hcwd. unfold resolve. apply Forall_rev.
  assert (H : forall segs acc,
             Forall (fun w => count_char "/"%char w = 0) segs ->
             Forall (fun s => clean_segment s = true) acc ->
             Forall (fun s => clean_segment s = true)
                    (fold_left resolve_step segs acc)).
  { induction segs as [|seg segs IH]; intros acc Hsegs Hacc;
      cbn [fold_left]; [exact Hacc |].
    inversion Hsegs; subst.
    apply IH; [assumption |]. apply resolve_step_keeps_clean; assumption. }
  apply H; [apply split_on_free |].
  destruct (startsWith p "/"); [constructor | apply Forall_rev, Hcwd].
Qed.

(** Where the loop stops: at a marked directory other than the
    filesystem root, with no marked directory below it on the way. *)
Lemma ascend_found (f : Fs) (p found : Path) :
  ascend f (rev p) = Some found ->
  exists rest,
    p = found ++ rest /\ found <> [] /\ has_marker f found = true
    /\ none_marked f found rest = true.
Proof.
  induction p as [|x p IH] using rev_ind; intros H; [discriminate |].
  rewrite RootFacts.ascend_snoc in H.
  destruct (has_marker f (p ++ [x])) eqn:Hm.
  - inversion H; subst. exists []. rewrite app_nil_r.
    split; [reflexivity |]. split; [destruct p; discriminate |].
    split; [exact Hm | reflexivity].
  - destruct (IH H) as (rest & -> & Hne & Hf & Hn).
    exists (rest ++ [x]). split; [rewrite app_assoc; reflexivity |].
    split; [exact Hne |]. split; [exact Hf |].
    rewrite RootFacts.none_marked_app, Hn. cbn [none_marked andb].
    rewrite Hm. reflexivity.
Qed.

Lemma ascend_none (f : Fs) (p : Path) :
  ascend f (rev p) = None -> none_marked f [] p = true.
Proof.
  induction p as [|x p IH] using rev_ind; intros H; [reflexivity |].
  rewrite RootFacts.ascend_snoc in H.
  destruct (has_marker f (p ++ [x])) eqn:Hm; [discriminate |].
  rewrite RootFacts.none_marked_app, (IH H). cbn [none_marked andb app].
  rewrite Hm. reflexivity.
Qed.

Lemma findRepositoryRoot_outcome (f : Fs) (cwd : Path)
      (startPath : string) :
  (exists found rest,
     resolve cwd startPath = found ++ rest
     /\ found <> []
     /\ has_marker f found = true
     /\ none_marked f found rest = true
     /\ findRepositoryRoot f cwd startPath = path_string found)
  \/ (none_marked f [] (resolve cwd startPath) = true
      /\ findRepositoryRoot f cwd startPath = startPath).
Proof.
  unfold findRepositoryRoot.
  destruct (ascend f (rev (resolve cwd startPath))) as [found|] eqn:Ha.
  - left. destruct (ascend_found f _ _ Ha) as (rest & Hp & Hne & Hm & Hn).
    exists found, rest. auto.
  - right. split; [apply ascend_none, Ha | reflexivity].
Qed.

(** X12: the detected root is one of two things: the text of a directory
    other than the filesystem root that holds a marker and lies on the
    way from the root to the resolved start path, nearest to it; or,
    when no directory on that way below the filesystem root holds a
    marker, the input as it was given. *)
Theorem findRepositoryRoot_cases (f : Fs) (cwd : Path) (startPath : string) :
  (exists found rest,
     resolve cwd startPath = found ++ rest
     /\ found <> []
     /\ has_marker f found = true
     /\ none_marked f found rest = true
     /\ findRepositoryRoot f cwd startPath = path_string found)
  \/ (none_marked f [] (resolve cwd startPath) = true
      /\ findRepositoryRoot f cwd startPath = startPath).
Proof.
  destruct (findRepositoryRoot_outcome f cwd startPath) as [H | H];
    [left | right]; exact H.
Qed.

(** X13: detecting the root again from the detected root changes nothing,
    for a working directory that is a normalised absolute path. *)
Theorem findRepositoryRoot_idempotent (f : Fs) (cwd : Path)
        (startPath : string) :
  Forall (fun s => clean_segment s = true) cwd ->
  findRepositoryRoot f cwd (findRepositoryRoot f cwd startPath)
  = findRepositoryRoot f cwd startPath.
Proof.
  intros Hcwd.
  destruct (findRepositoryRoot_outcome f cwd startPath)
    as [(found & rest & Hp & Hne & Hm & _ & Hr) | [_ Hr]];
    rewrite Hr; [| exact Hr].
  assert (Hclean : Forall (fun s => clean_segment s = true) found).
  { pose proof (resolve_clean cwd startPath Hcwd) as H.
    rewrite Hp in H. apply Forall_app in H. apply H. }
  unfold findRepositoryRoot.
  rewrite (resolve_path_string cwd found Hclean).
  rewrite (RootFacts.ascend_stops_at_marked f found Hne Hm). reflexivity.
Qed.

Lemma findRepositoryRoot_idempotent_witness :
  findRepositoryRoot (table_fs repository) ["home"; "user"] "/proj/src/a"
  = "/proj"
  /\ findRepositoryRoot (table_fs repository) ["home"; "user"] "/proj"
     = "/proj".
Proof.
  assert (H1 : findRepositoryRoot (table_fs repository) ["home"; "user"]
                 "/proj/src/a" = "/proj") by (vm_compute; reflexivity).
  split; [exact H1 |].
  pose proof (findRepositoryRoot_idempotent (table_fs repository)
                ["home"; "user"] "/proj/src/a") as H.
  rewrite H1 in H. apply H.
  repeat constructor.
Defined.

End AscentFacts.

(** ** The history of a server *)

Module SessionFacts.
Import JsString Regex Types CodeAnalyzer FileSystem ReportGenerator Server.
Import Fixtures Spec Dispatcher Vocabulary MoreFixtures.
Local Open Scope list_scope.

Lemma phase_findings_throws (h : Host) (history : History)
      (projectPath : string) (p : Phase) (e : string) :
  phase_findings h history projectPath p = Thrown e ->
  p = analysis
  /\ codeStructure (analyzeCodeFiles h projectPath) = None.
Proof.
  destruct p; cbn [phase_findings]; try discriminate.
  unfold processPhase3.
  destruct (codeStructure (analyzeCodeFiles h projectPath));
    [discriminate | auto].
Qed.

Lemma run_phases_cons (h : Host) (projectPath : string) (p : Phase)
      (more : list Phase) (tick : nat) (report : string)
      (history : History) :
  run_phases h projectPath (p :: more) tick report history
  = match phase_findings h history projectPath p with
    | Thrown e => (Thrown e, history)
    | Returned phaseFindings =>
        run_phases h projectPath more (S tick)
          (report ++ phaseFindings ++ nl ++ nl)
          (history
           ++ [{| Types.projectPath := projectPath; Types.phase := p;
                  Types.findings := phaseFindings;
                  Types.nextPhaseNeeded :=
                    match p with synthesis => false | _ => true end;
                  timestamp := isoTime h tick |}])
    end.
Proof. reflexivity. Qed.

Lemma run_phases_returned (h : Host) (projectPath : string) (p : Phase)
      (more : list Phase) (tick : nat) (report : string)
      (history : History) (phaseFindings : string) :
  phase_findings h history projectPath p = Returned phaseFindings ->
  run_phases h projectPath (p :: more) tick report history
  = run_phases h projectPath more (S tick)
      (report ++ phaseFindings ++ nl ++ nl)
      (history
       ++ [{| Types.projectPath := projectPath; Types.phase := p;
              Types.findings := phaseFindings;
              Types.nextPhaseNeeded :=
                match p with synthesis => false | _ => true end;
              timestamp := isoTime h tick |}]).
Proof. intros H. rewrite run_phases_cons, H. reflexivity. Qed.

(** The loop over the phases adds one record for each phase it
    completes, and leaves only at the analysis phase. *)
Lemma run_phases_grows (h : Host) (projectPath : string)
      (phases : list Phase) :
  forall tick report history,
  exists added,
    snd (run_phases h projectPath phases tick report history)
    = history ++ added
    /\ Forall (fun a => Types.projectPath a = projectPath) added
    /\ match fst (run_phases h projectPath phases tick report history) with
       | Returned _ => map phase added = phases
       | Thrown _ =>
           exists rest, phases = map phase added ++ analysis :: rest
       end.
Proof.
  induction phases as [|p more IH]; intros tick report history.
  - exists []. cbn [run_phases fst snd map]. rewrite app_nil_r.
    split; [reflexivity |]. split; [constructor | reflexivity].
  - rewrite run_phases_cons.
    destruct (phase_findings h history projectPath p) as [text | e] eqn:E.
    + match goal with
      | |- context [run_phases h projectPath more ?t ?r ?hist] =>
          destruct (IH t r hist) as (added & Hsnd & Hpath & Hfst);
          destruct (run_phases h projectPath more t r hist) as [out hist']
      end.
      cbn [fst snd] in Hsnd, Hfst |- *.
      eexists (_ :: added). rewrite Hsnd, <- app_assoc. cbn [app].
      split; [reflexivity |].
      split; [constructor; [reflexivity | exact Hpath] |].
      destruct out as [t | e'].
      * cbn [map phase]. rewrite Hfst. reflexivity.
      * destruct Hfst as (rest & ->). exists rest. reflexivity.
    + exists []. cbn [fst snd map app]. rewrite app_nil_r.
      split; [reflexivity |]. split; [constructor |].
      apply phase_findings_throws in E. destruct E as [-> _].
      exists more. reflexivity.
Qed.

Lemma parse_phase_name (s : string) (p : Phase) :
  parse_phase s = Some p -> phase_name p = s.
Proof.
  unfold parse_phase. intros H. apply find_some in H.
  destruct H as [_ H]. apply String.eqb_eq, H.
Qed.

Lemma runSinglePhase_grows (h : Host) (history : History)
      (projectPath phase : string) (root provided : option string) :
  exists added,
    grows_by history
             (runSinglePhase h history projectPath phase root provided)
             added.
Proof.
  unfold runSinglePhase, grows_by.
  destruct (parse_phase phase) as [p|] eqn:Hp.
  - destruct (phase_findings h history projectPath p) as [text | e].
    + eexists [_]. cbn [fst snd content isError].
      split; [reflexivity |]. split; [reflexivity |].
      split; [rewrite length_app; cbn [List.length]; lia |].
      eexists. split; [reflexivity |]. cbn [Types.phase Types.findings].
      split; [apply parse_phase_name, Hp | reflexivity].
    + exists []. cbn [fst snd]. rewrite app_nil_r. auto.
  - exists []. cbn [fst snd]. rewrite app_nil_r. auto.
Qed.

Lemma processCodebaseAnalysis_grows (h : Host) (history : History)
      (input : Input) :
  exists added,
    grows_by history (processCodebaseAnalysis h history input) added.
Proof.
  unfold processCodebaseAnalysis.
  assert (Hfail : forall message,
             exists added,
               grows_by history (Returned (failure message), history) added).
  { intros message. exists []. unfold grows_by.
    cbn [fst snd content failure isError]. rewrite app_nil_r. auto. }
  destruct input as [|path_arg phase_arg]; [apply Hfail |].
  destruct (String.eqb _ _ || negb _); [apply Hfail |].
  destruct (negb (String.eqb (or_default phase_arg "all") "all"));
    [apply runSinglePhase_grows |].
  match goal with
  | |- context [run_phases h ?path phaseOrder 0 EmptyString history] =>
      destruct (run_phases_grows h path phaseOrder 0 EmptyString history)
        as (added & Hsnd & _ & Hfst);
      destruct (run_phases h path phaseOrder 0 EmptyString history)
        as [[report | e] history']
  end; cbn [fst snd] in Hsnd, Hfst; subst history'; exists added;
    unfold grows_by; cbn [fst snd content failure isError].
  - split; [reflexivity |]. split; [reflexivity |].
    split; [| exact Hfst].
    rewrite length_app, <- (length_map Types.phase added), Hfst.
    cbn [phaseOrder List.length]. lia.
  - split; [reflexivity |]. split; [reflexivity |].
    destruct Hfst as (rest & Hrest). unfold phaseOrder in Hrest.
    destruct (map Types.phase added) as [|p1 [|p2 [|p3 l]]] eqn:Hm;
      cbn [app] in Hrest.
    + discriminate.
    + discriminate.
    + inversion Hrest; subst. right. reflexivity.
    + injection Hrest as _ _ _ Hlast.
      destruct l as [|x l]; [discriminate |]. destruct l; discriminate.
Qed.

(** X14: a call never removes or changes a record of the history; it adds
    one record when a single phase returns, four (one per phase, in
    order) when the comprehensive run returns, none when its promise is
    rejected, and none or the first two when it answers with a failure.
    The history length it reports is the length after the call. *)
Theorem history_only_grows (h : Host) (history : History) (input : Input) :
  exists added,
    snd (processCodebaseAnalysis h history input) = history ++ added
    /\ match fst (processCodebaseAnalysis h history input) with
       | Thrown _ => added = []
       | Returned response =>
           match content response with
           | PhaseResult phase _ _ _ text _ n _ =>
               isError response = false
               /\ n = S (List.length history)
               /\ exists entry,
                    added = [entry]
                    /\ phase_name (Types.phase entry) = phase
                    /\ Types.findings entry = text
           | Comprehensive _ _ _ _ _ n _ =>
               isError response = false
               /\ n = 4 + List.length history
               /\ map Types.phase added = phaseOrder
           | Failed _ _ =>
               isError response = true
               /\ (added = []
                   \/ map Types.phase added = [conceptual; structural])
           end
       end.
Proof.
  destruct (processCodebaseAnalysis_grows h history input) as (added & H).
  exists added. exact H.
Qed.

Lemma callTool_grows (h : Host) (history : History) (request : Request) :
  exists added,
    snd (callTool h history request) = history ++ added
    /\ List.length added <= 4.
Proof.
  unfold callTool.
  destruct (String.eqb (tool request) "analyze_codebase").
  - destruct (processCodebaseAnalysis_grows h history (arguments request))
      as (added & Hsnd & Hfst).
    destruct (processCodebaseAnalysis h history (arguments request))
      as [[response | e] history'];
      cbn [fst snd] in Hsnd, Hfst |- *; exists added;
      (split; [exact Hsnd |]).
    + destruct (content response).
      * destruct Hfst as (_ & _ & entry & -> & _). cbn [List.length]. lia.
      * destruct Hfst as (_ & _ & Hm).
        rewrite <- (length_map Types.phase), Hm. cbn [phaseOrder List.length].
        lia.
      * destruct Hfst as (_ & [-> | Hm]); [cbn [List.length]; lia |].
        rewrite <- (length_map Types.phase), Hm. cbn [List.length]. lia.
    + subst added. cbn [List.length]. lia.
  - exists []. cbn [snd List.length]. rewrite app_nil_r. split; [auto | lia].
Qed.

(** X15: over any sequence of tool calls that one server handles one
    after another, the history keeps every record it had, in place, and
    grows by at most four records a call; a call to a tool with another
    name changes nothing. *)
Theorem session_history_is_append_only (h : Host) (requests : list Request)
        (history : History) :
  (exists added,
     serve h history requests = history ++ added
     /\ List.length added <= 4 * List.length requests)
  /\ (forall request,
        tool request <> "analyze_codebase" ->
        callTool h history request
        = (Returned (UnknownTool ("Unknown tool: " ++ tool request)),
           history)).
Proof.
  split.
  - revert history. induction requests as [|request more IH]; intros history.
    + exists []. cbn [serve List.length]. rewrite app_nil_r.
      split; [reflexivity | lia].
    + cbn [serve].
      destruct (callTool_grows h history request) as (a1 & Hs & Hl).
      rewrite Hs. destruct (IH (history ++ a1)) as (a2 & Hs2 & Hl2).
      exists (a1 ++ a2). rewrite Hs2, app_assoc.
      split; [reflexivity |].
      rewrite length_app. cbn [List.length]. lia.
  - intros request Hne. unfold callTool.
    destruct (String.eqb_spec (tool request) "analyze_codebase");
      [contradiction | reflexivity].
Qed.

End SessionFacts.

(** ** The analysis of a project *)

Module ProjectFacts.
Import JsString Regex Types CodeAnalyzer FileSystem ReportGenerator Server.
Import Fixtures Spec Vocabulary MoreFixtures.
Local Open Scope list_scope.

(** The loop over readable files adds, field by field, what each file
    gives. *)
Lemma analyze_files_fields (f : Fs) (root : Path) (codeFiles : list Path) :
  forallb (readable f) codeFiles = true ->
  forall a,
    let result := fst (analyze_files f root codeFiles a) in
    dependencies result = dependencies a ++ flat_map (imports_of f) codeFiles
    /\ entryPoints result
       = entryPoints a ++ flat_map (entry_of f root) codeFiles
    /\ patterns result = patterns a ++ flat_map (idioms_of f root) codeFiles
    /\ architecture result
       = architecture a ++ flat_map (roles_of f root) codeFiles
    /\ fileContents result
       = fileContents a ++ flat_map (record_of f root) codeFiles.
Proof.
  induction codeFiles as [|p more IH]; intros H a.
  - cbn [analyze_files flat_map fst]. rewrite !app_nil_r. auto.
  - apply AnalyzerFacts.forallb_step in H. destruct H as [Hp Hmore].
    cbn zeta. rewrite AnalyzerFacts.analyze_files_cons.
    rewrite !AnalyzerFacts.flat_map_step.
    unfold readable in Hp.
    unfold imports_of at 1, entry_of at 1, idioms_of at 1, roles_of at 1,
      record_of at 1.
    destruct (readFileSync f p) as [text|]; [| discriminate].
    destruct (IH Hmore (analyze_file root p text a))
      as (Hd & He & Hi & Hr & Hc).
    rewrite Hd, He, Hi, Hr, Hc.
    unfold analyze_file.
    cbn [dependencies entryPoints patterns architecture fileContents].
    rewrite <- !app_assoc. auto.
Qed.

Lemma record_of_lines (f : Fs) (root : Path) (files : list Path) :
  Forall (fun r => (1 <= lines r)%Z) (flat_map (record_of f root) files).
Proof.
  induction files as [|p files IH]; [constructor |].
  rewrite AnalyzerFacts.flat_map_step. apply Forall_app. split; [| exact IH].
  unfold record_of. destruct (readFileSync f p) as [text|]; [| constructor].
  constructor; [| constructor]. cbn [lines]. unfold split_lines.
  destruct (AscentFacts.split_on_cons "010"%char text) as (w & ws & ->).
  cbn [List.length]. lia.
Qed.

Lemma at_least_one_each (records : list FileContent) :
  Forall (fun r => (1 <= lines r)%Z) records ->
  (Z.of_nat (List.length records)
   <= fold_right Z.add 0%Z (map lines records))%Z.
Proof.
  induction 1 as [|r records Hr _ IH]; cbn [List.length map fold_right]; lia.
Qed.

Lemma record_of_count (f : Fs) (root : Path) (files : list Path) :
  forallb (readable f) files = true ->
  List.length (flat_map (record_of f root) files) = List.length files.
Proof.
  induction files as [|p files IH]; intros H; [reflexivity |].
  apply AnalyzerFacts.forallb_step in H. destruct H as [Hp Hmore].
  rewrite AnalyzerFacts.flat_map_step, length_app, (IH Hmore).
  unfold readable in Hp. unfold record_of.
  destruct (readFileSync f p); [reflexivity | discriminate].
Qed.

Lemma readable_gives_summary (h : Host) (projectPath : string) :
  forallb (readable (fs h))
          (findCodeFiles (fs h) (resolve (cwd h) projectPath)) = true ->
  exists summary,
    codeStructure (analyzeCodeFiles h projectPath) = Some summary.
Proof.
  intros H. rewrite AnalyzerFacts.analyzeCodeFiles_unfold. cbn zeta.
  rewrite (AnalyzerFacts.analyze_files_completes _ _ _ _ H).
  unfold aggregate. destruct (buildCodeStructureMap _) as [built sorted].
  exists built. reflexivity.
Qed.

(** X16: when every code file that is found can be read, the analysis is the
    sum of its files: each of the four tag lists is what the files give,
    in file order, without repetitions; the file records are those of
    the files, largest first; the summary counts every file that was
    found, and at least one line for each. *)
Theorem analysis_of_a_readable_project (h : Host) (projectPath : string) :
  let root := resolve (cwd h) projectPath in
  let files := findCodeFiles (fs h) root in
  let result := analyzeCodeFiles h projectPath in
  forallb (readable (fs h)) files = true ->
  dependencies result = dedup (flat_map (imports_of (fs h)) files)
  /\ entryPoints result = dedup (flat_map (entry_of (fs h) root) files)
  /\ patterns result = dedup (flat_map (idioms_of (fs h) root) files)
  /\ architecture result = dedup (flat_map (roles_of (fs h) root) files)
  /\ fileContents result
     = sort_by_lines (flat_map (record_of (fs h) root) files)
  /\ exists summary,
       codeStructure result = Some summary
       /\ totalFiles summary = List.length files
       /\ (Z.of_nat (List.length files) <= totalLines summary)%Z.
Proof.
  intros root files result Hread. unfold result.
  rewrite AnalyzerFacts.analyzeCodeFiles_unfold. fold root. fold files.
  rewrite (AnalyzerFacts.analyze_files_completes _ _ _ _ Hread).
  destruct (analyze_files_fields (fs h) root files Hread empty_analysis)
    as (Hd & He & Hi & Hr & Hc).
  cbn [empty_analysis dependencies entryPoints patterns architecture
       fileContents app] in Hd, He, Hi, Hr, Hc.
  unfold aggregate.
  pose proof (AggregatorFacts.totalLines_is_sum
                (fileContents (fst (analyze_files (fs h) root files
                                                  empty_analysis)))) as Ht.
  assert (Hn : totalFiles
                 (fst (buildCodeStructureMap
                         (fileContents
                            (fst (analyze_files (fs h) root files
                                                empty_analysis)))))
               = List.length
                   (fileContents
                      (fst (analyze_files (fs h) root files
                                          empty_analysis))))
    by reflexivity.
  assert (Hs : snd (buildCodeStructureMap
                      (fileContents
                         (fst (analyze_files (fs h) root files
                                             empty_analysis))))
               = sort_by_lines
                   (fileContents
                      (fst (analyze_files (fs h) root files
                                          empty_analysis))))
    by reflexivity.
  destruct (buildCodeStructureMap _) as [built sorted].
  cbn [fst snd] in Ht, Hn, Hs.
  cbn [dependencies entryPoints patterns architecture fileContents
       codeStructure].
  rewrite Hd, He, Hi, Hr, Hs, Hc.
  split; [reflexivity |]. split; [reflexivity |]. split; [reflexivity |].
  split; [reflexivity |]. split; [reflexivity |].
  exists built. split; [reflexivity |].
  rewrite Hn, Ht, Hc.
  rewrite <- (record_of_count (fs h) root files Hread) at 2.
  split; [apply record_of_count, Hread |].
  apply at_least_one_each, record_of_lines.
Qed.

Lemma analysis_of_a_readable_project_witness :
  forallb (readable (fs (table_host twice)))
          (findCodeFiles (fs (table_host twice))
                         (resolve (cwd (table_host twice)) "/proj"))
  = true
  /\ dependencies (analyzeCodeFiles (table_host twice) "/proj")
     = dedup (flat_map (imports_of (fs (table_host twice)))
                       (findCodeFiles (fs (table_host twice))
                          (resolve (cwd (table_host twice)) "/proj"))).
Proof.
  assert (Hread : forallb (readable (fs (table_host twice)))
                    (findCodeFiles (fs (table_host twice))
                       (resolve (cwd (table_host twice)) "/proj"))
                  = true) by (vm_compute; reflexivity).
  split; [exact Hread |].
  exact (proj1 (analysis_of_a_readable_project (table_host twice) "/proj"
                  Hread)).
Defined.

Lemma analyze_files_stops (f : Fs) (root : Path) (codeFiles : list Path) :
  forallb (readable f) codeFiles = false ->
  forall a, snd (analyze_files f root codeFiles a) = false.
Proof.
  induction codeFiles as [|p more IH]; intros H a; [discriminate |].
  rewrite AnalyzerFacts.analyze_files_cons.
  cbn [forallb] in H. unfold readable at 1 in H.
  destruct (readFileSync f p); [| reflexivity].
  apply IH. exact H.
Qed.

Lemma unreadable_leaves_no_summary (h : Host) (projectPath : string) :
  forallb (readable (fs h))
          (findCodeFiles (fs h) (resolve (cwd h) projectPath)) = false ->
  codeStructure (analyzeCodeFiles h projectPath) = None.
Proof.
  intros H. rewrite AnalyzerFacts.analyzeCodeFiles_unfold. cbn zeta.
  rewrite (analyze_files_stops _ _ _ H).
  rewrite AnalyzerFacts.analyze_files_structure. reflexivity.
Qed.

(** X17: one code file that is found but cannot be read makes the analysis
    phase fail: asked for alone, the promise of the call is rejected and
    the history stays as it was; in the comprehensive run the call
    answers with a failure after the conceptual and structural records
    have been added to the history. *)
Theorem unreadable_file_fails_the_analysis (h : Host) (history : History)
        (providedPath : string) :
  let projectPath := findRepositoryRoot (fs h) (cwd h) providedPath in
  let message :=
    "Cannot read properties of undefined (reading 'toLocaleString')" in
  String.eqb providedPath EmptyString = false ->
  existsSync (fs h) (resolve (cwd h) providedPath) = true ->
  forallb (readable (fs h))
          (findCodeFiles (fs h) (resolve (cwd h) projectPath)) = false ->
  processCodebaseAnalysis h history
                          (Arguments (Some providedPath) (Some "analysis"))
  = (Thrown message, history)
  /\ exists first second,
       processCodebaseAnalysis h history (Arguments (Some providedPath) None)
       = (Returned (failure message), history ++ [first; second])
       /\ phase first = conceptual /\ phase second = structural.
Proof.
  intros projectPath message Hpath Hexists Hread.
  pose proof (unreadable_leaves_no_summary h projectPath Hread) as Hnone.
  assert (H3 : forall hist,
             phase_findings h hist projectPath analysis = Thrown message).
  { intros hist. cbn [phase_findings]. unfold processPhase3.
    rewrite Hnone. reflexivity. }
  split.
  - unfold processCodebaseAnalysis.
    rewrite ServerFacts.or_default_path. cbn [or_default].
    rewrite Hpath, Hexists.
    change (negb (String.eqb "analysis" "all")) with true.
    cbn [negb orb]. fold projectPath.
    unfold runSinglePhase.
    change (parse_phase "analysis") with (Some analysis).
    cbv beta iota. rewrite H3. reflexivity.
  - unfold processCodebaseAnalysis.
    rewrite ServerFacts.or_default_path. cbn [or_default].
    rewrite Hpath, Hexists.
    change (negb (String.eqb "all" "all")) with false.
    cbn [negb orb]. fold projectPath.
    unfold phaseOrder.
    rewrite (SessionFacts.run_phases_returned h projectPath conceptual
               _ _ _ _ _ eq_refl).
    rewrite (SessionFacts.run_phases_returned h projectPath structural
               _ _ _ _ _ eq_refl).
    rewrite SessionFacts.run_phases_cons, H3.
    eexists. eexists. rewrite <- app_assoc. cbn [app].
    split; [reflexivity |]. split; reflexivity.
Qed.

Lemma unreadable_file_fails_the_analysis_witness :
  existsSync (fs (unreadable twice)) (resolve (cwd (unreadable twice)) "/proj")
  = true
  /\ findCodeFiles (fs (unreadable twice)) ["proj"]
     = [["proj"; "package.json"]; ["proj"; "lib.js"]]
  /\ processCodebaseAnalysis (unreadable twice) []
                             (Arguments (Some "/proj") (Some "analysis"))
     = (Thrown
          "Cannot read properties of undefined (reading 'toLocaleString')",
        []).
Proof.
  assert (H1 : String.eqb "/proj" EmptyString = false) by reflexivity.
  assert (H2 : existsSync (fs (unreadable twice))
                          (resolve (cwd (unreadable twice)) "/proj") = true)
    by (vm_compute; reflexivity).
  assert (H3 : forallb (readable (fs (unreadable twice)))
                 (findCodeFiles (fs (unreadable twice))
                    (resolve (cwd (unreadable twice))
                       (findRepositoryRoot (fs (unreadable twice))
                          (cwd (unreadable twice)) "/proj")))
               = false) by (vm_compute; reflexivity).
  split; [exact H2 |].
  split; [vm_compute; reflexivity |].
  exact (proj1 (unreadable_file_fails_the_analysis (unreadable twice) []
                  "/proj" H1 H2 H3)).
Defined.

End ProjectFacts.

(** ** Document summaries *)

Module SummaryLineFacts.
Import JsString Regex Types FileSystem ReportGenerator Spec Vocabulary.
Local Open Scope list_scope.

Lemma length_append (a b : string) :
  String.length (a ++ b) = String.length a + String.length b.
Proof. induction a as [|c a IH]; cbn [append String.length]; lia. Qed.

Lemma count_char_append (c : ascii) (a b : string) :
  count_char c (a ++ b) = count_char c a + count_char c b.
Proof.
  induction a as [|x a IH]; cbn [append count_char]; [reflexivity |].
  rewrite IH. lia.
Qed.

Lemma substring_bounds (c : ascii) (m : nat) :
  forall s,
    String.length (substring 0 m s) <= m
    /\ count_char c (substring 0 m s) <= count_char c s.
Proof.
  induction m as [|m IH]; intros s.
  - destruct s; cbn [substring String.length count_char]; lia.
  - destruct s as [|x s]; cbn [substring String.length count_char];
      [lia |].
    destruct (IH s). lia.
Qed.

Lemma trimStart_count (c : ascii) (s : string) :
  count_char c (trimStart s) <= count_char c s.
Proof.
  induction s as [|x s IH]; cbn [trimStart]; [lia |].
  destruct (is_space x); cbn [count_char]; lia.
Qed.

Lemma rev_onto_count (c : ascii) (s acc : string) :
  count_char c (rev_onto s acc) = count_char c s + count_char c acc.
Proof.
  revert acc; induction s as [|x s IH]; intros acc; cbn [rev_onto count_char];
    [reflexivity |].
  rewrite IH. cbn [count_char]. lia.
Qed.

Lemma trim_count (c : ascii) (s : string) :
  count_char c (trim s) <= count_char c s.
Proof.
  unfold trim, trimEnd, rev_string.
  rewrite rev_onto_count. cbn [count_char].
  pose proof (trimStart_count c (rev_onto (trimStart s) EmptyString)) as H.
  rewrite rev_onto_count in H. cbn [count_char] in H.
  pose proof (trimStart_count c s). lia.
Qed.

Lemma in_take {A} (n : nat) (l : list A) (x : A) :
  In x (take n l) -> In x l.
Proof.
  unfold take. revert l; induction n as [|n IH]; intros l H;
    [destruct H |].
  destruct l as [|y l]; [destruct H |].
  destruct H as [-> | H]; [left; reflexivity | right; apply IH, H].
Qed.

(** X18: the summary of a document is a single line of at most 103
    characters: at most 100 of the chosen line, and three dots. *)
Theorem summary_is_one_short_line (content filename : string) :
  String.length (summarizeDocument content filename) <= 103
  /\ count_char "010"%char (summarizeDocument content filename) = 0.
Proof.
  unfold summarizeDocument.
  set (lines := take 10 (split_lines content)).
  set (firstParagraph :=
         match find (fun line => (20 <? String.length (trim line))%nat) lines
         with Some line => line | None => hd EmptyString lines end).
  assert (Hlines : Forall (fun w => count_char "010"%char w = 0) lines).
  { unfold lines, split_lines.
    pose proof (AscentFacts.split_on_free "010"%char content) as H.
    rewrite Forall_forall in H |- *. intros w Hw. apply H.
    apply (in_take 10). exact Hw. }
  assert (Hfirst : count_char "010"%char firstParagraph = 0).
  { unfold firstParagraph.
    destruct (find _ lines) as [line|] eqn:Hf.
    - apply find_some in Hf. rewrite Forall_forall in Hlines.
      apply Hlines, Hf.
    - destruct Hlines; [reflexivity | assumption]. }
  unfold slice_to.
  destruct (substring_bounds "010"%char
              (Nat.min 100 (String.length (trim firstParagraph)))
              (trim firstParagraph)) as [Hlen Hcount].
  pose proof (trim_count "010"%char firstParagraph) as Htrim.
  rewrite length_append, count_char_append.
  destruct (100 <? String.length firstParagraph)%nat;
    cbn [String.length count_char Ascii.eqb Bool.eqb]; lia.
Qed.

End SummaryLineFacts.

(** ** The reports *)

Module GroupFacts.
Import JsString Regex Types CodeAnalyzer FileSystem ReportGenerator Server.
Import Fixtures Spec Vocabulary MoreFixtures.
Local Open Scope list_scope.

Lemma type_name_inj (t1 t2 : ElementType) :
  String.eqb (type_name t1) (type_name t2) = true -> t1 = t2.
Proof. destruct t1, t2; (reflexivity || discriminate). Qed.

Lemma type_name_same (t1 t2 : ElementType) :
  String.eqb (type_name t1) (type_name t2) = false -> t1 <> t2.
Proof. intros H ->. rewrite String.eqb_refl in H. discriminate. Qed.

Lemma add_to_group_keys (e : CodeElement)
      (acc : list (ElementType * list CodeElement)) (t : ElementType) :
  In t (map fst (add_to_group e acc)) <-> In t (map fst acc) \/ t = type e.
Proof.
  induction acc as [|[t' es] acc IH]; cbn [add_to_group map fst In].
  - intuition congruence.
  - destruct (String.eqb (type_name t') (type_name (type e))) eqn:E;
      cbn [map fst In].
    + apply type_name_inj in E. intuition congruence.
    + rewrite IH. tauto.
Qed.

Lemma add_to_group_NoDup (e : CodeElement)
      (acc : list (ElementType * list CodeElement)) :
  NoDup (map fst acc) -> NoDup (map fst (add_to_group e acc)).
Proof.
  induction acc as [|[t' es] acc IH]; cbn [add_to_group map fst]; intros H.
  - constructor; [intros [] | constructor].
  - inversion H as [|? ? Hn Hacc]; subst.
    destruct (String.eqb (type_name t') (type_name (type e))) eqn:E;
      cbn [map fst]; [exact H |].
    constructor; [| apply IH, Hacc].
    intros Hin. apply add_to_group_keys in Hin.
    destruct Hin as [Hin | ->]; [contradiction |].
    rewrite String.eqb_refl in E. discriminate.
Qed.

Lemma add_to_group_members (e : CodeElement) (t : ElementType)
      (acc : list (ElementType * list CodeElement)) :
  members_of t (add_to_group e acc)
  = members_of t acc ++ (if of_type t e then [e] else []).
Proof.
  unfold of_type.
  induction acc as [|[t' es] acc IH]; cbn [add_to_group members_of].
  - rewrite (String.eqb_sym (type_name (type e))).
    destruct (String.eqb (type_name t) (type_name (type e))); reflexivity.
  - destruct (String.eqb (type_name t') (type_name (type e))) eqn:E;
      cbn [members_of].
    + apply type_name_inj in E. subst t'.
      rewrite (String.eqb_sym (type_name (type e))).
      destruct (String.eqb (type_name t) (type_name (type e)));
        [reflexivity | rewrite app_nil_r; reflexivity].
    + destruct (String.eqb (type_name t') (type_name t)) eqn:E';
        [| exact IH].
      apply type_name_inj in E'. subst t'. rewrite E, app_nil_r.
      reflexivity.
Qed.

Lemma add_to_group_nonempty (e : CodeElement)
      (acc : list (ElementType * list CodeElement)) :
  Forall (fun g => snd g <> []) acc ->
  Forall (fun g => snd g <> []) (add_to_group e acc).
Proof.
  induction 1 as [|[t' es] acc Hg Hacc IH]; cbn [add_to_group].
  - constructor; [discriminate | constructor].
  - destruct (String.eqb (type_name t') (type_name (type e))).
    + constructor; [| assumption]. cbn [snd]. destruct es; discriminate.
    + constructor; assumption.
Qed.

Lemma members_of_in (t : ElementType) (es : list CodeElement)
      (groups : list (ElementType * list CodeElement)) :
  NoDup (map fst groups) -> In (t, es) groups -> members_of t groups = es.
Proof.
  induction groups as [|[t' es'] groups IH]; intros Hnd Hin;
    [destruct Hin |].
  cbn [map fst] in Hnd. inversion Hnd as [|? ? Hn Hg]; subst.
  cbn [members_of]. destruct Hin as [Heq | Hin].
  - inversion Heq; subst. rewrite String.eqb_refl. reflexivity.
  - destruct (String.eqb (type_name t') (type_name t)) eqn:E;
      [| apply IH; assumption].
    apply type_name_inj in E. subst t'. exfalso. apply Hn.
    apply (in_map fst) in Hin. exact Hin.
Qed.

Lemma grouping_invariant (elements : list CodeElement) :
  forall acc,
    NoDup (map fst acc) -> Forall (fun g => snd g <> []) acc ->
    let groups := fold_left (fun acc e => add_to_group e acc) elements acc in
    NoDup (map fst groups)
    /\ Forall (fun g => snd g <> []) groups
    /\ (forall t, members_of t groups
                  = members_of t acc ++ filter (of_type t) elements)
    /\ (forall t, In t (map fst groups)
                  <-> In t (map fst acc) \/ In t (map type elements)).
Proof.
  induction elements as [|e elements IH]; intros acc Hnd Hne;
    cbn [fold_left filter map In].
  - split; [exact Hnd |]. split; [exact Hne |].
    split; [intros t; rewrite app_nil_r; reflexivity | tauto].
  - destruct (IH (add_to_group e acc) (add_to_group_NoDup e acc Hnd)
                (add_to_group_nonempty e acc Hne))
      as (H1 & H2 & H3 & H4).
    split; [exact H1 |]. split; [exact H2 |]. split.
    + intros t. rewrite H3, add_to_group_members, <- app_assoc.
      destruct (of_type t e); reflexivity.
    + intros t. rewrite H4, add_to_group_keys. intuition congruence.
Qed.

(** X19: the code elements are shown in groups, one for each type that
    occurs: no type has two groups, no group is empty, and the group of
    a type holds exactly the elements of that type, in the order in
    which they were found. *)
Theorem elements_grouped_by_type (elements : list CodeElement) :
  let groups := elementsByType elements in
  NoDup (map fst groups)
  /\ (forall t, In t (map fst groups) <-> In t (map type elements))
  /\ forall t es, In (t, es) groups ->
       es = filter (of_type t) elements /\ es <> [].
Proof.
  destruct (grouping_invariant elements [] (NoDup_nil _) (Forall_nil _))
    as (H1 & H2 & H3 & H4).
  cbn zeta in *. fold (elementsByType elements) in *.
  split; [exact H1 |]. split.
  - intros t. rewrite H4. cbn [map In]. tauto.
  - intros t es Hin. split.
    + rewrite <- (members_of_in t es _ H1 Hin), H3. reflexivity.
    + rewrite Forall_forall in H2. apply (H2 _ Hin).
Qed.

End GroupFacts.

Module ReportTextFacts.
Import JsString Regex Types CodeAnalyzer FileSystem ReportGenerator Server.
Import Fixtures Spec Vocabulary MoreFixtures.
Local Open Scope list_scope.

Lemma find_app_found {A} (g : A -> bool) (l1 l2 : list A) (x : A) :
  find g l1 = Some x -> find g (l1 ++ l2) = Some x.
Proof.
  induction l1 as [|y l1 IH]; cbn [find app]; [discriminate |].
  destruct (g y); [auto | exact IH].
Qed.

Lemma findings_of_older (p : Phase) (old new : list CodebaseAnalysis) :
  findings_of p old <> None ->
  findings_of p (old ++ new) = findings_of p old.
Proof.
  unfold findings_of. intros H.
  destruct (find _ old) as [a|] eqn:E; [| congruence].
  rewrite (find_app_found _ old new a E). reflexivity.
Qed.

(** X20: the summary of the final report is made from the oldest conceptual,
    structural and analysis records of the history: once the history
    holds one of each, the records a later run adds do not change the
    report, apart from the findings it quotes and the number of records
    it counts. *)
Theorem report_reads_the_oldest_records
        (isoNow projectPath allPhaseFindings : string)
        (old new1 new2 : list CodebaseAnalysis) :
  findings_of conceptual old <> None ->
  findings_of structural old <> None ->
  findings_of analysis old <> None ->
  List.length new1 = List.length new2 ->
  generateComprehensiveReport isoNow projectPath allPhaseFindings
                              (old ++ new1)
  = generateComprehensiveReport isoNow projectPath allPhaseFindings
                                (old ++ new2).
Proof.
  intros Hc Hs Ha Hlen. unfold generateComprehensiveReport.
  rewrite !(findings_of_older conceptual old) by exact Hc.
  rewrite !(findings_of_older structural old) by exact Hs.
  rewrite !(findings_of_older analysis old) by exact Ha.
  rewrite !length_app, Hlen. reflexivity.
Qed.

Lemma report_reads_the_oldest_records_witness :
  generateComprehensiveReport "2025-08-06T00:00:00.000Z" "/proj" "text"
    (first_run ++ [noted structural "package.json"])
  = generateComprehensiveReport "2025-08-06T00:00:00.000Z" "/proj" "text"
      (first_run ++ [noted structural "Cargo.toml"]).
Proof.
  apply (report_reads_the_oldest_records
           "2025-08-06T00:00:00.000Z" "/proj" "text" first_run
           [noted structural "package.json"]
           [noted structural "Cargo.toml"]).
  - vm_compute. discriminate.
  - vm_compute. discriminate.
  - vm_compute. discriminate.
  - reflexivity.
Defined.

End ReportTextFacts.


Module ProjectTypeFacts.
Import JsString Regex Types CodeAnalyzer FileSystem ReportGenerator Server.
Import Fixtures Spec Vocabulary MoreFixtures.
Local Open Scope list_scope.

Lemma includes_joined (p x y r : string) :
  includes (p ++ (x ++ y) ++ r) (p ++ x) = true.
Proof.
  apply IncludesFacts.includes_here.
  rewrite !IncludesFacts.append_assoc, <- IncludesFacts.append_assoc.
  apply IncludesFacts.prefix_append.
Qed.

(** The structural findings name the Node.js project when the listing
    shows a package.json. *)
Lemma structure_names_node (projectPath structure : string) :
  includes structure "package.json" = true ->
  includes (processPhase2 projectPath structure) "Node.js/JavaScript" = true.
Proof.
  intros H. unfold processPhase2. rewrite H.
  do 15 apply IncludesFacts.includes_skip.
  apply IncludesFacts.includes_prepend. vm_compute. reflexivity.
Qed.

Lemma structure_quotes_listing (projectPath structure w : string) :
  includes structure w = true ->
  includes (processPhase2 projectPath structure) w = true.
Proof.
  intros H. unfold processPhase2.
  do 7 apply IncludesFacts.includes_skip.
  apply IncludesFacts.includes_prepend. exact H.
Qed.

Lemma report_says_node (isoNow projectPath allPhaseFindings : string)
      (analysisHistory : list CodebaseAnalysis) :
  mentions (findings_of structural analysisHistory) "Node.js/JavaScript"
  = true ->
  includes (generateComprehensiveReport isoNow projectPath allPhaseFindings
                                        analysisHistory)
           "**Project Type:** Node.js/TypeScript Application" = true.
Proof.
  intros H. unfold generateComprehensiveReport. rewrite H.
  do 19 apply IncludesFacts.includes_skip.
  apply (includes_joined "**Project Type:** "
                         "Node.js/TypeScript Application" nl).
Qed.

(** X21: a comprehensive run on a fresh server, over a project whose code
    files can all be read and whose listing shows a package.json,
    answers with a report that gives the project type as a Node.js
    application, and leaves four records in the history. *)
Theorem node_project_is_reported (h : Host)
        (providedPath stdout : string) :
  let projectPath := findRepositoryRoot (fs h) (cwd h) providedPath in
  String.eqb providedPath EmptyString = false ->
  existsSync (fs h) (resolve (cwd h) providedPath) = true ->
  forallb (readable (fs h))
          (findCodeFiles (fs h) (resolve (cwd h) projectPath)) = true ->
  listing h projectPath = Some stdout ->
  includes stdout "package.json" = true ->
  exists root provided report history,
    processCodebaseAnalysis h [] (Arguments (Some providedPath) None)
    = (Returned
         {| content :=
              Comprehensive projectPath root provided report false 4
                            ["conceptual"; "structural"; "analysis";
                             "synthesis"];
            isError := false |},
       history)
    /\ map phase history = phaseOrder
    /\ includes report "**Project Type:** Node.js/TypeScript Application"
       = true.
Proof.
  intros projectPath Hpath Hexists Hread Hlisting Hpkg.
  destruct (ProjectFacts.readable_gives_summary h projectPath Hread)
    as (summary & Hsummary).
  assert (H2 : forall hist,
             phase_findings h hist projectPath structural
             = Returned (processPhase2 projectPath stdout)).
  { intros hist. cbn [phase_findings]. unfold getProjectStructure.
    rewrite Hlisting. reflexivity. }
  assert (H3 : forall hist,
             exists text,
               phase_findings h hist projectPath analysis = Returned text).
  { intros hist. cbn [phase_findings]. unfold processPhase3.
    rewrite Hsummary. eexists. reflexivity. }
  unfold processCodebaseAnalysis.
  rewrite ServerFacts.or_default_path. cbn [or_default].
  rewrite Hpath, Hexists.
  change (negb (String.eqb "all" "all")) with false.
  cbn [negb orb]. fold projectPath.
  unfold phaseOrder.
  rewrite (SessionFacts.run_phases_returned h projectPath conceptual
             _ _ _ _ _ eq_refl).
  rewrite (SessionFacts.run_phases_returned h projectPath structural
             _ _ _ _ _ (H2 _)).
  match goal with
  | |- context [run_phases h projectPath (analysis :: _) _ _ ?hist] =>
      destruct (H3 hist) as (text & Htext)
  end.
  rewrite (SessionFacts.run_phases_returned h projectPath analysis
             _ _ _ _ _ Htext).
  rewrite (SessionFacts.run_phases_returned h projectPath synthesis
             _ _ _ _ _ eq_refl).
  cbn [run_phases app List.length map phase_name].
  do 4 eexists. split; [reflexivity |]. split; [reflexivity |].
  apply report_says_node.
  match goal with
  | |- mentions ?found _ = true =>
      change found with (Some (processPhase2 projectPath stdout))
  end.
  cbn [mentions]. apply structure_names_node, Hpkg.
Qed.

Lemma node_project_is_reported_witness :
  listing (listed twice "package.json")
          (findRepositoryRoot (fs (listed twice "package.json"))
                              (cwd (listed twice "package.json")) "/proj")
  = Some "package.json"
  /\ exists root provided report history,
       processCodebaseAnalysis (listed twice "package.json") []
                               (Arguments (Some "/proj") None)
       = (Returned
            {| content :=
                 Comprehensive
                   (findRepositoryRoot (fs (listed twice "package.json"))
                      (cwd (listed twice "package.json")) "/proj")
                   root provided report false 4
                   ["conceptual"; "structural"; "analysis"; "synthesis"];
               isError := false |},
          history)
       /\ map phase history = phaseOrder
       /\ includes report "**Project Type:** Node.js/TypeScript Application"
          = true.
Proof.
  assert (H1 : String.eqb "/proj" EmptyString = false) by reflexivity.
  assert (H2 : existsSync (fs (listed twice "package.json"))
                 (resolve (cwd (listed twice "package.json")) "/proj")
               = true) by (vm_compute; reflexivity).
  assert (H3 : forallb (readable (fs (listed twice "package.json")))
                 (findCodeFiles (fs (listed twice "package.json"))
                    (resolve (cwd (listed twice "package.json"))
                       (findRepositoryRoot
                          (fs (listed twice "package.json"))
                          (cwd (listed twice "package.json")) "/proj")))
               = true) by (vm_compute; reflexivity).
  assert (H4 : listing (listed twice "package.json")
                 (findRepositoryRoot (fs (listed twice "package.json"))
                    (cwd (listed twice "package.json")) "/proj")
               = Some "package.json") by reflexivity.
  assert (H5 : includes "package.json" "package.json" = true)
    by (vm_compute; reflexivity).
  split; [exact H4 |].
  exact (node_project_is_reported (listed twice "package.json") "/proj"
           "package.json" H1 H2 H3 H4 H5).
Defined.

End ProjectTypeFacts.

(** ** The complexity grade of the final report *)

Module BulletFacts.
Import JsString Regex Types CodeAnalyzer FileSystem ReportGenerator Server.
Import Fixtures Spec Vocabulary MoreFixtures.
Local Open Scope list_scope.

Lemma bullets_append (a b : string) :
  bullets a + bullets b <= bullets (a ++ b).
Proof.
  induction a as [|c a IH]; cbn [append bullets]; [lia |].
  destruct (Ascii.eqb c "-"%char); cbn [andb]; [| lia].
  destruct a as [|x a]; cbn [append next_is].
  - cbn [bullets] in *. destruct (next_is _ b); lia.
  - cbn [append] in IH. destruct (Ascii.eqb " "%char x); lia.
Qed.

Lemma bullets_skip (n : nat) (a b : string) :
  n <= bullets b -> n <= bullets (a ++ b).
Proof. pose proof (bullets_append a b). lia. Qed.

Lemma bullets_take (n : nat) (a b : string) :
  n <= bullets a -> n <= bullets (a ++ b).
Proof. pose proof (bullets_append a b). lia. Qed.

Lemma bullets_split (n m : nat) (a b : string) :
  n <= bullets a -> m <= bullets b -> n + m <= bullets (a ++ b).
Proof. pose proof (bullets_append a b). lia. Qed.

Lemma bullets_here (b : string) : 1 <= bullets ("- " ++ b).
Proof. cbn [append bullets Ascii.eqb Bool.eqb andb next_is]. lia. Qed.

(** The leftmost match of the dash-space pattern. *)
Lemma search_dash (s : string) :
  forall prev,
    match search (lit "- ") prev s with
    | None => bullets s = 0
    | Some h =>
        matched h = "- "
        /\ bullets s = S (bullets (rest h))
        /\ String.length (rest h) < String.length s
    end.
Proof.
  induction s as [|x s IH]; intros prev.
  - reflexivity.
  - assert (Hnext :
             match search (lit "- ") (Some x) s with
             | None => 0 + bullets s = 0
             | Some h =>
                 matched h = "- "
                 /\ 0 + bullets s = S (bullets (rest h))
                 /\ String.length (rest h) < String.length (String x s)
             end).
    { pose proof (IH (Some x)) as H.
      destruct (search (lit "- ") (Some x) s) as [h|]; [| exact H].
      destruct H as (Hm & Hb & Hl).
      split; [exact Hm |]. split; [exact Hb |].
      cbn [String.length]. lia. }
    cbn [search]. unfold match_here. rewrite MatcherFacts.run_lit.
    cbn [eat]. change (bullets (String x s))
      with ((if Ascii.eqb x "-"%char && next_is (Ascii.eqb " "%char) s
             then 1 else 0) + bullets s).
    rewrite (Ascii.eqb_sym x "-"%char).
    destruct (Ascii.eqb "-"%char x) eqn:Hx; cbn [andb]; [| exact Hnext].
    destruct s as [|y s]; [exact Hnext |].
    cbn [next_is].
    destruct (Ascii.eqb " "%char y) eqn:Hy; [| exact Hnext].
    apply Ascii.eqb_eq in Hx, Hy. subst x y.
    cbn [matched rest bullets Ascii.eqb Bool.eqb andb String.length].
    split; [| split; [lia | lia]].
    unfold consumed. cbn [String.length].
    replace (S (S (String.length s)) - String.length s) with 2 by lia.
    destruct s; reflexivity.
Qed.

Lemma scan_dash (fuel : nat) :
  forall s prev,
    String.length s < fuel ->
    List.length (scan fuel (lit "- ") prev s) = bullets s.
Proof.
  induction fuel as [|fuel IH]; intros s prev Hlen; [lia |].
  cbn [scan]. pose proof (search_dash s prev) as H.
  destruct (search (lit "- ") prev s) as [h|]; [| rewrite H; reflexivity].
  destruct H as (Hm & Hb & Hl). rewrite Hm, Hb.
  cbn [List.length]. rewrite IH by lia. reflexivity.
Qed.

(** The count the report grades complexity by is the number of
    dash-space places in the findings of the analysis. *)
Lemma dependencyCount_bullets (text : string) :
  dependencyCount (Some text) = bullets text.
Proof. unfold dependencyCount, match_all. apply scan_dash. lia. Qed.

Lemma render_each_first {A} (g : A -> string) (x : A) (l : list A) :
  1 <= bullets (g x) -> 1 <= bullets (render_each g (x :: l)).
Proof.
  intros H. unfold render_each. cbn [map String.concat].
  destruct (map g l); [exact H | apply bullets_take, H].
Qed.

Lemma bullet_line (s : string) : 1 <= bullets (bullet s).
Proof. unfold bullet. apply bullets_here. Qed.

Lemma structure_section_bullets (fmt : Z -> string) (cs : CodeStructure) :
  4 <= bullets (structure_section fmt cs).
Proof.
  unfold structure_section. change 4 with (1 + (1 + (1 + 1))).
  do 2 apply bullets_skip.
  apply bullets_split; [apply Nat.leb_le; reflexivity |].
  do 2 apply bullets_skip.
  apply bullets_split; [apply Nat.leb_le; reflexivity |].
  do 2 apply bullets_skip.
  apply bullets_split; [apply Nat.leb_le; reflexivity |].
  do 3 apply bullets_skip.
  apply bullets_take. apply Nat.leb_le. reflexivity.
Qed.

Lemma listed_section_bullets (title more : string) (shown : nat)
      (d : string) (l : list string) :
  1 <= bullets (when (0 <? List.length (d :: l))%nat
                     (title ++ nl
                      ++ render_each bullet (take (S shown) (d :: l))
                      ++ more)).
Proof.
  cbn [List.length Nat.ltb Nat.leb when take firstn].
  do 2 apply bullets_skip. apply bullets_take.
  apply render_each_first, bullet_line.
Qed.

Lemma dependencies_section_bullets (deps : list string) :
  1 <= bullets (dependencies_section deps).
Proof.
  unfold dependencies_section. do 2 apply bullets_skip. apply bullets_take.
  destruct deps as [|d deps]; [apply Nat.leb_le; reflexivity |].
  cbn [List.length Nat.ltb Nat.leb].
  unfold externalDeps_of, internalDeps_of. cbn [filter].
  destruct (startsWith d "."); cbn [negb].
  - apply bullets_skip. unfold internal_section.
    apply listed_section_bullets.
  - apply bullets_take. unfold external_section.
    apply listed_section_bullets.
Qed.

Lemma entry_points_section_bullets (entries : list string) :
  1 <= bullets (entry_points_section entries).
Proof.
  unfold entry_points_section. do 2 apply bullets_skip. apply bullets_take.
  destruct entries as [|e entries]; [apply Nat.leb_le; reflexivity |].
  cbn [List.length Nat.ltb Nat.leb].
  apply render_each_first.
  exact (bullets_here ("**" ++ e ++ "**" ++ nl)).
Qed.

Lemma element_group_bullets (t : ElementType) (e : CodeElement)
      (es : list CodeElement) :
  1 <= bullets (element_group (t, e :: es)).
Proof.
  unfold element_group. do 6 apply bullets_skip. apply bullets_take.
  cbn [take firstn]. apply render_each_first.
  unfold element_line.
  exact (bullets_here ("**" ++ name e ++ "**" ++ _)).
Qed.

Lemma elements_section_bullets (elements : list CodeElement) :
  1 <= bullets (elements_section elements).
Proof.
  unfold elements_section. do 2 apply bullets_skip.
  destruct elements as [|e elements]; [apply Nat.leb_le; reflexivity |].
  cbn [List.length Nat.ltb Nat.leb].
  destruct (GroupFacts.grouping_invariant (e :: elements) []
              (NoDup_nil _) (Forall_nil _)) as (_ & Hne & _ & Hin).
  cbn zeta in Hne, Hin. fold (elementsByType (e :: elements)) in Hne, Hin.
  destruct (elementsByType (e :: elements)) as [|[t es] groups].
  - exfalso. apply (proj2 (Hin (type e))). right. left. reflexivity.
  - inversion Hne as [|? ? Hes _]; subst. cbn [snd] in Hes.
    destruct es as [|x es]; [congruence |].
    apply render_each_first, element_group_bullets.
Qed.

Lemma tags_section_bullets (title none : string) (tags : list string) :
  1 <= bullets none -> 1 <= bullets (tags_section title none tags).
Proof.
  intros Hnone. unfold tags_section. do 2 apply bullets_skip.
  apply bullets_take.
  destruct tags as [|t tags]; [apply bullets_take, Hnone |].
  cbn [List.length Nat.ltb Nat.leb dedup dedup_from existsb].
  apply render_each_first, bullet_line.
Qed.

Lemma processPhase3_bullets (fmt : Z -> string) (projectPath : string)
      (result : CodeAnalysisResult) (text : string) :
  processPhase3 fmt projectPath result = Returned text ->
  9 <= bullets text.
Proof.
  unfold processPhase3.
  destruct (codeStructure result) as [cs|]; [| discriminate].
  intros H.
  assert (Hsame : forall t : string, Returned t = Returned text -> t = text)
    by (intros t Ht; injection Ht; auto).
  apply Hsame in H. subst text.
  change 9 with (4 + (1 + (1 + (1 + (1 + 1))))).
  do 3 apply bullets_skip.
  apply bullets_split; [apply structure_section_bullets |].
  apply bullets_split; [apply dependencies_section_bullets |].
  apply bullets_split; [apply entry_points_section_bullets |].
  apply bullets_split; [apply elements_section_bullets |].
  apply bullets_split;
    [apply tags_section_bullets, Nat.leb_le; reflexivity |].
  apply bullets_take.
  apply tags_section_bullets, Nat.leb_le. reflexivity.
Qed.

(** X22: the final report grades complexity by the number of dash-space
    places in the findings of the analysis phase.  Those findings always
    hold at least nine, so a report made from them never gives the grade
    Low, which needs five or fewer: it gives Medium or High. *)
Theorem complexity_grade_is_never_low (fmt : Z -> string)
        (projectPath : string) (result : CodeAnalysisResult)
        (text : string) :
  processPhase3 fmt projectPath result = Returned text ->
  9 <= dependencyCount (Some text)
  /\ forall isoNow path allPhaseFindings analysisHistory,
       findings_of analysis analysisHistory = Some text ->
       includes (generateComprehensiveReport isoNow path allPhaseFindings
                                             analysisHistory)
                "**Complexity Level:** Medium (Moderate Dependencies)"
       = true
       \/ includes (generateComprehensiveReport isoNow path allPhaseFindings
                                                analysisHistory)
                   "**Complexity Level:** High (Many Dependencies)"
          = true.
Proof.
  intros H. apply processPhase3_bullets in H.
  rewrite <- dependencyCount_bullets in H.
  split; [exact H |].
  intros isoNow path allPhaseFindings analysisHistory Hfound.
  unfold generateComprehensiveReport. rewrite Hfound.
  assert (H5 : (5 <? dependencyCount (Some text))%nat = true)
    by (apply Nat.ltb_lt; lia).
  rewrite H5.
  destruct (15 <? dependencyCount (Some text))%nat; [right | left];
    do 24 apply IncludesFacts.includes_skip.
  - apply (ProjectTypeFacts.includes_joined
             "**Complexity Level:** " "High (Many Dependencies)").
  - apply (ProjectTypeFacts.includes_joined
             "**Complexity Level:** " "Medium (Moderate Dependencies)").
Qed.

Lemma complexity_grade_is_never_low_witness :
  match processPhase3 of_Z "/proj"
                      (analyzeCodeFiles (table_host twice) "/proj") with
  | Returned text => 9 <= dependencyCount (Some text)
  | Thrown _ => False
  end.
Proof.
  destruct (processPhase3 of_Z "/proj"
              (analyzeCodeFiles (table_host twice) "/proj")) as [text | e]
    eqn:E.
  - exact (proj1 (complexity_grade_is_never_low _ _ _ _ E)).
  - vm_compute in E. discriminate.
Defined.

End BulletFacts.

(** ** Extensions of the files that are found *)

Module ExtensionFacts.
Import JsString Regex Types CodeAnalyzer FileSystem ReportGenerator Server.
Import Fixtures Spec Vocabulary MoreFixtures.
Local Open Scope list_scope.

Lemma substring_split (n : nat) :
  forall s m,
    n + m = String.length s ->
    s = (substring 0 n s ++ substring n m s)%string.
Proof.
  induction n as [|n IH]; intros s m H.
  - cbn [Nat.add] in H. subst m.
    assert (Hall : forall t, substring 0 (String.length t) t = t).
    { induction t as [|c t IHt]; [reflexivity |].
      cbn [String.length substring]. rewrite IHt. reflexivity. }
    rewrite Hall. destruct s; reflexivity.
  - destruct s as [|c s]; [discriminate |].
    cbn [String.length] in H. cbn [substring append].
    rewrite <- (IH s m) by lia. reflexivity.
Qed.

Lemma endsWith_split (s suf : string) :
  endsWith s suf = true -> exists pre, s = (pre ++ suf)%string.
Proof.
  unfold endsWith. intros H. apply andb_prop in H. destruct H as [Hle Heq].
  apply Nat.leb_le in Hle. apply String.eqb_eq in Heq.
  exists (substring 0 (String.length s - String.length suf) s).
  rewrite <- Heq at 2. apply substring_split. lia.
Qed.

Lemma last_dot_append (pre s : string) (i : nat) :
  last_dot s = Some i ->
  last_dot (pre ++ s) = Some (String.length pre + i).
Proof.
  intros H. induction pre as [|c pre IH]; cbn [append String.length last_dot].
  - exact H.
  - rewrite IH. reflexivity.
Qed.

Lemma slice_from_append (pre s : string) :
  slice_from (String.length pre) (pre ++ s) = s.
Proof.
  induction pre as [|c pre IH]; cbn [String.length append slice_from].
  - destruct s; reflexivity.
  - exact IH.
Qed.

Lemma extname_of_suffix (pre ext : string) :
  plain_extension ext = true ->
  (pre = EmptyString /\ extname_of (pre ++ ext) = EmptyString)
  \/ extname_of (pre ++ ext) = ext.
Proof.
  unfold plain_extension. intros H.
  destruct ext as [|d tail]; [discriminate |].
  apply andb_prop in H. destruct H as [H Hne].
  apply andb_prop in H. destruct H as [Hd Htail].
  apply Ascii.eqb_eq in Hd. subst d.
  destruct (last_dot tail) eqn:Hlast;
    [cbn [is_some negb] in Htail; discriminate |]. clear Htail.
  rename Hlast into Htail.
  assert (Hext : last_dot (String "."%char tail) = Some 0).
  { cbn [last_dot]. rewrite Htail. reflexivity. }
  destruct pre as [|c pre].
  - left. split; [reflexivity |]. unfold extname_of. cbn [append].
    rewrite Hext. destruct (String.eqb _ ".."); reflexivity.
  - right. unfold extname_of.
    rewrite (last_dot_append (String c pre) _ 0 Hext).
    cbn [String.length Nat.add]. rewrite Nat.add_0_r.
    change (S (String.length pre)) with (String.length (String c pre)).
    rewrite slice_from_append.
    destruct (String.eqb_spec (String c pre ++ String "."%char tail) "..")
      as [Heq | _]; [| reflexivity].
    exfalso. cbn [append] in Heq. inversion Heq as [[Hc Hrest]].
    destruct pre as [|c' pre]; cbn [append] in Hrest.
    + inversion Hrest. subst tail. discriminate Hne.
    + inversion Hrest as [[Hc' Hrest']].
      destruct pre; discriminate.
Qed.

Lemma extensions_are_plain :
  forallb plain_extension extensions = true.
Proof. vm_compute. reflexivity. Qed.

Lemma basename_snoc (dir : Path) (item : string) :
  basename (dir ++ [item]) = item.
Proof. unfold basename. apply last_last. Qed.

Lemma extname_listed (f : Fs) (root p : Path) :
  In p (findCodeFiles f root) ->
  In (extname p) extensions
  \/ (extname p = EmptyString /\ In (basename p) extensions).
Proof.
  intros H. unfold findCodeFiles in H. apply WalkFacts.walkDir_spec in H.
  destruct H as [[] | H]. apply WalkFacts.walk_reaches_below in H.
  destruct H as (rel & item & -> & _ & He & _ & _).
  apply existsb_exists in He. destruct He as (ext & Hin & Hends).
  apply endsWith_split in Hends. destruct Hends as (pre & ->).
  pose proof extensions_are_plain as Hplain.
  rewrite forallb_forall in Hplain.
  unfold extname. rewrite app_assoc, basename_snoc.
  destruct (extname_of_suffix pre ext (Hplain ext Hin)) as [[-> ->] | ->].
  - right. split; [reflexivity | exact Hin].
  - left. exact Hin.
Qed.

(** X23: every code file that is found has one of the listed extensions as
    its extension, or is named exactly as one of them (a dot file such
    as .json, whose extension is empty).  So every key of the
    per-extension summary of an analysis that read all its files is a
    listed extension or no-extension. *)
Theorem summary_keys_are_listed_extensions (h : Host)
        (projectPath : string) (summary : CodeStructure) :
  let root := resolve (cwd h) projectPath in
  codeStructure (analyzeCodeFiles h projectPath) = Some summary ->
  (forall p, In p (findCodeFiles (fs h) root) ->
     In (extname p) extensions
     \/ (extname p = EmptyString /\ In (basename p) extensions))
  /\ forall key, In key (map fst (filesByExtension summary)) ->
       In key extensions \/ key = "no-extension".
Proof.
  intros root Hrun.
  split; [intros p; apply extname_listed |].
  pose proof (AnalyzerFacts.aggregation_ran h projectPath summary Hrun)
    as Hread. fold root in Hread.
  rewrite AnalyzerFacts.analyzeCodeFiles_unfold in Hrun. fold root in Hrun.
  rewrite (AnalyzerFacts.analyze_files_completes _ _ _ _ Hread) in Hrun.
  destruct (ProjectFacts.analyze_files_fields (fs h) root _ Hread
              empty_analysis) as (_ & _ & _ & _ & Hc).
  cbn [empty_analysis fileContents app] in Hc.
  unfold aggregate in Hrun.
  pose proof (SummaryFacts.fold_keys
                (fileContents
                   (fst (analyze_files (fs h) root
                           (findCodeFiles (fs h) root) empty_analysis)))
                []) as Hk.
  rewrite <- SummaryFacts.group_by_extension_fold in Hk.
  change (group_by_extension ?x)
    with (filesByExtension (fst (buildCodeStructureMap x))) in Hk.
  destruct (buildCodeStructureMap _) as [built sorted].
  cbn [codeStructure] in Hrun. inversion Hrun; subst built.
  cbn [fst] in Hk. unfold group_keys in Hk. cbn [map app] in Hk.
  intros key Hkey. rewrite Hk, Hc in Hkey.
  apply AnalyzerFacts.dedup_incl in Hkey.
  apply in_map_iff in Hkey. destruct Hkey as (r & <- & Hr).
  apply in_flat_map in Hr. destruct Hr as (p & Hp & Hr).
  unfold record_of in Hr.
  destruct (readFileSync (fs h) p) as [text|]; [| destruct Hr].
  destruct Hr as [<- | []]. unfold extension_key. cbn [extension].
  destruct (extname_listed (fs h) root p Hp) as [Hin | [Hempty _]].
  - destruct (String.eqb_spec (extname p) EmptyString) as [He | _];
      [right; reflexivity | left; exact Hin].
  - rewrite Hempty. right. reflexivity.
Qed.

Lemma summary_keys_are_listed_extensions_witness :
  (exists summary,
     codeStructure (analyzeCodeFiles (table_host twice) "/proj")
     = Some summary
     /\ map fst (filesByExtension summary) = [".json"; ".js"])
  /\ In (extname ["proj"; "lib.js"]) extensions.
Proof.
  split; [eexists; split; vm_compute; reflexivity |].
  assert (Hrun : codeStructure (analyzeCodeFiles (table_host twice) "/proj")
                 = Some {| totalFiles := 2; totalLines := 4; totalSize := 77;
                           filesByExtension :=
                             [(".json", {| count := 1; ext_totalLines := 1 |});
                              (".js", {| count := 1; ext_totalLines := 3 |})];
                           largestFiles :=
                             [{| lf_path := "lib.js"; lf_lines := 3;
                                 lf_size := 75 |};
                              {| lf_path := "package.json"; lf_lines := 1;
                                 lf_size := 2 |}];
                           complexity := Low |})
    by (vm_compute; reflexivity).
  destruct (proj1 (summary_keys_are_listed_extensions
                     (table_host twice) "/proj" _ Hrun)
              ["proj"; "lib.js"]) as [H | [H _]].
  - vm_compute. right. left. reflexivity.
  - exact H.
  - vm_compute in H. discriminate.
Defined.

End ExtensionFacts.

(** ** Rejections *)

Module RejectionFacts.
Import JsString Regex Types CodeAnalyzer FileSystem ReportGenerator Server.
Import Fixtures Spec Vocabulary MoreFixtures.
Local Open Scope list_scope.

Lemma or_default_all (phase_arg : option string) :
  or_default phase_arg "all" = "all"
  \/ exists phase,
       phase_arg = Some phase /\ or_default phase_arg "all" = phase
       /\ phase <> EmptyString /\ phase <> "all".
Proof.
  destruct phase_arg as [[|c phase]|]; cbn [or_default];
    try (left; reflexivity).
  destruct (String.eqb_spec (String c phase) "all") as [-> | Hne];
    [left; reflexivity |].
  right. exists (String c phase). repeat split; [discriminate | exact Hne].
Qed.

Lemma or_default_some (path_arg : option string) :
  or_default path_arg EmptyString = EmptyString
  \/ path_arg = Some (or_default path_arg EmptyString).
Proof. destruct path_arg as [[|c s]|]; cbn [or_default]; auto. Qed.

Lemma runSinglePhase_rejects (h : Host) (history : History)
      (projectPath phase : string) (root provided : option string)
      (e : string) :
  fst (runSinglePhase h history projectPath phase root provided) = Thrown e ->
  snd (runSinglePhase h history projectPath phase root provided) = history
  /\ ((parse_phase phase = None /\ e = ("Invalid phase: " ++ phase)%string)
      \/ (phase = "analysis"
          /\ codeStructure (analyzeCodeFiles h projectPath) = None
          /\ e
             = "Cannot read properties of undefined (reading 'toLocaleString')")).
Proof.
  unfold runSinglePhase.
  destruct (parse_phase phase) as [p|] eqn:Hp.
  - destruct (phase_findings h history projectPath p) as [text | e'] eqn:E;
      cbn [fst snd]; [discriminate |].
    intros H. inversion H; subst e'. split; [reflexivity |]. right.
    destruct (SessionFacts.phase_findings_throws _ _ _ _ _ E) as [-> Hnone].
    apply SessionFacts.parse_phase_name in Hp. cbn [phase_name] in Hp.
    split; [symmetry; exact Hp |]. split; [exact Hnone |].
    cbn [phase_findings] in E. unfold processPhase3 in E.
    rewrite Hnone in E. inversion E. reflexivity.
  - cbn [fst snd]. intros H. inversion H. auto.
Qed.

(** X24: the promise of a call is rejected only when a single phase was asked
    for, by a phase string that is not empty and not all, and then for
    one of two reasons: the string is none of the four phase names, or
    it is the analysis phase and a code file could not be read.  The
    history is as it was.  A comprehensive run never rejects. *)
Theorem rejects_only_for_a_single_phase (h : Host) (history : History)
        (input : Input) (e : string) :
  fst (processCodebaseAnalysis h history input) = Thrown e ->
  snd (processCodebaseAnalysis h history input) = history
  /\ exists providedPath phase,
       input = Arguments (Some providedPath) (Some phase)
       /\ phase <> EmptyString /\ phase <> "all"
       /\ ((parse_phase phase = None
            /\ e = ("Invalid phase: " ++ phase)%string)
           \/ (phase = "analysis"
               /\ forallb (readable (fs h))
                    (findCodeFiles (fs h)
                       (resolve (cwd h)
                          (findRepositoryRoot (fs h) (cwd h) providedPath)))
                  = false)).
Proof.
  unfold processCodebaseAnalysis.
  destruct input as [|path_arg phase_arg]; [discriminate |].
  destruct (String.eqb _ _ || negb _) eqn:Hvalid; [discriminate |].
  destruct (or_default_all phase_arg)
    as [Hall | (phase & -> & Hphase & Hne & Hnall)].
  - rewrite Hall. change (negb (String.eqb "all" "all")) with false.
    cbv beta iota.
    match goal with
    | |- context [run_phases h ?path phaseOrder 0 EmptyString history] =>
        destruct (run_phases h path phaseOrder 0 EmptyString history)
          as [[report | e'] history']
    end; discriminate.
  - rewrite Hphase.
    destruct (String.eqb_spec phase "all") as [-> | _]; [congruence |].
    cbn [negb]. intros H.
    apply runSinglePhase_rejects in H. destruct H as [Hsnd Hwhy].
    split; [exact Hsnd |].
    destruct (or_default_some path_arg) as [Hempty | Hpath].
    + rewrite Hempty in Hvalid. discriminate.
    + exists (or_default path_arg EmptyString), phase.
      split; [rewrite Hpath at 1; reflexivity |].
      split; [exact Hne |]. split; [exact Hnall |].
      destruct Hwhy as [Hinvalid | (Hp & Hnone & _)]; [left; exact Hinvalid |].
      right. split; [exact Hp |].
      destruct (forallb _ _) eqn:Hread; [| reflexivity].
      destruct (ProjectFacts.readable_gives_summary _ _ Hread) as (s & Hs).
      congruence.
Qed.

Lemma rejects_only_for_a_single_phase_witness :
  exists providedPath phase,
    Arguments (Some "/proj") (Some "bogus")
    = Arguments (Some providedPath) (Some phase)
    /\ phase <> EmptyString /\ phase <> "all"
    /\ ((parse_phase phase = None
         /\ "Invalid phase: bogus" = ("Invalid phase: " ++ phase)%string)
        \/ (phase = "analysis"
            /\ forallb (readable (fs (table_host repository)))
                 (findCodeFiles (fs (table_host repository))
                    (resolve (cwd (table_host repository))
                       (findRepositoryRoot (fs (table_host repository))
                          (cwd (table_host repository)) providedPath)))
               = false)).
Proof.
  assert (H : fst (processCodebaseAnalysis (table_host repository) []
                     (Arguments (Some "/proj") (Some "bogus")))
              = Thrown "Invalid phase: bogus") by (vm_compute; reflexivity).
  exact (proj2 (rejects_only_for_a_single_phase
                  (table_host repository) []
                  (Arguments (Some "/proj") (Some "bogus"))
                  "Invalid phase: bogus" H)).
Defined.

End RejectionFacts.

(** ** The findings quoted by the final report *)

Module QuoteFacts.
Import JsString Regex Types CodeAnalyzer FileSystem ReportGenerator Server.
Import Fixtures Spec Vocabulary MoreFixtures.
Local Open Scope list_scope.

Lemma render_each_app {A} (g : A -> string) (l1 l2 : list A) :
  render_each g (l1 ++ l2) = (render_each g l1 ++ render_each g l2)%string.
Proof.
  unfold render_each.
  induction l1 as [|x l1 IH]; cbn [app map]; [reflexivity |].
  assert (Hcons : forall y ys,
             String.concat EmptyString (y :: ys)
             = (y ++ String.concat EmptyString ys)%string).
  { intros y ys. cbn [String.concat]. destruct ys; [| reflexivity].
    cbn [String.concat]. symmetry. apply StringFacts.append_empty_r. }
  rewrite !Hcons, IH, IncludesFacts.append_assoc. reflexivity.
Qed.

(** The text the loop over the phases gathers: the findings of the
    records it adds, each followed by an empty line. *)
Lemma run_phases_report (h : Host) (projectPath : string)
      (phases : list Phase) :
  forall tick report history out,
    fst (run_phases h projectPath phases tick report history)
    = Returned out ->
    exists added,
      snd (run_phases h projectPath phases tick report history)
      = history ++ added
      /\ map phase added = phases
      /\ out = (report
                ++ render_each (fun a => (findings a ++ nl ++ nl)%string)
                               added)%string.
Proof.
  induction phases as [|p more IH]; intros tick report history out H.
  - cbn [run_phases fst snd] in H |- *. exists [].
    rewrite app_nil_r. inversion H; subst.
    split; [reflexivity |]. split; [reflexivity |].
    symmetry. apply StringFacts.append_empty_r.
  - rewrite SessionFacts.run_phases_cons in H |- *.
    destruct (phase_findings h history projectPath p) as [text | e];
      [| discriminate].
    destruct (IH _ _ _ _ H) as (added & Hsnd & Hphase & Hout).
    eexists (_ :: added). rewrite Hsnd, <- app_assoc. cbn [app].
    split; [reflexivity |].
    split; [cbn [map phase]; rewrite Hphase; reflexivity |].
    rewrite Hout.
    change (?x :: added) with ([x] ++ added).
    rewrite render_each_app. unfold render_each at 2.
    cbn [map String.concat findings].
    rewrite !IncludesFacts.append_assoc. reflexivity.
Qed.

Lemma report_quotes (isoNow projectPath allPhaseFindings : string)
      (analysisHistory : list CodebaseAnalysis) :
  includes (generateComprehensiveReport isoNow projectPath allPhaseFindings
                                        analysisHistory)
           allPhaseFindings = true.
Proof.
  unfold generateComprehensiveReport.
  do 15 apply IncludesFacts.includes_skip.
  apply IncludesFacts.includes_here, IncludesFacts.prefix_append.
Qed.

Lemma twice_run_returns :
  exists response history' report root provided,
    processCodebaseAnalysis (table_host twice) []
                            (Arguments (Some "/proj") None)
    = (Returned response, history')
    /\ content response
       = Comprehensive "/proj" root provided report false 4
                       ["conceptual"; "structural"; "analysis"; "synthesis"].
Proof.
  do 5 eexists. split; vm_compute; reflexivity.
Qed.

(** X25: the report of a comprehensive run quotes the findings of the four
    records the run has added to the history, in the order of the
    phases, each followed by an empty line. *)
Theorem comprehensive_report_quotes_the_phases (h : Host)
        (history history' : History) (input : Input) (response : Response)
        (projectPath report : string) (root provided : option string)
        (next : bool) (n : nat) (phases : list string) :
  processCodebaseAnalysis h history input = (Returned response, history') ->
  content response
  = Comprehensive projectPath root provided report next n phases ->
  exists added,
    history' = history ++ added
    /\ map phase added = phaseOrder
    /\ includes report
                (render_each (fun a => (findings a ++ nl ++ nl)%string) added)
       = true.
Proof.
  unfold processCodebaseAnalysis.
  destruct input as [|path_arg phase_arg];
    [intros H; inversion H; subst; discriminate |].
  destruct (String.eqb _ _ || negb _);
    [intros H; inversion H; subst; discriminate |].
  destruct (negb (String.eqb (or_default phase_arg "all") "all")).
  - intros H Hc.
    destruct (SessionFacts.runSinglePhase_grows h history
                (findRepositoryRoot (fs h) (cwd h)
                                    (or_default path_arg EmptyString))
                (or_default phase_arg "all")
                (if negb (String.eqb
                            (findRepositoryRoot (fs h) (cwd h)
                               (or_default path_arg EmptyString))
                            (or_default path_arg EmptyString))
                 then Some (findRepositoryRoot (fs h) (cwd h)
                              (or_default path_arg EmptyString))
                 else None)
                (if negb (String.eqb
                            (findRepositoryRoot (fs h) (cwd h)
                               (or_default path_arg EmptyString))
                            (or_default path_arg EmptyString))
                 then Some (or_default path_arg EmptyString)
                 else None)) as (added & _ & Hshape).
    rewrite H in Hshape. cbn [fst] in Hshape. rewrite Hc in Hshape.
    destruct Hshape as (Herr & Hn & Hm).
    exfalso.
    unfold runSinglePhase in H.
    destruct (parse_phase _); [| discriminate].
    destruct (phase_findings _ _ _ _); [| discriminate].
    inversion H; subst. discriminate.
  - match goal with
    | |- context [run_phases h ?path phaseOrder 0 EmptyString history] =>
        pose proof (run_phases_report h path phaseOrder 0 EmptyString history)
          as Hrun;
        destruct (run_phases h path phaseOrder 0 EmptyString history)
          as [[out | e] hist]
    end; intros H Hc; inversion H; subst; [| discriminate].
    cbn [content] in Hc. inversion Hc; subst.
    destruct (Hrun out eq_refl) as (added & Hsnd & Hphase & Hout).
    cbn [fst snd] in Hsnd.
    exists added. split; [exact Hsnd |]. split; [exact Hphase |].
    cbn [append] in Hout. rewrite <- Hout. apply report_quotes.
Qed.

Lemma comprehensive_report_quotes_the_phases_witness :
  exists added,
    snd (processCodebaseAnalysis (table_host twice) []
                                 (Arguments (Some "/proj") None))
    = [] ++ added
    /\ map phase added = phaseOrder.
Proof.
  destruct twice_run_returns
    as (response & history' & report & root & provided & E & Ec).
  destruct (comprehensive_report_quotes_the_phases
              (table_host twice) [] history'
              (Arguments (Some "/proj") None) response _ _ _ _ _ _ _ E Ec)
    as (added & Hh & Hp & _).
  exists added. rewrite E. split; [exact Hh | exact Hp].
Defined.

End QuoteFacts.
